(** * SPACESCOPE ingestion pipeline: fetch client, ingestion tasks, orchestrator

    A shallow embedding of
      - [backend/app/services/nasa_apis.py]  ([NASAAPIBase.fetch]),
      - [backend/app/tasks/nasa_ingestion.py] (the Celery ingestion tasks and
        [ingest_all_nasa_data]),
      - the uniqueness constraints of [backend/app/models/db_models.py],
    together with the properties the specification states about them. *)

From stdpp Require Import base option list gmap strings.
From Stdlib Require Import ZArith Lia Ascii.

Set Warnings "-register-all".
Open Scope string_scope.
Open Scope list_scope.

(** ** JSON values

    What [response.json()] and [json.loads] produce.  Python's [None] is the
    JSON [null], so a fetch that returns [None] returns [JNull].  A number is
    kept as the decimal pair [m * 10^e] of its literal; objects keep their
    entries in payload order (Python dicts iterate in insertion order). *)

Inductive json : Type :=
| JNull
| JBool (b : bool)
| JNum (m e : Z)
| JStr (s : string)
| JList (l : list json)
| JDict (kv : list (string * json)).

(** ** Python exceptions and results *)

Inductive exn : Set :=
| AttributeError | KeyError | IndexError | TypeError | ValueError
| NameError | RuntimeError | JSONDecodeError
| AsyncioTimeoutError | AiohttpClientError | RedisConnectionError
| IntegrityError | OperationalError.

Inductive result (A : Type) : Type :=
| Ok (a : A)
| Raise (e : exn).
Arguments Ok {A} a.
Arguments Raise {A} e.

(** Sequencing: an exception ends the computation. *)
Definition bind {A B : Type} (m : result A) (f : A -> result B) : result B :=
  match m with
  | Ok a => f a
  | Raise e => Raise e
  end.

Notation "x <- m ;; k" := (bind m (fun x => k))
  (at level 100, m at next level, right associativity, only parsing).

(** ** The parts of the Python runtime the code calls but does not define *)

Class PyRuntime : Type := {
  (** [json.dumps(data, default=str)] on a payload. *)
  json_dumps : json -> string;
  (** [json.loads]; [None] when it raises [JSONDecodeError]. *)
  json_loads : string -> option json;
  (** [json.dumps(params, sort_keys=True)] on a dictionary with string keys. *)
  json_dumps_sorted : gmap string json -> string;
  (** [float(s)] on a string; [None] when it raises [ValueError]. *)
  float_of_string : string -> option json;
  (** [datetime.fromisoformat(s)] as a timestamp; [None] on [ValueError]. *)
  fromisoformat : string -> option Z;
  (** [t.year] and [t.timetuple().tm_yday] of a timestamp. *)
  utc_year : Z -> Z;
  utc_yday : Z -> Z;
  (** [(t + timedelta(days=d)).strftime('%Y-%m-%d')] *)
  strftime_days : Z -> Z -> string;
}.

(** A test double of the runtime, for evaluating the model on concrete
    inputs: a cache that only ever holds [payload], which every load reads
    back; no string is a number or a date. *)
Definition stub_runtime (payload : json) : PyRuntime :=
  {| json_dumps := fun _ => "cached";
     json_loads := fun _ => Some payload;
     json_dumps_sorted := fun _ => "{}";
     float_of_string := fun _ => None;
     fromisoformat := fun _ => None;
     utc_year := fun _ => 1970%Z;
     utc_yday := fun _ => 1%Z;
     strftime_days := fun _ _ => "1970-01-01" |}.

(** * Python operations on JSON values

    The operations the ingestion tasks apply to a payload, with the exception
    each raises on a value of the wrong shape. *)

Module Py.

(** Equality of JSON values, structural: what [==] gives on the strings,
    [None] and booleans that key columns and membership tests compare.
    (Python also identifies dicts up to the order of their entries and
    numbers across [int] and [float].) *)
Fixpoint json_eqb (a b : json) {struct a} : bool :=
  match a, b with
  | JNull, JNull => true
  | JBool x, JBool y => Bool.eqb x y
  | JNum m e, JNum m' e' => (m =? m')%Z && (e =? e')%Z
  | JStr s, JStr t => String.eqb s t
  | JList l, JList l' =>
      (fix go (l l' : list json) : bool :=
         match l, l' with
         | [], [] => true
         | x :: xs, y :: ys => json_eqb x y && go xs ys
         | _, _ => false
         end) l l'
  | JDict kv, JDict kv' =>
      (fix go (kv kv' : list (string * json)) : bool :=
         match kv, kv' with
         | [], [] => true
         | (k, x) :: xs, (k', y) :: ys => String.eqb k k' && json_eqb x y && go xs ys
         | _, _ => false
         end) kv kv'
  | _, _ => false
  end.

(** Induction on a JSON value with the hypothesis for every element of a
    list and every value of a dict. *)
Fixpoint json_nested_ind (P : json -> Prop)
    (HNull : P JNull) (HBool : forall b, P (JBool b))
    (HNum : forall m e, P (JNum m e)) (HStr : forall s, P (JStr s))
    (HList : forall l, Forall P l -> P (JList l))
    (HDict : forall kv, Forall (fun x => P x.2) kv -> P (JDict kv))
    (j : json) {struct j} : P j :=
  let rec := json_nested_ind P HNull HBool HNum HStr HList HDict in
  match j with
  | JNull => HNull
  | JBool b => HBool b
  | JNum m e => HNum m e
  | JStr s => HStr s
  | JList l =>
      HList l ((fix go (l : list json) : Forall P l :=
                  match l with
                  | [] => List.Forall_nil P
                  | x :: xs => List.Forall_cons P x xs (rec x) (go xs)
                  end) l)
  | JDict kv =>
      HDict kv ((fix go (kv : list (string * json)) : Forall (fun x => P x.2) kv :=
                   match kv with
                   | [] => List.Forall_nil _
                   | x :: xs => List.Forall_cons _ x xs (rec x.2) (go xs)
                   end) kv)
  end.

#[global] Instance is_null_dec (v : json) : Decision (v = JNull).
Proof. destruct v; [by left | right; discriminate..]. Defined.

(** [bool(j)]: [None], [False], zero and empty containers are falsy. *)
Definition truthy (j : json) : bool :=
  match j with
  | JNull => false
  | JBool b => b
  | JNum m _ => negb (m =? 0)%Z
  | JStr s => negb (String.eqb s "")
  | JList l => negb (bool_decide (l = []))
  | JDict kv => negb (bool_decide (kv = []))
  end.

Fixpoint dict_lookup (k : string) (kv : list (string * json)) : option json :=
  match kv with
  | [] => None
  | (k', v) :: kv' => if String.eqb k k' then Some v else dict_lookup k kv'
  end.

(** [o.get(k, dflt)]; only a dict has [get]. *)
Definition get (o : json) (k : string) (dflt : json) : result json :=
  match o with
  | JDict kv => Ok (default dflt (dict_lookup k kv))
  | _ => Raise AttributeError
  end.

(** [o[k]] for a string [k]. *)
Definition getitem (o : json) (k : string) : result json :=
  match o with
  | JDict kv =>
      match dict_lookup k kv with
      | Some v => Ok v
      | None => Raise KeyError
      end
  | _ => Raise TypeError
  end.

(** [o[0]] *)
Definition first (o : json) : result json :=
  match o with
  | JList (x :: _) => Ok x
  | JList [] => Raise IndexError
  | JStr (String c _) => Ok (JStr (String c EmptyString))
  | JStr EmptyString => Raise IndexError
  | JDict _ => Raise KeyError
  | _ => Raise TypeError
  end.

(** [k in o] for a string [k]: a key of a dict, an element of a list, a
    substring of a string. *)
Definition contains (k : string) (o : json) : result bool :=
  match o with
  | JDict kv => Ok (bool_decide (is_Some (dict_lookup k kv)))
  | JList l => Ok (existsb (json_eqb (JStr k)) l)
  | JStr s => Ok (bool_decide (is_Some (String.index 0 k s)))
  | _ => Raise TypeError
  end.

(** [o.values()] *)
Definition values (o : json) : result (list json) :=
  match o with
  | JDict kv => Ok (kv.*2)
  | _ => Raise AttributeError
  end.

Fixpoint chars (s : string) : list json :=
  match s with
  | EmptyString => []
  | String c s' => JStr (String c EmptyString) :: chars s'
  end.

(** What [for x in o] goes through. *)
Definition iter (o : json) : result (list json) :=
  match o with
  | JList l => Ok l
  | JDict kv => Ok (JStr <$> kv.*1)
  | JStr s => Ok (chars s)
  | _ => Raise TypeError
  end.

(** [o[:n]]; on a dict it raises ([TypeError] before Python 3.12). *)
Definition slice_to (n : nat) (o : json) : result json :=
  match o with
  | JList l => Ok (JList (take n l))
  | JStr s => Ok (JStr (String.substring 0 n s))
  | _ => Raise TypeError
  end.

(** [s.replace('Z', '+00:00')] *)
Fixpoint replace_Z (s : string) : string :=
  match s with
  | EmptyString => EmptyString
  | String c s' =>
      if Ascii.eqb c "Z"%char then "+00:00" +:+ replace_Z s'
      else String c (replace_Z s')
  end.

Section WithRuntime.
Context `{PyRuntime}.

(** [float(o)] *)
Definition float (o : json) : result json :=
  match o with
  | JNum m e => Ok (JNum m e)
  | JBool b => Ok (JNum (if b then 1 else 0) 0)
  | JStr s =>
      match float_of_string s with
      | Some v => Ok v
      | None => Raise ValueError
      end
  | _ => Raise TypeError
  end.

(** [o.replace('Z', '+00:00')]; only a string has this [replace]. *)
Definition str_replace_Z (o : json) : result string :=
  match o with
  | JStr s => Ok (replace_Z s)
  | _ => Raise AttributeError
  end.

(** [datetime.fromisoformat(o.get(k, '').replace('Z', '+00:00'))
     if o.get(k) else None] *)
Definition isoformat_or_none (o : json) (k : string) : result (option Z) :=
  c <- get o k JNull ;;
  if truthy c then
    v <- get o k (JStr "") ;;
    s <- str_replace_Z v ;;
    match fromisoformat s with
    | Some t => Ok (Some t)
    | None => Raise ValueError
    end
  else Ok None.

(** [float(o.get(k, 0)) if o.get(k) else dflt] *)
Definition float_or (o : json) (k : string) (dflt : json) : result json :=
  c <- get o k JNull ;;
  if truthy c then
    v <- get o k (JNum 0 0) ;;
    float v
  else Ok dflt.

End WithRuntime.

(** [for x in l: body], stopping at the first exception. *)
Fixpoint for_each {A S : Type} (body : A -> S -> result S) (l : list A) (s : S)
  : result S :=
  match l with
  | [] => Ok s
  | x :: l' => s' <- body x s ;; for_each body l' s'
  end.

End Py.

(** * The fetch client: [NASAAPIBase] *)

Module Fetch.

Abbreviation loc := positive.

(** [NASAAPIBase.__init__]: the attributes of a service object.  [redis] says
    whether a client was passed ([self.redis] is [None] otherwise); the
    contents of the Redis server live in the [World]. *)
Record NASAAPIBase : Type := {
  class_name : string;
  api_key : string;
  redis : bool;
  cache_ttl : Z;
  max_retries : nat;
  retry_delay : Z;
}.

Definition NASAAPIBase_init (cls key : string) (redis_client : bool) : NASAAPIBase :=
  {| class_name := cls; api_key := key; redis := redis_client;
     cache_ttl := 86400; max_retries := 3; retry_delay := 2 |}.

(** What one [session.get(url, params=params)] can do. *)
Inductive net_outcome : Type :=
| Response (status : Z) (body : option json)
    (** an HTTP response; [body] is what [response.json()] gives, [None]
        when decoding raises *)
| TimeoutError
    (** [asyncio.TimeoutError] *)
| ClientError.
    (** any other [Exception] raised by the request *)

(** The network: the outcome of the [n]-th request ever made, for the url and
    the query parameters sent. *)
Definition network : Type := string -> gmap string json -> nat -> net_outcome.

(** Everything [fetch] reads or changes outside its own frame: the dictionary
    objects of the heap, the Redis server (value and expiry time per key, and
    whether it can be reached: a command sent to a server that cannot raises
    [redis.ConnectionError]), the clock in seconds and the number of requests
    made so far. *)
Record World : Type := {
  heap : gmap loc (gmap string json);
  redis_db : gmap string (string * Z);
  redis_up : bool;
  now : Z;
  calls : nat;
}.

Definition empty_world : World :=
  {| heap := ∅; redis_db := ∅; redis_up := true; now := 0; calls := 0 |}.

Definition set_heap (h : gmap loc (gmap string json)) (w : World) : World :=
  {| heap := h; redis_db := redis_db w; redis_up := redis_up w;
     now := now w; calls := calls w |}.

(** [asyncio.sleep(d)] *)
Definition sleep (d : Z) (w : World) : World :=
  {| heap := heap w; redis_db := redis_db w; redis_up := redis_up w;
     now := (now w + d)%Z; calls := calls w |}.

Definition count_call (w : World) : World :=
  {| heap := heap w; redis_db := redis_db w; redis_up := redis_up w;
     now := now w; calls := S (calls w) |}.

(** [redis.get(key)]: the value while it has not expired. *)
Definition redis_get (key : string) (w : World) : option string :=
  match redis_db w !! key with
  | Some (v, expiry) => if (now w <? expiry)%Z then Some v else None
  | None => None
  end.

(** [redis.setex(key, ttl, value)] *)
Definition redis_setex (key : string) (ttl : Z) (v : string) (w : World) : World :=
  {| heap := heap w; redis_db := <[key := (v, (now w + ttl)%Z)]> (redis_db w);
     redis_up := redis_up w; now := now w; calls := calls w |}.

(** The dictionary behind the [params] argument: [None] is Python's [None]. *)
Definition params_dict (params : option loc) (w : World) : gmap string json :=
  match params with
  | Some l => default ∅ (heap w !! l)
  | None => ∅
  end.

(** [if not params: params = {}] then [params['api_key'] = self.api_key]:
    the object that ends up bound to [params], and the heap after the store.
    An empty or absent dictionary is replaced by a fresh one. *)
Definition bind_params (svc : NASAAPIBase) (params : option loc) (w : World)
  : loc * World :=
  let d := params_dict params w in
  let l := match params with
           | Some l => if bool_decide (size d = 0) then fresh (dom (heap w)) else l
           | None => fresh (dom (heap w))
           end in
  let d0 := if bool_decide (size d = 0) then ∅ else d in
  (l, set_heap (<[l := <["api_key" := JStr (api_key svc)]> d0]> (heap w)) w).

Section WithRuntime.
Context `{PyRuntime}.

(** [f"{self.__class__.__name__}:{url}:{json.dumps(params, sort_keys=True)}"] *)
Definition cache_key (svc : NASAAPIBase) (url : string) (p : gmap string json) : string :=
  class_name svc +:+ ":" +:+ url +:+ ":" +:+ json_dumps_sorted p.

(** The body of [for attempt in range(self.max_retries)], with [todo]
    iterations left; the result is what [fetch] returns ([JNull] is [None]). *)
Fixpoint fetch_loop (svc : NASAAPIBase) (net : network) (url : string)
    (p : gmap string json) (key : string) (attempt todo : nat) (w : World)
  : json * World :=
  match todo with
  | O => (JNull, w)
  | S todo' =>
      let w1 := count_call w in
      match net url p (calls w) with
      | Response status body =>
          if (status =? 200)%Z then
            match body with
            | Some data =>
                if redis svc then
                  if redis_up w1
                  then (data, redis_setex key (cache_ttl svc) (json_dumps data) w1)
                  else (JNull, w1)     (* [setex] raises inside the [try] *)
                else (data, w1)
            | None => (JNull, w1)
            end
          else if (status =? 429)%Z then
            fetch_loop svc net url p key (S attempt) todo' (sleep (retry_delay svc) w1)
          else (JNull, w1)
      | TimeoutError =>
          if (Z.of_nat attempt <? Z.of_nat (max_retries svc) - 1)%Z
          then fetch_loop svc net url p key (S attempt) todo' (sleep (retry_delay svc) w1)
          else fetch_loop svc net url p key (S attempt) todo' w1
      | ClientError => (JNull, w1)
      end
  end.

(** The cache check at the top of [fetch]: [Some] of the cached bytes on a
    hit.  An empty value is falsy and counts as a miss. *)
Definition cache_check (svc : NASAAPIBase) (key : string) (w : World)
  : result (option string) :=
  if redis svc then
    if redis_up w then
      match redis_get key w with
      | Some cached => Ok (if bool_decide (cached = "") then None else Some cached)
      | None => Ok None
      end
    else Raise RedisConnectionError
  else Ok None.

(** [NASAAPIBase.fetch] *)
Definition fetch (svc : NASAAPIBase) (net : network) (url : string)
    (params : option loc) (w : World) : result json * World :=
  let '(l, w0) := bind_params svc params w in
  let p := default ∅ (heap w0 !! l) in
  let key := cache_key svc url p in
  match cache_check svc key w0 with
  | Raise e => (Raise e, w0)
  | Ok (Some cached) =>
      match json_loads cached with
      | Some v => (Ok v, w0)
      | None => (Raise JSONDecodeError, w0)
      end
  | Ok None =>
      let '(r, w1) := fetch_loop svc net url p key 0 (max_retries svc) w0 in
      (Ok r, w1)
  end.

(** The dictionary sent with the request: the one bound to [params] once
    [api_key] is stored in it. *)
Definition request_params (svc : NASAAPIBase) (params : option loc) (w : World)
  : gmap string json :=
  default ∅ (heap (bind_params svc params w).2 !! (bind_params svc params w).1).

(** The cache key [fetch] builds for a call. *)
Definition fetch_cache_key (svc : NASAAPIBase) (url : string)
    (params : option loc) (w : World) : string :=
  cache_key svc url (request_params svc params w).

(** What the cache check of a call to [fetch] finds. *)
Definition cache_lookup (svc : NASAAPIBase) (url : string)
    (params : option loc) (w : World) : result (option string) :=
  cache_check svc (fetch_cache_key svc url params w) (bind_params svc params w).2.

(** The cache lookup of a call raises: Redis cannot be reached, or the
    cached bytes do not load. *)
Definition lookup_raises (svc : NASAAPIBase) (url : string)
    (params : option loc) (w : World) : Prop :=
  (exists e, cache_lookup svc url params w = Raise e) \/
  (exists c, cache_lookup svc url params w = Ok (Some c) /\ json_loads c = None).

(** A service method that does not go through [fetch]:
    [async with session.get(url, params=params) as response:
       if response.status == 200: return await response.json()]
    and [return None] after it.  Nothing is caught. *)
Definition get_json (net : network) (url : string) (p : gmap string json) (w : World)
  : result json * World :=
  (match net url p (calls w) with
   | Response status body =>
       if (status =? 200)%Z then
         match body with
         | Some data => Ok data
         | None => Raise JSONDecodeError
         end
       else Ok JNull
   | TimeoutError => Raise AsyncioTimeoutError
   | ClientError => Raise AiohttpClientError
   end, count_call w).

(** [APODService.get_apod(date, count)] *)
Definition get_apod (svc : NASAAPIBase) (net : network) (date : option string)
    (count : Z) (w : World) : result json * World :=
  let params : gmap string json :=
    match date with
    | Some s => if bool_decide (s = "") then {["count" := JNum count 0]}
                else {["date" := JStr s]}
    | None => {["count" := JNum count 0]}
    end in
  let l := fresh (dom (heap w)) in
  fetch svc net "https://api.nasa.gov/planetary/apod" (Some l)
    (set_heap (<[l := params]> (heap w)) w).

(** [AsteroidsNeoWSService.get_asteroids_today()] *)
Definition get_asteroids_today (svc : NASAAPIBase) (net : network) (w : World)
  : result json * World :=
  fetch svc net "https://api.nasa.gov/neo/rest/v1/feed/today" None w.

(** [CNEOSService.query_close_approaches(start_date, end_date)] *)
Definition query_close_approaches (net : network) (start_date end_date : string)
    (w : World) : result json * World :=
  get_json net "https://api.nasa.gov/ssd/api/cad.api"
    (<["date-min" := JStr start_date]> (<["date-max" := JStr end_date]>
      (<["limit" := JNum 1000 0]> {["sort" := JStr "date"]}))) w.

(** The caller's dictionary at [l] holds [api_key] after the call, next to
    what it held before. *)
Definition mutates_callers_dict (svc : NASAAPIBase) (net : network) (url : string)
    (l : loc) (w : World) : Prop :=
  forall d, heap w !! l = Some d ->
    heap (fetch svc net url (Some l) w).2 !! l
      = Some (<["api_key" := JStr (api_key svc)]> d).

End WithRuntime.

(** Kinds of outcome, and endpoints that always answer the same way. *)
Definition rate_limited (o : net_outcome) : Prop :=
  exists b, o = Response 429 b.

Definition retryable (o : net_outcome) : Prop :=
  o = TimeoutError \/ rate_limited o.

(** A status that is neither 2xx nor 429. *)
Definition hard_failure (o : net_outcome) : Prop :=
  exists s b, o = Response s b /\ (s < 200 \/ 300 <= s)%Z /\ s <> 429%Z.

(** Everything that is neither a decoded 200 nor retried. *)
Definition failure (o : net_outcome) : Prop :=
  o = ClientError \/ o = Response 200 None \/
  exists s b, o = Response s b /\ s <> 200%Z /\ s <> 429%Z.

Definition persistently (net : network) (P : net_outcome -> Prop) : Prop :=
  forall url p n, P (net url p n).

Definition always (o : net_outcome) : network := fun _ _ _ => o.

End Fetch.

(** * The shared store

    The tables of [db_models.py] that the modelled tasks write, with their
    [unique=True] columns, and an [AsyncSession] made by [async_session_maker]
    ([autoflush=False]: a query sees committed rows only, and pending rows
    reach the tables together at [commit]).  A row holds the columns the
    tasks set; its surrogate [id] is its position in the table, and
    [updated_at], which only has a default, is left out. *)

Module Store.

Record APOD : Type := {
  apod_title : json;
  apod_explanation : json;
  apod_url : json;            (* unique *)
  apod_hdurl : json;
  apod_media_type : json;
  apod_copyright : json;
  apod_date : json;           (* unique *)
  apod_service_version : json;
  apod_fetched_at : Z;
}.

Record AsteroidNeoWS : Type := {
  neo_id : json;              (* unique *)
  neo_name : json;
  nasa_jpl_url : json;
  absolute_magnitude : json;
  estimated_diameter_min_m : json;
  estimated_diameter_max_m : json;
  is_potentially_hazardous : json;
  close_approach_date : option Z;
  close_approach_velocity_km_s : json;
  close_approach_distance_km : json;
  relative_velocity : json;
  miss_distance : json;
  orbiting_body : json;
  neo_fetched_at : Z;
}.

Record CNEOS : Type := {
  designation : json;         (* unique *)
  object_name : json;
  object_type : json;
  cneos_epoch : Z;
  semi_major_axis : json;
  cneos_eccentricity : json;
  cneos_inclination : json;
  longitude_ascending_node : json;
  argument_perihelion : json;
  cneos_mean_anomaly : json;
  perihelion_distance : json;
  aphelion_distance : json;
  orbital_period : json;
  diameter_km : json;
  cneos_absolute_magnitude : json;
  hazard_assessment : json;
  cneos_fetched_at : Z;
}.

Record TLE : Type := {
  satellite_number : json;    (* unique *)
  satellite_name : json;
  tle_epoch : Z;
  tle_line0 : json;
  tle_line1 : json;
  tle_line2 : json;
  tle_inclination : json;
  raan : json;
  tle_eccentricity : json;
  argument_perigee : json;
  tle_mean_anomaly : json;
  mean_motion : json;
  epoch_year : Z;
  epoch_day : Z;
  tle_fetched_at : Z;
}.

(** [available] is false while the database cannot be reached: every
    statement sent to it then raises [OperationalError]. *)
Record Database : Type := {
  available : bool;
  apod : list APOD;
  asteroids_neows : list AsteroidNeoWS;
  cneos : list CNEOS;
  tle : list TLE;
}.

Definition empty_db : Database :=
  {| available := true; apod := []; asteroids_neows := []; cneos := []; tle := [] |}.

(** An object handed to [session.add]. *)
Inductive row : Type :=
| RowAPOD (r : APOD)
| RowAsteroid (r : AsteroidNeoWS)
| RowCNEOS (r : CNEOS)
| RowTLE (r : TLE).

(** A unique column accepts [v] when [v] is NULL or no row holds it yet. *)
Definition unique_ok (v : json) (column : list json) : bool :=
  match v with
  | JNull => true
  | _ => negb (existsb (Py.json_eqb v) column)
  end.

(** No value other than NULL occurs twice in the column. *)
Definition no_duplicates (column : list json) : Prop :=
  NoDup (filter (fun v => v <> JNull) column).

(** At most one row per natural key, in every table. *)
Definition keys_unique (db : Database) : Prop :=
  no_duplicates (apod_date <$> apod db) /\
  no_duplicates (apod_url <$> apod db) /\
  no_duplicates (neo_id <$> asteroids_neows db) /\
  no_duplicates (designation <$> cneos db) /\
  no_duplicates (satellite_number <$> tle db).

(** One INSERT. *)
Definition insert (r : row) (db : Database) : result Database :=
  match r with
  | RowAPOD a =>
      if unique_ok (apod_url a) (apod_url <$> apod db)
         && unique_ok (apod_date a) (apod_date <$> apod db)
      then Ok {| available := available db; apod := apod db ++ [a];
                 asteroids_neows := asteroids_neows db; cneos := cneos db;
                 tle := tle db |}
      else Raise IntegrityError
  | RowAsteroid a =>
      if unique_ok (neo_id a) (neo_id <$> asteroids_neows db)
      then Ok {| available := available db; apod := apod db;
                 asteroids_neows := asteroids_neows db ++ [a]; cneos := cneos db;
                 tle := tle db |}
      else Raise IntegrityError
  | RowCNEOS c =>
      if unique_ok (designation c) (designation <$> cneos db)
      then Ok {| available := available db; apod := apod db;
                 asteroids_neows := asteroids_neows db; cneos := cneos db ++ [c];
                 tle := tle db |}
      else Raise IntegrityError
  | RowTLE t =>
      if unique_ok (satellite_number t) (satellite_number <$> tle db)
      then Ok {| available := available db; apod := apod db;
                 asteroids_neows := asteroids_neows db; cneos := cneos db;
                 tle := tle db ++ [t] |}
      else Raise IntegrityError
  end.

(** [await session.commit()]: the pending rows are inserted in the order
    they were added, in one transaction; the result is the new database, and
    on an exception nothing of the transaction remains.  With nothing
    pending no statement is sent. *)
Definition commit (pending : list row) (db : Database) : result Database :=
  match pending with
  | [] => Ok db
  | _ => if available db then Py.for_each insert pending db
         else Raise OperationalError
  end.

(** [existing = await session.execute(select(T).where(T.col == v))] followed
    by [existing.scalar()] as a condition: is there a committed row whose
    column equals [v] (for [v = None] the query is [col IS NULL]). *)
Definition select_exists {R : Type} (table : list R) (col : R -> json) (v : json)
    (db : Database) : result bool :=
  if available db then Ok (existsb (fun r => Py.json_eqb (col r) v) table)
  else Raise OperationalError.

End Store.

(** * Celery tasks *)

Module Celery.

(** How one invocation of a task function ends: it returns a value, or it
    raises [celery.exceptions.Retry] (the task is queued again, to run after
    [countdown] seconds), or it raises an exception of its own. *)
Inductive task_outcome : Type :=
| Returned (v : json)
| RaisedRetry (exc : exn) (countdown : Z)
| RaisedError (exc : exn).

(** [raise self.retry(exc=exc, countdown=countdown)], where [retries] is
    [self.request.retries]: [Task.retry] raises [exc] itself once the retries
    made so far have used up [max_retries], and [Retry] before that. *)
Definition self_retry (max_retries retries : nat) (exc : exn) (countdown : Z)
  : task_outcome :=
  if (max_retries <? retries + 1)%nat then RaisedError exc else RaisedRetry exc countdown.

(** [loop.run_until_complete(coro)]: refused with [RuntimeError] when the
    event loop is already running, that is, when called from a coroutine. *)
Definition run_async {A : Type} (loop_running : bool) (coro : result A) : result A :=
  if loop_running then Raise RuntimeError else coro.

End Celery.

(** * The ingestion tasks of [nasa_ingestion.py]

    A task is a function of [fetched], the outcome of its service call
    [run_async(service.get_...())]: the value returned ([JNull] for [None]) or
    the exception raised.  [retries] is [self.request.retries] and [now] is
    [datetime.utcnow()].  Module [Pipeline] below supplies [fetched] from
    the service methods. *)

Module Ingestion.
Import Store Celery.

Definition status_success : json := JDict [("status", JStr "success")].
Definition status_error : json := JDict [("status", JStr "error")].

(** [run_async(save()); return k]: the value of the task body and the
    database it leaves.  When [save] raises, its transaction is gone. *)
Definition save_then (save : result Database) (k : result json) (db : Database)
  : result json * Database :=
  match save with
  | Ok db' => (k, db')
  | Raise e => (Raise e, db)
  end.

(** [data = run_async(service.get_...())] and the rest of the [try]. *)
Definition with_data (fetched : result json) (db : Database)
    (rest : json -> result json * Database) : result json * Database :=
  match fetched with
  | Ok data => rest data
  | Raise e => (Raise e, db)
  end.

(** [try: body except Exception as exc: raise self.retry(exc=exc, countdown=60)]
    under [@shared_task(bind=True, max_retries=3)]. *)
Definition shared_task (retries : nat) (body : result json * Database)
  : task_outcome * Database :=
  (match body.1 with
   | Ok v => Returned v
   | Raise e => self_retry 3 retries e 60
   end, body.2).

Section WithRuntime.
Context `{PyRuntime}.

(** ** APOD *)

(** [APOD(title=item.get('title'), ...)] *)
Definition apod_of (now : Z) (item : json) : result APOD :=
  title <- Py.get item "title" JNull ;;
  explanation <- Py.get item "explanation" JNull ;;
  url <- Py.get item "url" JNull ;;
  hdurl <- Py.get item "hdurl" JNull ;;
  media_type <- Py.get item "media_type" (JStr "image") ;;
  copyright <- Py.get item "copyright" JNull ;;
  date <- Py.get item "date" JNull ;;
  service_version <- Py.get item "service_version" JNull ;;
  Ok {| apod_title := title; apod_explanation := explanation; apod_url := url;
        apod_hdurl := hdurl; apod_media_type := media_type;
        apod_copyright := copyright; apod_date := date;
        apod_service_version := service_version; apod_fetched_at := now |}.

(** [items = data if isinstance(data, list) else [data]] *)
Definition items_of (data : json) : list json :=
  match data with
  | JList l => l
  | _ => [data]
  end.

(** [save_apod] inside [ingest_apod]: every item is added, none is looked up. *)
Definition save_apod (now : Z) (data : json) (db : Database) : result Database :=
  pending <- Py.for_each (fun item (pending : list row) =>
      apod <- apod_of now item ;;
      Ok (pending ++ [RowAPOD apod])) (items_of data) [] ;;
  commit pending db.

(** The body of the [try] of [ingest_apod].  The [return] of the success
    path reads [len(items)] when [data] is a list, and [items] is a local of
    [save_apod]: no such name exists in [ingest_apod] or in the module. *)
Definition ingest_apod_body (now : Z) (data : json) (db : Database)
  : result json * Database :=
  if Py.truthy data then
    save_then (run_async false (save_apod now data db))
      (match data with
       | JList _ => Raise NameError
       | _ => Ok (JDict [("status", JStr "success"); ("count", JNum 1 0)])
       end) db
  else (Ok (JDict [("status", JStr "error"); ("message", JStr "No data returned")]), db).

Definition ingest_apod (retries : nat) (now : Z) (fetched : result json)
    (db : Database) : task_outcome * Database :=
  shared_task retries
    (with_data fetched db (fun data => ingest_apod_body now data db)).

(** [save_apod_range] inside [ingest_apod_range]: an item whose date is
    stored already is passed over. *)
Definition save_apod_range (now : Z) (data : json) (db : Database) : result Database :=
  pending <- Py.for_each (fun item (pending : list row) =>
      date <- Py.get item "date" JNull ;;
      existing <- select_exists (apod db) apod_date date db ;;
      if existing then Ok pending
      else
        apod <- apod_of now item ;;
        Ok (pending ++ [RowAPOD apod])) (items_of data) [] ;;
  commit pending db.

Definition ingest_apod_range (retries : nat) (now : Z) (fetched : result json)
    (db : Database) : task_outcome * Database :=
  shared_task retries
    (with_data fetched db (fun data =>
       if Py.truthy data then
         save_then (run_async false (save_apod_range now data db))
           (Ok status_success) db
       else (Ok status_error, db))).

(** ** Asteroids *)

(** One pass of the inner loop of [save_asteroids]: [None] when the asteroid
    is passed over ([continue], or no close approach), the record to add
    otherwise. *)
Definition asteroid_record (now : Z) (db : Database) (asteroid : json)
  : result (option AsteroidNeoWS) :=
  id <- Py.get asteroid "id" JNull ;;
  existing <- select_exists (asteroids_neows db) neo_id id db ;;
  if existing then Ok None
  else
    close_approaches <- Py.get asteroid "close_approach_data" (JList []) ;;
    if Py.truthy close_approaches then
      approach <- Py.first close_approaches ;;
      name <- Py.get asteroid "name" JNull ;;
      jpl_url <- Py.get asteroid "nasa_jpl_url" JNull ;;
      magnitude <- Py.get asteroid "absolute_magnitude_h" JNull ;;
      diameter <- Py.getitem asteroid "estimated_diameter" ;;
      meters <- Py.getitem diameter "meters" ;;
      diameter_min <- Py.get meters "estimated_diameter_min" JNull ;;
      diameter' <- Py.getitem asteroid "estimated_diameter" ;;
      meters' <- Py.getitem diameter' "meters" ;;
      diameter_max <- Py.get meters' "estimated_diameter_max" JNull ;;
      hazardous <- Py.get asteroid "is_potentially_hazardous_asteroid" (JBool false) ;;
      approach_date <- Py.isoformat_or_none approach "close_approach_date_full" ;;
      velocity <- Py.getitem approach "relative_velocity" ;;
      km_s <- Py.get velocity "kilometers_per_second" (JNum 0 0) ;;
      velocity_km_s <- Py.float km_s ;;
      distance <- Py.getitem approach "miss_distance" ;;
      km <- Py.get distance "kilometers" (JNum 0 0) ;;
      distance_km <- Py.float km ;;
      rel_velocity <- Py.get approach "relative_velocity" JNull ;;
      miss <- Py.get approach "miss_distance" JNull ;;
      body <- Py.get approach "orbiting_body" JNull ;;
      Ok (Some {| neo_id := id; neo_name := name; nasa_jpl_url := jpl_url;
                  absolute_magnitude := magnitude;
                  estimated_diameter_min_m := diameter_min;
                  estimated_diameter_max_m := diameter_max;
                  is_potentially_hazardous := hazardous;
                  close_approach_date := approach_date;
                  close_approach_velocity_km_s := velocity_km_s;
                  close_approach_distance_km := distance_km;
                  relative_velocity := rel_velocity; miss_distance := miss;
                  orbiting_body := body; neo_fetched_at := now |})
    else Ok None.

(** The loop [for asteroid in asteroids_list] over the session's pending rows. *)
Definition add_asteroids (now : Z) (db : Database) (asteroids : list json)
    (pending : list row) : result (list row) :=
  Py.for_each (fun asteroid (pending : list row) =>
      record <- asteroid_record now db asteroid ;;
      Ok (pending ++ (RowAsteroid <$> option_list record))) asteroids pending.

(** [save_asteroids] inside [ingest_asteroids_today] *)
Definition save_asteroids (now : Z) (data : json) (db : Database) : result Database :=
  neos <- Py.getitem data "near_earth_objects" ;;
  groups <- Py.values neos ;;
  pending <- Py.for_each (fun asteroids_list (pending : list row) =>
      asteroids <- Py.iter asteroids_list ;;
      add_asteroids now db asteroids pending) groups [] ;;
  commit pending db.

(** [data and 'near_earth_objects' in data] *)
Definition has_key (key : string) (data : json) : result bool :=
  if Py.truthy data then Py.contains key data else Ok false.

Definition ingest_asteroids_today (retries : nat) (now : Z)
    (fetched : result json) (db : Database) : task_outcome * Database :=
  shared_task retries
    (with_data fetched db (fun data =>
       match has_key "near_earth_objects" data with
       | Ok true => save_then (run_async false (save_asteroids now data db))
                      (Ok status_success) db
       | Ok false => (Ok status_error, db)
       | Raise e => (Raise e, db)
       end)).

(** ** TLE *)

(** The satellites tracked by [ingest_tle_data], in the order of the dict. *)
Definition satellites : list (string * string) :=
  [("25544", "ISS"); ("39084", "Hubble"); ("34602", "GOES-18")].

(** [save_tle] inside [ingest_tle_data].  It is a coroutine, and it calls
    [run_async] itself for every satellite, while the loop that runs it is
    running; [tle_of sat_id] is what [service.get_tle_for_satellite(sat_id)]
    would return. *)
Definition save_tle (now : Z) (tle_of : string -> json) (db : Database)
  : result Database :=
  pending <- Py.for_each (fun '(sat_id, sat_name) (pending : list row) =>
      data <- run_async true (Ok (tle_of sat_id)) ;;
      if Py.truthy data then
        line1 <- Py.get data "tle_line1" (JStr "") ;;
        line2 <- Py.get data "tle_line2" (JStr "") ;;
        Ok (pending ++ [RowTLE
              {| satellite_number := JStr sat_id; satellite_name := JStr sat_name;
                 tle_epoch := now; tle_line0 := JStr sat_name;
                 tle_line1 := line1; tle_line2 := line2;
                 tle_inclination := JNum 0 0; raan := JNum 0 0;
                 tle_eccentricity := JNum 0 0; argument_perigee := JNum 0 0;
                 tle_mean_anomaly := JNum 0 0; mean_motion := JNum 0 0;
                 epoch_year := utc_year now; epoch_day := utc_yday now;
                 tle_fetched_at := now |}])
      else Ok pending) satellites [] ;;
  commit pending db.

Definition ingest_tle_data (retries : nat) (now : Z) (tle_of : string -> json)
    (db : Database) : task_outcome * Database :=
  shared_task retries
    (save_then (run_async false (save_tle now tle_of db)) (Ok status_success) db).

(** ** CNEOS *)

(** One pass of the loop of [save_cneos]. *)
Definition cneos_record (now : Z) (db : Database) (approach : json)
  : result (option CNEOS) :=
  des <- Py.get approach "des" JNull ;;
  existing <- select_exists (cneos db) designation des db ;;
  if existing then Ok None
  else
    name <- Py.get approach "name" (JStr "") ;;
    a <- Py.float_or approach "a" (JNum 0 0) ;;
    e <- Py.float_or approach "e" (JNum 0 0) ;;
    i <- Py.float_or approach "i" (JNum 0 0) ;;
    om <- Py.float_or approach "om" (JNum 0 0) ;;
    w <- Py.float_or approach "w" (JNum 0 0) ;;
    ma <- Py.float_or approach "ma" (JNum 0 0) ;;
    q <- Py.float_or approach "q" (JNum 0 0) ;;
    ad <- Py.float_or approach "ad" (JNum 0 0) ;;
    per <- Py.float_or approach "per" (JNum 0 0) ;;
    diameter <- Py.float_or approach "diameter" JNull ;;
    h <- Py.float_or approach "H" (JNum 0 0) ;;
    Ok (Some {| designation := des; object_name := name;
                object_type := JStr "asteroid"; cneos_epoch := now;
                semi_major_axis := a; cneos_eccentricity := e;
                cneos_inclination := i; longitude_ascending_node := om;
                argument_perihelion := w; cneos_mean_anomaly := ma;
                perihelion_distance := q; aphelion_distance := ad;
                orbital_period := per; diameter_km := diameter;
                cneos_absolute_magnitude := h;
                hazard_assessment := JStr "unknown"; cneos_fetched_at := now |}).

(** [save_cneos] inside [ingest_cneos_data] *)
Definition save_cneos (now : Z) (data : json) (db : Database) : result Database :=
  rows <- Py.getitem data "data" ;;
  limited <- Py.slice_to 100 rows ;;
  approaches <- Py.iter limited ;;
  pending <- Py.for_each (fun approach (pending : list row) =>
      record <- cneos_record now db approach ;;
      Ok (pending ++ (RowCNEOS <$> option_list record))) approaches [] ;;
  commit pending db.

Definition ingest_cneos_data (retries : nat) (now : Z) (fetched : result json)
    (db : Database) : task_outcome * Database :=
  shared_task retries
    (with_data fetched db (fun data =>
       match has_key "data" data with
       | Ok true => save_then (run_async false (save_cneos now data db))
                      (Ok status_success) db
       | Ok false => (Ok status_error, db)
       | Raise e => (Raise e, db)
       end)).

End WithRuntime.

End Ingestion.

(** * The tasks with their service calls

    [service = XService(settings.NASA_API_KEY)] carries no Redis client; the
    clock of the world is [datetime.utcnow()]. *)

Module Pipeline.
Import Fetch Store Celery.

Section WithRuntime.
Context `{PyRuntime}.

Definition ingest_apod_task (key : string) (net : network) (retries : nat)
    (w : World) (db : Database) : task_outcome * Database * World :=
  let service := NASAAPIBase_init "APODService" key false in
  let '(fetched, w') := get_apod service net None 1 w in
  (Ingestion.ingest_apod retries (now w') fetched db, w').

Definition ingest_asteroids_today_task (key : string) (net : network) (retries : nat)
    (w : World) (db : Database) : task_outcome * Database * World :=
  let service := NASAAPIBase_init "AsteroidsNeoWSService" key false in
  let '(fetched, w') := get_asteroids_today service net w in
  (Ingestion.ingest_asteroids_today retries (now w') fetched db, w').

Definition ingest_cneos_data_task (net : network) (retries : nat)
    (w : World) (db : Database) : task_outcome * Database * World :=
  let start_date := strftime_days (now w) (-365) in
  let end_date := strftime_days (now w) 365 in
  let '(fetched, w') := query_close_approaches net start_date end_date w in
  (Ingestion.ingest_cneos_data retries (now w') fetched db, w').

End WithRuntime.

End Pipeline.

(** * The orchestrator: [ingest_all_nasa_data] *)

Module Orchestrator.

(** The sixteen models of [db_models.py] that the tasks module imports. *)
Inductive entity_kind : Set :=
| APOD | AsteroidNeoWS | DONKI | EONET | EPIC | Exoplanet | GIBS
| InSightWeather | NASAImageLibrary | OpenScience | SatelliteSituationCenter
| CNEOS | TechPort | TechTransfer | TLE | TrekWMS.

#[global] Instance entity_kind_eq_dec : EqDecision entity_kind.
Proof. solve_decision. Defined.

Definition all_kinds : list entity_kind :=
  [APOD; AsteroidNeoWS; DONKI; EONET; EPIC; Exoplanet; GIBS; InSightWeather;
   NASAImageLibrary; OpenScience; SatelliteSituationCenter; CNEOS; TechPort;
   TechTransfer; TLE; TrekWMS].

(** A call of one of the ingestion tasks of the module, with its arguments. *)
Inductive task_call : Set :=
| ingest_apod
| ingest_apod_range (start_date end_date : string)
| ingest_asteroids_today
| ingest_asteroids_by_date (start_date end_date : string)
| ingest_donki_flares
| ingest_donki_cme
| ingest_eonet_events
| ingest_epic_imagery
| ingest_habitable_exoplanets
| ingest_insight_weather
| ingest_nasa_images (query : string)
| ingest_tle_data
| ingest_cneos_data
| ingest_techport_projects
| ingest_techtransfer_spinoffs.

(** The model whose table a task writes. *)
Definition entity_of (t : task_call) : entity_kind :=
  match t with
  | ingest_apod | ingest_apod_range _ _ => APOD
  | ingest_asteroids_today | ingest_asteroids_by_date _ _ => AsteroidNeoWS
  | ingest_donki_flares | ingest_donki_cme => DONKI
  | ingest_eonet_events => EONET
  | ingest_epic_imagery => EPIC
  | ingest_habitable_exoplanets => Exoplanet
  | ingest_insight_weather => InSightWeather
  | ingest_nasa_images _ => NASAImageLibrary
  | ingest_tle_data => TLE
  | ingest_cneos_data => CNEOS
  | ingest_techport_projects => TechPort
  | ingest_techtransfer_spinoffs => TechTransfer
  end.

(** The message queue of the broker, and the source of task ids (Celery
    draws a new uuid for every message). *)
Record Broker : Type := {
  queue : list (nat * task_call);
  next_id : nat;
}.

Record AsyncResult : Type := { id : nat }.

(** [task.delay(...)]: the call is put on the queue under a new id and the
    handle comes back at once; nothing of the task has run. *)
Definition delay (t : task_call) (b : Broker) : AsyncResult * Broker :=
  ({| id := next_id b |},
   {| queue := queue b ++ [(next_id b, t)]; next_id := S (next_id b) |}).

(** The elements of a list display, evaluated from left to right. *)
Fixpoint delay_all (ts : list task_call) (b : Broker) : list AsyncResult * Broker :=
  match ts with
  | [] => ([], b)
  | t :: ts' =>
      let '(r, b1) := delay t b in
      let '(rs, b2) := delay_all ts' b1 in
      (r :: rs, b2)
  end.

(** The dictionary [ingest_all_nasa_data] returns. *)
Record batch : Type := {
  status : string;
  task_count : nat;
  task_ids : list nat;
}.

Definition launched : list task_call :=
  [ingest_apod; ingest_asteroids_today; ingest_donki_flares; ingest_donki_cme;
   ingest_eonet_events; ingest_epic_imagery; ingest_habitable_exoplanets;
   ingest_insight_weather; ingest_nasa_images "space"; ingest_tle_data;
   ingest_cneos_data; ingest_techport_projects; ingest_techtransfer_spinoffs].

Definition ingest_all_nasa_data (b : Broker) : batch * Broker :=
  let '(tasks, b') := delay_all launched b in
  ({| status := "queued"; task_count := length tasks; task_ids := id <$> tasks |}, b').

Definition empty_broker : Broker := {| queue := []; next_id := 0 |}.

(** The jobs on the queue that write the table of [k]. *)
Definition jobs_for (k : entity_kind) (b : Broker) : list (nat * task_call) :=
  filter (fun j => entity_of j.2 = k) (queue b).

(** One job per entity kind for all sixteen kinds, each with its id in the
    handle. *)
Definition one_job_per_kind (out : batch * Broker) : Prop :=
  task_count out.1 = length all_kinds /\
  Forall (fun k => length (jobs_for k out.2) = 1) all_kinds.

End Orchestrator.

(** * Sample payloads *)

Module Samples.

Definition apod_url : string := "https://api.nasa.gov/planetary/apod".

(** [APODService(key)] and [APODService(key, redis_client)] *)
Definition apod_service (redis_client : bool) : Fetch.NASAAPIBase :=
  Fetch.NASAAPIBase_init "APODService" "DEMO_KEY" redis_client.

(** A heap whose one dictionary, at address 1, is [d]. *)
Definition world_with (d : gmap string json) : Fetch.World :=
  {| Fetch.heap := {[1%positive := d]}; Fetch.redis_db := ∅;
     Fetch.redis_up := true; Fetch.now := 0; Fetch.calls := 0 |}.

(** One picture of the day, as the APOD endpoint describes it. *)
Definition apod_fields : list (string * json) :=
  [("date", JStr "2024-01-01");
   ("explanation", JStr "A spiral galaxy seen edge on.");
   ("hdurl", JStr "https://apod.nasa.gov/apod/image/2401/ngc_big.jpg");
   ("media_type", JStr "image");
   ("service_version", JStr "v1");
   ("title", JStr "NGC 891");
   ("url", JStr "https://apod.nasa.gov/apod/image/2401/ngc.jpg")].

Definition apod_item : json := JDict apod_fields.

(** An asteroid of the NeoWs feed with every field the task reads. *)
Definition asteroid (id name : string) : json :=
  JDict [("id", JStr id);
         ("name", JStr name);
         ("nasa_jpl_url", JStr "https://ssd.jpl.nasa.gov/");
         ("absolute_magnitude_h", JNum 221 (-1));
         ("estimated_diameter",
            JDict [("meters",
              JDict [("estimated_diameter_min", JNum 101 0);
                     ("estimated_diameter_max", JNum 226 0)])]);
         ("is_potentially_hazardous_asteroid", JBool false);
         ("close_approach_data",
            JList [JDict [("relative_velocity",
                             JDict [("kilometers_per_second", JNum 137 (-1))]);
                          ("miss_distance",
                             JDict [("kilometers", JNum 4500000 0)]);
                          ("orbiting_body", JStr "Earth")]])].

(** The same without [estimated_diameter]. *)
Definition asteroid_without_diameter (id name : string) : json :=
  JDict [("id", JStr id);
         ("name", JStr name);
         ("nasa_jpl_url", JStr "https://ssd.jpl.nasa.gov/");
         ("absolute_magnitude_h", JNum 221 (-1));
         ("is_potentially_hazardous_asteroid", JBool false);
         ("close_approach_data",
            JList [JDict [("relative_velocity",
                             JDict [("kilometers_per_second", JNum 137 (-1))]);
                          ("miss_distance",
                             JDict [("kilometers", JNum 4500000 0)]);
                          ("orbiting_body", JStr "Earth")]])].

(** A feed of one day with three asteroids, the second one malformed. *)
Definition neo_feed : json :=
  JDict [("element_count", JNum 3 0);
         ("near_earth_objects",
            JDict [("2024-01-01",
              JList [asteroid "3542519" "(2010 PK9)";
                     asteroid_without_diameter "3726710" "(2015 RC)";
                     asteroid "2465633" "465633 (2009 JR5)"])])].

(** A close-approach answer in the shape the CNEOS service uses: every row
    of [data] is a list of field values. *)
Definition cneos_answer : json :=
  JDict [("count", JNum 1 0);
         ("fields", JList [JStr "des"; JStr "cd"; JStr "dist"]);
         ("data", JList [JList [JStr "2024 AB"; JStr "2024-Jan-02 10:00";
                                JStr "0.0123"]])].

End Samples.

(** * Further definitions for the fetch client *)

Module FetchMore.
Import Fetch.

(** A name without a colon, such as a Python class name. *)
Fixpoint colon_free (s : string) : bool :=
  match s with
  | EmptyString => true
  | String c s' => negb (Ascii.eqb c ":"%char) && colon_free s'
  end.

(** An endpoint that answers [k] requests with [o] and every later one with
    [o']. *)
Definition after (k : nat) (o o' : net_outcome) : network :=
  fun _ _ n => if (n <? k)%nat then o else o'.

(** Two networks that answer alike for one url and one set of parameters. *)
Definition agree_at (net net' : network) (url : string) (p : gmap string json)
  : Prop :=
  forall n, net url p n = net' url p n.

(** The dictionary [APODService.get_apod] builds before it calls [fetch]. *)
Definition apod_params (date : option string) (count : Z) : gmap string json :=
  match date with
  | Some s => if bool_decide (s = "") then {["count" := JNum count 0]}
              else {["date" := JStr s]}
  | None => {["count" := JNum count 0]}
  end.

(** The network never answers with a 200 that decodes. *)
Definition outage (net : network) : Prop :=
  forall url p i d, net url p i <> Response 200 (Some d).

End FetchMore.

(** * Further definitions for the store and the tasks *)

Module StoreMore.
Import Store.

(** The INSERT of [insert] without its check. *)
Definition push (db : Database) (r : row) : Database :=
  match r with
  | RowAPOD a =>
      {| available := available db; apod := apod db ++ [a];
         asteroids_neows := asteroids_neows db; cneos := cneos db; tle := tle db |}
  | RowAsteroid a =>
      {| available := available db; apod := apod db;
         asteroids_neows := asteroids_neows db ++ [a]; cneos := cneos db;
         tle := tle db |}
  | RowCNEOS c =>
      {| available := available db; apod := apod db;
         asteroids_neows := asteroids_neows db; cneos := cneos db ++ [c];
         tle := tle db |}
  | RowTLE t =>
      {| available := available db; apod := apod db;
         asteroids_neows := asteroids_neows db; cneos := cneos db;
         tle := tle db ++ [t] |}
  end.

(** The rows of each table among the objects of a session. *)
Definition apods_of (rows : list row) : list APOD :=
  omap (fun r => match r with RowAPOD a => Some a | _ => None end) rows.
Definition asteroids_of (rows : list row) : list AsteroidNeoWS :=
  omap (fun r => match r with RowAsteroid a => Some a | _ => None end) rows.
Definition cneos_of (rows : list row) : list CNEOS :=
  omap (fun r => match r with RowCNEOS c => Some c | _ => None end) rows.
Definition tles_of (rows : list row) : list TLE :=
  omap (fun r => match r with RowTLE t => Some t | _ => None end) rows.

(** The database [db] with [rows] appended to their tables. *)
Definition with_rows (db : Database) (rows : list row) : Database :=
  {| available := available db;
     apod := apod db ++ apods_of rows;
     asteroids_neows := asteroids_neows db ++ asteroids_of rows;
     cneos := cneos db ++ cneos_of rows;
     tle := tle db ++ tles_of rows |}.

(** [db'] holds every row of [db], in place, and maybe more after them. *)
Definition grows (db db' : Database) : Prop :=
  available db' = available db /\
  apod db `prefix_of` apod db' /\
  asteroids_neows db `prefix_of` asteroids_neows db' /\
  cneos db `prefix_of` cneos db' /\
  tle db `prefix_of` tle db'.

(** Two asteroid rows of a session carry the same key, which is not NULL. *)
Definition repeats_key (pending : list row) : Prop :=
  exists p1 r1 p2 r2 p3,
    pending = p1 ++ RowAsteroid r1 :: p2 ++ RowAsteroid r2 :: p3 /\
    neo_id r1 = neo_id r2 /\ neo_id r1 <> JNull.

End StoreMore.

Module IngestionMore.
Import Store Celery Ingestion StoreMore.

(** A loop body whose outcome does not depend on the rows pending so far: it
    raises, or appends the rows it would append to an empty session. *)
Definition appends {A : Type} (f : A -> list row -> result (list row)) : Prop :=
  forall x p, f x p = (rows <- f x [] ;; Ok (p ++ rows)).

(** Once the rows a run of [f] added are committed, a run of [f2] on the
    same element adds nothing. *)
Definition settles {A : Type}
    (f f2 : Database -> A -> list row -> result (list row)) : Prop :=
  forall db db' all x rows,
    f db x [] = Ok rows -> rows ⊆ all -> commit all db = Ok db' ->
    f2 db' x [] = Ok [].

Section WithRuntime.
Context `{PyRuntime}.

(** The body of the loop of [save_apod_range]. *)
Definition apod_range_step (now : Z) (db : Database) (item : json)
    (pending : list row) : result (list row) :=
  date <- Py.get item "date" JNull ;;
  existing <- select_exists (apod db) apod_date date db ;;
  if existing then Ok pending
  else
    apod <- apod_of now item ;;
    Ok (pending ++ [RowAPOD apod]).

(** The body of the inner loop of [save_asteroids]. *)
Definition asteroid_step (now : Z) (db : Database) (asteroid : json)
    (pending : list row) : result (list row) :=
  record <- asteroid_record now db asteroid ;;
  Ok (pending ++ (RowAsteroid <$> option_list record)).

(** The body of its outer loop. *)
Definition asteroid_group_step (now : Z) (db : Database) (asteroids_list : json)
    (pending : list row) : result (list row) :=
  asteroids <- Py.iter asteroids_list ;;
  add_asteroids now db asteroids pending.

(** The body of the loop of [save_cneos]. *)
Definition cneos_step (now : Z) (db : Database) (approach : json)
    (pending : list row) : result (list row) :=
  record <- cneos_record now db approach ;;
  Ok (pending ++ (RowCNEOS <$> option_list record)).

(** What the loop of [save_cneos] goes through: [data['data'][:100]]. *)
Definition approaches_of (data : json) : result (list json) :=
  rows <- Py.getitem data "data" ;;
  limited <- Py.slice_to 100 rows ;;
  Py.iter limited.

(** ** [ingest_asteroids_by_date] *)

(** [AsteroidNeoWS(neo_id=neo_id, name=asteroid.get('name'), ...)] for one
    close approach of an asteroid. *)
Definition approach_record (now : Z) (asteroid id approach : json)
  : result AsteroidNeoWS :=
  name <- Py.get asteroid "name" JNull ;;
  jpl_url <- Py.get asteroid "nasa_jpl_url" JNull ;;
  magnitude <- Py.get asteroid "absolute_magnitude_h" JNull ;;
  diameter <- Py.getitem asteroid "estimated_diameter" ;;
  meters <- Py.getitem diameter "meters" ;;
  diameter_min <- Py.get meters "estimated_diameter_min" JNull ;;
  diameter' <- Py.getitem asteroid "estimated_diameter" ;;
  meters' <- Py.getitem diameter' "meters" ;;
  diameter_max <- Py.get meters' "estimated_diameter_max" JNull ;;
  hazardous <- Py.get asteroid "is_potentially_hazardous_asteroid" (JBool false) ;;
  approach_date <- Py.isoformat_or_none approach "close_approach_date_full" ;;
  velocity <- Py.getitem approach "relative_velocity" ;;
  km_s <- Py.get velocity "kilometers_per_second" (JNum 0 0) ;;
  velocity_km_s <- Py.float km_s ;;
  distance <- Py.getitem approach "miss_distance" ;;
  km <- Py.get distance "kilometers" (JNum 0 0) ;;
  distance_km <- Py.float km ;;
  rel_velocity <- Py.get approach "relative_velocity" JNull ;;
  miss <- Py.get approach "miss_distance" JNull ;;
  body <- Py.get approach "orbiting_body" JNull ;;
  Ok {| neo_id := id; neo_name := name; nasa_jpl_url := jpl_url;
        absolute_magnitude := magnitude;
        estimated_diameter_min_m := diameter_min;
        estimated_diameter_max_m := diameter_max;
        is_potentially_hazardous := hazardous;
        close_approach_date := approach_date;
        close_approach_velocity_km_s := velocity_km_s;
        close_approach_distance_km := distance_km;
        relative_velocity := rel_velocity; miss_distance := miss;
        orbiting_body := body; neo_fetched_at := now |}.

(** The body of [for approach in close_approaches]. *)
Definition approach_step (now : Z) (asteroid id approach : json)
    (pending : list row) : result (list row) :=
  record <- approach_record now asteroid id approach ;;
  Ok (pending ++ [RowAsteroid record]).

(** The body of [for asteroid in asteroids_list] in [save_asteroids_range]:
    one record per close approach, all under the id of the asteroid. *)
Definition asteroid_range_step (now : Z) (db : Database) (asteroid : json)
    (pending : list row) : result (list row) :=
  id <- Py.get asteroid "id" JNull ;;
  existing <- select_exists (asteroids_neows db) neo_id id db ;;
  if existing then Ok pending
  else
    close_approaches <- Py.get asteroid "close_approach_data" (JList []) ;;
    if Py.truthy close_approaches then
      approaches <- Py.iter close_approaches ;;
      Py.for_each (approach_step now asteroid id) approaches pending
    else Ok pending.

(** [save_asteroids_range] inside [ingest_asteroids_by_date] *)
Definition save_asteroids_range (now : Z) (data : json) (db : Database)
  : result Database :=
  neos <- Py.getitem data "near_earth_objects" ;;
  groups <- Py.values neos ;;
  pending <- Py.for_each (fun asteroids_list (pending : list row) =>
      asteroids <- Py.iter asteroids_list ;;
      Py.for_each (asteroid_range_step now db) asteroids pending) groups [] ;;
  commit pending db.

(** [ingest_asteroids_by_date(start_date, end_date)]; the dates only go to
    the service call. *)
Definition ingest_asteroids_by_date (retries : nat) (now : Z)
    (fetched : result json) (db : Database) : task_outcome * Database :=
  shared_task retries
    (with_data fetched db (fun data =>
       match has_key "near_earth_objects" data with
       | Ok true => save_then (run_async false (save_asteroids_range now data db))
                      (Ok status_success) db
       | Ok false => (Ok status_error, db)
       | Raise e => (Raise e, db)
       end)).

End WithRuntime.

End IngestionMore.

(** * The DONKI and image tables and their tasks *)

Module Tables.
Import Store.

Record DONKI : Type := {
  event_id : json;            (* unique *)
  event_type : json;
  link_id : json;
  peak_time : option Z;
  start_time : option Z;
  end_time : option Z;
  donki_description : json;
  linked_events : json;
  donki_fetched_at : Z;
}.

Record NASAImageLibrary : Type := {
  nasa_id : json;             (* unique *)
  image_title : json;
  image_description : json;
  keywords : json;
  image_media_type : json;
  location : json;
  photographer : json;
  date_created : option Z;
  center : json;
  album : json;
  links : json;
  preview_url : json;
  data_last_updated : Z;
  image_fetched_at : Z;
}.

(** The database of [Store], with the tables [donki] and
    [nasa_image_library] beside those it has. *)
Record Tables : Type := {
  core : Database;
  donki : list DONKI;
  nasa_image_library : list NASAImageLibrary;
}.

(** An object added to a session of the tasks below. *)
Inductive object : Type :=
| RowDONKI (r : DONKI)
| RowImage (r : NASAImageLibrary).

(** One INSERT. *)
Definition add (r : object) (t : Tables) : result Tables :=
  match r with
  | RowDONKI d =>
      if unique_ok (event_id d) (event_id <$> donki t)
      then Ok {| core := core t; donki := donki t ++ [d];
                 nasa_image_library := nasa_image_library t |}
      else Raise IntegrityError
  | RowImage i =>
      if unique_ok (nasa_id i) (nasa_id <$> nasa_image_library t)
      then Ok {| core := core t; donki := donki t;
                 nasa_image_library := nasa_image_library t ++ [i] |}
      else Raise IntegrityError
  end.

(** [await session.commit()], as [Store.commit]. *)
Definition commit_objects (pending : list object) (t : Tables) : result Tables :=
  match pending with
  | [] => Ok t
  | _ => if available (core t) then Py.for_each add pending t
         else Raise OperationalError
  end.

End Tables.

Module IngestionTables.
Import Store Celery Ingestion Tables.

(** [len(o)] *)
Definition len (o : json) : result nat :=
  match o with
  | JList l => Ok (length l)
  | JDict kv => Ok (length kv)
  | JStr s => Ok (String.length s)
  | _ => Raise TypeError
  end.

(** [save_then], [with_data] and [shared_task] of [Ingestion], for a task
    on [Tables]. *)
Definition save_then_on (save : result Tables) (k : result json) (t : Tables)
  : result json * Tables :=
  match save with
  | Ok t' => (k, t')
  | Raise e => (Raise e, t)
  end.

Definition with_data_on (fetched : result json) (t : Tables)
    (rest : json -> result json * Tables) : result json * Tables :=
  match fetched with
  | Ok data => rest data
  | Raise e => (Raise e, t)
  end.

Definition shared_task_on (retries : nat) (body : result json * Tables)
  : task_outcome * Tables :=
  (match body.1 with
   | Ok v => Returned v
   | Raise e => self_retry 3 retries e 60
   end, body.2).

(** [{"status": "success", "count": len(data)}] *)
Definition success_count (data : json) : result json :=
  n <- len data ;;
  Ok (JDict [("status", JStr "success"); ("count", JNum (Z.of_nat n) 0)]).

Section WithRuntime.
Context `{PyRuntime}.

(** ** DONKI *)

(** One pass of the loop of [save_donki] in [ingest_donki_flares]: [None]
    when the event is passed over, the record to add otherwise. *)
Definition flare_record (now : Z) (t : Tables) (event : json)
  : result (option DONKI) :=
  id <- Py.get event "eventID" JNull ;;
  existing <- select_exists (donki t) event_id id (core t) ;;
  if existing then Ok None
  else
    link <- Py.get event "link" JNull ;;
    peak <- Py.isoformat_or_none event "peakTime" ;;
    begin <- Py.isoformat_or_none event "beginTime" ;;
    finish <- Py.isoformat_or_none event "endTime" ;;
    class_type <- Py.get event "classType" (JStr "") ;;
    linked <- Py.get event "linkedEvents" (JList []) ;;
    Ok (Some {| event_id := id; event_type := JStr "FLR"; link_id := link;
                peak_time := peak; start_time := begin; end_time := finish;
                donki_description := class_type; linked_events := linked;
                donki_fetched_at := now |}).

(** One pass of the loop of [save_cme] in [ingest_donki_cme]. *)
Definition cme_record (now : Z) (t : Tables) (event : json)
  : result (option DONKI) :=
  id <- Py.get event "eventID" JNull ;;
  existing <- select_exists (donki t) event_id id (core t) ;;
  if existing then Ok None
  else
    link <- Py.get event "link" JNull ;;
    begin <- Py.isoformat_or_none event "startTime" ;;
    linked <- Py.get event "linkedEvents" (JList []) ;;
    Ok (Some {| event_id := id; event_type := JStr "CME"; link_id := link;
                peak_time := None; start_time := begin; end_time := None;
                donki_description := JStr "Coronal Mass Ejection";
                linked_events := linked; donki_fetched_at := now |}).

(** The loop [for event in data] of a DONKI task. *)
Definition event_loop (record : Tables -> json -> result (option DONKI))
    (t : Tables) (events : list json) (pending : list object)
  : result (list object) :=
  Py.for_each (fun event (pending : list object) =>
      r <- record t event ;;
      Ok (pending ++ (RowDONKI <$> option_list r))) events pending.

(** [save_donki] and [save_cme]: the loop with the record of the task, and
    the commit. *)
Definition save_events (record : Tables -> json -> result (option DONKI))
    (data : json) (t : Tables) : result Tables :=
  events <- Py.iter data ;;
  pending <- event_loop record t events [] ;;
  commit_objects pending t.

(** The two DONKI tasks differ in the record they build. *)
Definition ingest_events (record : Tables -> json -> result (option DONKI))
    (retries : nat) (fetched : result json) (t : Tables) : task_outcome * Tables :=
  shared_task_on retries
    (with_data_on fetched t (fun data =>
       if Py.truthy data then
         save_then_on (run_async false (save_events record data t))
           (success_count data) t
       else (Ok status_error, t))).

Definition ingest_donki_flares (retries : nat) (now : Z) (fetched : result json)
    (t : Tables) : task_outcome * Tables :=
  ingest_events (flare_record now) retries fetched t.

Definition ingest_donki_cme (retries : nat) (now : Z) (fetched : result json)
    (t : Tables) : task_outcome * Tables :=
  ingest_events (cme_record now) retries fetched t.

(** What a pass of a DONKI loop that did not raise has done: it read the
    id of the event and found the database; an event it passed over is
    stored, and a record it built carries the id. *)
Definition reads_id (record : Tables -> json -> result (option DONKI)) : Prop :=
  forall t event o, record t event = Ok o ->
    exists id, Py.get event "eventID" JNull = Ok id /\
      available (core t) = true /\
      match o with
      | Some r => event_id r = id
      | None => existsb (fun r => Py.json_eqb (event_id r) id) (donki t) = true
      end.

(** An event whose id is stored is passed over. *)
Definition skips_stored (record : Tables -> json -> result (option DONKI)) : Prop :=
  forall t event id, Py.get event "eventID" JNull = Ok id ->
    available (core t) = true ->
    existsb (fun r => Py.json_eqb (event_id r) id) (donki t) = true ->
    record t event = Ok None.

(** ** NASA image library *)

(** [item['data'][0]] *)
Definition data0 (item : json) : result json :=
  data <- Py.getitem item "data" ;;
  Py.first data.

(** [[{'href': l.get('href'), 'rel': l.get('rel')} for l in links]] *)
Definition links_of (links : list json) : result (list json) :=
  Py.for_each (fun l (out : list json) =>
      href <- Py.get l "href" JNull ;;
      rel <- Py.get l "rel" JNull ;;
      Ok (out ++ [JDict [("href", href); ("rel", rel)]])) links [].

(** [next((l['href'] for l in links if l.get('rel') == 'preview'), '')] *)
Fixpoint next_preview (links : list json) : result json :=
  match links with
  | [] => Ok (JStr "")
  | l :: rest =>
      rel <- Py.get l "rel" JNull ;;
      if Py.json_eqb rel (JStr "preview") then Py.getitem l "href"
      else next_preview rest
  end.

(** [datetime.fromisoformat(o)], which takes a string. *)
Definition fromisoformat_of (o : json) : result Z :=
  match o with
  | JStr s =>
      match fromisoformat s with
      | Some t => Ok t
      | None => Raise ValueError
      end
  | _ => Raise TypeError
  end.

(** One pass of the loop of [save_images]. *)
Definition image_record (now : Z) (t : Tables) (item : json)
  : result (option NASAImageLibrary) :=
  d <- data0 item ;;
  id <- Py.get d "nasa_id" JNull ;;
  existing <- select_exists (nasa_image_library t) nasa_id id (core t) ;;
  if existing then Ok None
  else
    d <- data0 item ;;
    title <- Py.get d "title" JNull ;;
    d <- data0 item ;;
    description <- Py.get d "description" (JStr "") ;;
    d <- data0 item ;;
    keys <- Py.get d "keywords" (JList []) ;;
    d <- data0 item ;;
    place <- Py.get d "location" JNull ;;
    d <- data0 item ;;
    by_whom <- Py.get d "photographer" JNull ;;
    d <- data0 item ;;
    created <- Py.isoformat_or_none d "date_created" ;;
    d <- data0 item ;;
    at_center <- Py.get d "center" JNull ;;
    href <- Py.get item "href" (JStr "") ;;
    ls <- Py.get item "links" (JList []) ;;
    ls <- Py.iter ls ;;
    all_links <- links_of ls ;;
    ls' <- Py.get item "links" (JList []) ;;
    ls' <- Py.iter ls' ;;
    preview <- next_preview ls' ;;
    d <- data0 item ;;
    creator <- Py.get d "secondary_creator" (JStr "") ;;
    updated <- fromisoformat_of creator ;;
    Ok (Some {| nasa_id := id; image_title := title;
                image_description := description; keywords := keys;
                image_media_type := JStr "image"; location := place;
                photographer := by_whom; date_created := created;
                center := at_center; album := href; links := JList all_links;
                preview_url := preview; data_last_updated := updated;
                image_fetched_at := now |}).

(** [save_images] inside [ingest_nasa_images] *)
Definition save_images (now : Z) (data : json) (t : Tables) : result Tables :=
  collection <- Py.getitem data "collection" ;;
  items <- Py.getitem collection "items" ;;
  items <- Py.iter items ;;
  pending <- Py.for_each (fun item (pending : list object) =>
      r <- image_record now t item ;;
      Ok (pending ++ (RowImage <$> option_list r))) items [] ;;
  commit_objects pending t.

(** [data and 'collection' in data and 'items' in data['collection']] *)
Definition has_items (data : json) : result bool :=
  if Py.truthy data then
    found <- Py.contains "collection" data ;;
    if found then
      collection <- Py.getitem data "collection" ;;
      Py.contains "items" collection
    else Ok false
  else Ok false.

(** [ingest_nasa_images(query)]; the query only goes to the service call. *)
Definition ingest_nasa_images (retries : nat) (now : Z) (fetched : result json)
    (t : Tables) : task_outcome * Tables :=
  shared_task_on retries
    (with_data_on fetched t (fun data =>
       match has_items data with
       | Ok true => save_then_on (run_async false (save_images now data t))
                      (Ok status_success) t
       | Ok false => (Ok status_error, t)
       | Raise e => (Raise e, t)
       end)).

(** The items of a payload that [save_images] goes through. *)
Definition items_in (data : json) : result (list json) :=
  collection <- Py.getitem data "collection" ;;
  items <- Py.getitem collection "items" ;;
  Py.iter items.

(** No [secondary_creator] of the payload is an ISO date. *)
Definition no_dated_creator (items : list json) : Prop :=
  forall item d s, item ∈ items -> data0 item = Ok d ->
    Py.get d "secondary_creator" (JStr "") = Ok (JStr s) ->
    fromisoformat s = None.

End WithRuntime.

End IngestionTables.

(** * Further sample payloads *)

Module MoreSamples.
Import Tables.

(** A feed of one day with two asteroids. *)
Definition neo_feed_of_two : json :=
  JDict [("element_count", JNum 2 0);
         ("near_earth_objects",
            JDict [("2024-01-01",
              JList [Samples.asteroid "3542519" "(2010 PK9)";
                     Samples.asteroid "2465633" "465633 (2009 JR5)"])])].

Definition close_approach (body : string) : json :=
  JDict [("relative_velocity", JDict [("kilometers_per_second", JNum 137 (-1))]);
         ("miss_distance", JDict [("kilometers", JNum 4500000 0)]);
         ("orbiting_body", JStr body)].

(** An asteroid with two close approaches in the range asked for. *)
Definition asteroid_seen_twice : json :=
  JDict [("id", JStr "3542519");
         ("name", JStr "(2010 PK9)");
         ("nasa_jpl_url", JStr "https://ssd.jpl.nasa.gov/");
         ("absolute_magnitude_h", JNum 221 (-1));
         ("estimated_diameter",
            JDict [("meters",
              JDict [("estimated_diameter_min", JNum 101 0);
                     ("estimated_diameter_max", JNum 226 0)])]);
         ("is_potentially_hazardous_asteroid", JBool false);
         ("close_approach_data",
            JList [close_approach "Earth"; close_approach "Venus"])].

Definition neo_days : list (string * json) :=
  [("2024-01-01", JList [asteroid_seen_twice])].

Definition neo_feed_fields : list (string * json) :=
  [("element_count", JNum 1 0); ("near_earth_objects", JDict neo_days)].

(** A close-approach answer whose rows are dictionaries. *)
Definition cneos_rows : json :=
  JDict [("count", JNum 2 0);
         ("data", JList [JDict [("des", JStr "2024 AB"); ("name", JStr "AB")];
                         JDict [("des", JStr "2024 CD")]])].

(** Two solar flares of a DONKI answer, without their times. *)
Definition flares : json :=
  JList [JDict [("eventID", JStr "2024-01-01T10:00:00-FLR-001");
                ("classType", JStr "M1.0")];
         JDict [("eventID", JStr "2024-01-02T08:30:00-FLR-001");
                ("classType", JStr "C3.2");
                ("linkedEvents", JNull)]].

(** An item of a search in the image library.  It has no
    [secondary_creator]. *)
Definition image_data : json :=
  JDict [("nasa_id", JStr "PIA12235");
         ("title", JStr "Nearside of the Moon");
         ("center", JStr "JPL");
         ("keywords", JList [JStr "Moon"])].

Definition image_item : json :=
  JDict [("href", JStr "https://images-assets.nasa.gov/image/PIA12235/collection.json");
         ("data", JList [image_data]);
         ("links", JList [JDict [("href", JStr "https://images-assets.nasa.gov/image/PIA12235/PIA12235~thumb.jpg");
                                 ("rel", JStr "preview")]])].

Definition image_search : json :=
  JDict [("collection", JDict [("version", JStr "1.0");
                               ("items", JList [image_item])])].

(** The picture of the next day. *)
Definition apod_item_2 : json :=
  JDict [("date", JStr "2024-01-02");
         ("explanation", JStr "The Moon over a mountain ridge.");
         ("media_type", JStr "image");
         ("service_version", JStr "v1");
         ("title", JStr "Moonrise");
         ("url", JStr "https://apod.nasa.gov/apod/image/2401/moonrise.jpg")].

Definition empty_tables : Tables :=
  {| core := Store.empty_db; donki := []; nasa_image_library := [] |}.

End MoreSamples.

(* ################################################################# *)
(** * Properties *)

Module StoreFacts.
Import Store.

(** *** Equality of JSON values *)

Lemma json_eqb_eq a b : Py.json_eqb a b = true <-> a = b.
Proof.
  revert b. induction a as [|x|m e|s|l IH|kv IH] using Py.json_nested_ind;
    intros [|y|m' e'|t|l'|kv']; simpl; try (split; [discriminate | congruence]).
  - done.
  - rewrite Bool.eqb_true_iff. split; congruence.
  - rewrite andb_true_iff, !Z.eqb_eq. split; [intros [-> ->]; done | by intros [= -> ->]].
  - rewrite String.eqb_eq. split; congruence.
  - revert l'. induction IH as [|x l Hx _ IHl]; intros [|y l'];
      try (split; [discriminate | congruence]); [done|].
    rewrite andb_true_iff, Hx, (IHl l').
    split; [intros [-> [= ->]]; done | by intros [= -> ->]].
  - revert kv'. induction IH as [|[k x] kv Hx _ IHkv]; intros [|[k' y] kv'];
      try (split; [discriminate | congruence]); [done|].
    simpl in Hx. rewrite !andb_true_iff, String.eqb_eq, Hx, (IHkv kv').
    split; [intros [[-> ->] [= ->]]; done | by intros [= -> -> ->]].
Qed.

Lemma existsb_json_eqb v (column : list json) :
  existsb (Py.json_eqb v) column = true <-> v ∈ column.
Proof.
  rewrite existsb_exists. setoid_rewrite json_eqb_eq.
  setoid_rewrite <- list_elem_of_In. split; [by intros (x & Hx & ->) | eauto].
Qed.

(** *** The uniqueness constraints *)

Lemma no_duplicates_snoc v column :
  no_duplicates column -> unique_ok v column = true -> no_duplicates (column ++ [v]).
Proof.
  unfold no_duplicates. intros Hnd Hok. rewrite filter_app.
  destruct (decide (v = JNull)) as [->|Hv].
  - rewrite filter_cons_False by (by intros E; apply E).
    by rewrite filter_nil, app_nil_r.
  - rewrite filter_cons_True by done. rewrite filter_nil.
    apply NoDup_app. split; [done|]. split; [|apply NoDup_singleton].
    intros x Hx ->%list_elem_of_singleton.
    apply list_elem_of_filter in Hx as [_ Hx].
    apply existsb_json_eqb in Hx. destruct v; try done; unfold unique_ok in Hok;
      by rewrite Hx in Hok.
Qed.

Lemma insert_keys_unique r db db' :
  keys_unique db -> insert r db = Ok db' -> keys_unique db'.
Proof.
  intros (Hdate & Hurl & Hneo & Hdes & Hsat) Hins.
  destruct r as [a|a|c|t]; simpl in Hins.
  - destruct (unique_ok (apod_url a) _) eqn:E1; [|done].
    destruct (unique_ok (apod_date a) _) eqn:E2; [|done].
    injection Hins as <-. unfold keys_unique. simpl. rewrite !fmap_app. simpl.
    repeat split; try done; by apply no_duplicates_snoc.
  - destruct (unique_ok (neo_id a) _) eqn:E1; [|done].
    injection Hins as <-. unfold keys_unique. simpl. rewrite !fmap_app. simpl.
    repeat split; try done; by apply no_duplicates_snoc.
  - destruct (unique_ok (designation c) _) eqn:E1; [|done].
    injection Hins as <-. unfold keys_unique. simpl. rewrite !fmap_app. simpl.
    repeat split; try done; by apply no_duplicates_snoc.
  - destruct (unique_ok (satellite_number t) _) eqn:E1; [|done].
    injection Hins as <-. unfold keys_unique. simpl. rewrite !fmap_app. simpl.
    repeat split; try done; by apply no_duplicates_snoc.
Qed.

(** A commit that goes through keeps every natural key unique. *)
Lemma commit_keys_unique pending db db' :
  keys_unique db -> commit pending db = Ok db' -> keys_unique db'.
Proof.
  unfold commit. intros Hu Hc.
  assert (Hall : forall pending db, keys_unique db ->
            Py.for_each insert pending db = Ok db' -> keys_unique db').
  { clear. induction pending as [|r pending IH]; intros db Hu; simpl.
    - by intros [= <-].
    - destruct (insert r db) as [db1|e] eqn:Hins; simpl; [|done].
      apply IH. by apply (insert_keys_unique r db). }
  destruct pending as [|r pending]; [by injection Hc as <-|].
  destruct (available db); [|done]. by apply (Hall (r :: pending) db).
Qed.

Lemma empty_db_keys_unique : keys_unique empty_db.
Proof. repeat split; apply NoDup_nil_2. Qed.

End StoreFacts.

Module FetchFacts.
Import Fetch.

Section WithRuntime.
Context `{PyRuntime}.

(** *** What [bind_params] leaves alone *)

Lemma bind_params_calls svc params w :
  calls (bind_params svc params w).2 = calls w.
Proof. reflexivity. Qed.

Lemma bind_params_now svc params w :
  now (bind_params svc params w).2 = now w.
Proof. reflexivity. Qed.

Lemma bind_params_redis svc params w :
  redis_db (bind_params svc params w).2 = redis_db w.
Proof. reflexivity. Qed.

Lemma bind_params_redis_up svc params w :
  redis_up (bind_params svc params w).2 = redis_up w.
Proof. reflexivity. Qed.

Lemma fresh_loc_unused (h : gmap loc (gmap string json)) :
  h !! fresh (dom h) = None.
Proof. apply not_elem_of_dom, is_fresh. Qed.

(** A dictionary that is not empty is mutated where it is. *)
Lemma bind_params_nonempty svc l d w :
  heap w !! l = Some d -> d <> ∅ ->
  bind_params svc (Some l) w =
    (l, set_heap (<[l := <["api_key" := JStr (api_key svc)]> d]> (heap w)) w).
Proof.
  intros Hl Hd. unfold bind_params, params_dict. rewrite Hl. simpl.
  rewrite bool_decide_eq_false_2; [reflexivity|].
  intros E. apply Hd. by apply map_size_empty_iff.
Qed.

(** An empty one is left alone: the key goes into a fresh dictionary. *)
Lemma bind_params_empty svc l w :
  heap w !! l = Some ∅ ->
  bind_params svc (Some l) w =
    (fresh (dom (heap w)),
     set_heap (<[fresh (dom (heap w)) := {["api_key" := JStr (api_key svc)]}]> (heap w)) w).
Proof.
  intros Hl. unfold bind_params, params_dict. rewrite Hl. simpl.
  rewrite bool_decide_eq_true_2; [reflexivity|]. apply map_size_empty.
Qed.

(** *** The retry loop *)

(** One step of reasoning about the loop: split on the answer to the next
    request and on the tests the body makes on it. *)
Ltac loop_cases svc net url p w :=
  simpl;
  destruct (net url p (calls w)) as [status body| |];
  [ destruct (status =? 200)%Z eqn:?;
    [ destruct body as [data|];
      [ destruct (redis svc) eqn:?; [destruct (redis_up w) eqn:?|] |]
    | destruct (status =? 429)%Z eqn:? ]
  | destruct (_ <? _)%Z
  | ].

Lemma fetch_loop_heap svc net url p key attempt todo w :
  heap (fetch_loop svc net url p key attempt todo w).2 = heap w.
Proof.
  revert attempt w. induction todo as [|todo IH]; intros attempt w; [reflexivity|].
  loop_cases svc net url p w; rewrite ?IH; reflexivity.
Qed.

Lemma fetch_loop_calls_ge svc net url p key attempt todo w :
  calls w <= calls (fetch_loop svc net url p key attempt todo w).2.
Proof.
  revert attempt w. induction todo as [|todo IH]; intros attempt w; [simpl; lia|].
  loop_cases svc net url p w; try (simpl; lia); (etrans; [|apply IH]); simpl; lia.
Qed.

Lemma fetch_loop_calls_le svc net url p key attempt todo w :
  calls (fetch_loop svc net url p key attempt todo w).2 <= calls w + todo.
Proof.
  revert attempt w. induction todo as [|todo IH]; intros attempt w; [simpl; lia|].
  loop_cases svc net url p w; try (simpl; lia); (etrans; [apply IH|]); simpl; lia.
Qed.

(** While every answer is a 429 or a timeout the loop goes on to the end of
    its budget and gives [None]. *)
Lemma fetch_loop_exhausted svc net url p key attempt todo w :
  (forall i, i < todo -> retryable (net url p (calls w + i))) ->
  (fetch_loop svc net url p key attempt todo w).1 = JNull /\
  calls (fetch_loop svc net url p key attempt todo w).2 = calls w + todo.
Proof.
  revert attempt w. induction todo as [|todo IH]; intros attempt w Hre.
  { simpl. split; [reflexivity|lia]. }
  assert (Hnext : forall w', calls w' = S (calls w) ->
            forall i, i < todo -> retryable (net url p (calls w' + i))).
  { intros w' Hw' i Hi. rewrite Hw'.
    replace (S (calls w) + i) with (calls w + S i) by lia. apply Hre. lia. }
  pose proof (Hre 0 ltac:(lia)) as H0. rewrite Nat.add_0_r in H0.
  simpl. destruct H0 as [-> | [b ->]].
  - destruct (_ <? _)%Z.
    + destruct (IH (S attempt) (sleep (retry_delay svc) (count_call w))) as [-> ->];
        [by apply Hnext|]. simpl. split; [reflexivity|lia].
    + destruct (IH (S attempt) (count_call w)) as [-> ->];
        [by apply Hnext|]. simpl. split; [reflexivity|lia].
  - simpl. destruct (IH (S attempt) (sleep (retry_delay svc) (count_call w))) as [-> ->];
      [by apply Hnext|]. simpl. split; [reflexivity|lia].
Qed.

(** The first answer that is neither a 429 nor a timeout ends the loop: with
    [None] when it is a failure, with the payload when it is a decoded 200
    (and the cache, if there is one, takes it). *)
Lemma fetch_loop_decided svc net url p key attempt todo w i :
  i < todo ->
  (forall j, j < i -> retryable (net url p (calls w + j))) ->
  let o := net url p (calls w + i) in
  let r := fetch_loop svc net url p key attempt todo w in
  (failure o -> r.1 = JNull /\ calls r.2 = calls w + S i) /\
  (forall d, o = Response 200 (Some d) ->
     (redis svc = true -> redis_up w = true) ->
     r.1 = d /\ calls r.2 = calls w + S i).
Proof.
  revert attempt todo w. induction i as [|i IH]; intros attempt todo w Hi Hre.
  - destruct todo as [|todo]; [lia|]. rewrite Nat.add_0_r. simpl.
    split.
    + intros [-> | [-> | (s & b & -> & Hs1 & Hs2)]]; simpl.
      * split; [reflexivity|lia].
      * split; [reflexivity|lia].
      * apply Z.eqb_neq in Hs1, Hs2. rewrite Hs1, Hs2. simpl. split; [reflexivity|lia].
    + intros d -> Hup. simpl. destruct (redis svc).
      * rewrite (Hup eq_refl). simpl. split; [reflexivity|lia].
      * simpl. split; [reflexivity|lia].
  - destruct todo as [|todo]; [lia|].
    assert (Hnext : forall w', calls w' = S (calls w) ->
              forall j, j < i -> retryable (net url p (calls w' + j))).
    { intros w' Hw' j Hj. rewrite Hw'.
      replace (S (calls w) + j) with (calls w + S j) by lia. apply Hre. lia. }
    pose proof (Hre 0 ltac:(lia)) as H0. rewrite Nat.add_0_r in H0.
    replace (calls w + S i) with (S (calls w) + i) by lia.
    replace (calls w + S (S i)) with (S (calls w) + S i) by lia.
    simpl. destruct H0 as [-> | [b ->]]; simpl.
    + destruct (_ <? _)%Z.
      * apply (IH (S attempt) todo (sleep (retry_delay svc) (count_call w)));
          [lia | by apply Hnext].
      * apply (IH (S attempt) todo (count_call w)); [lia | by apply Hnext].
    + apply (IH (S attempt) todo (sleep (retry_delay svc) (count_call w)));
        [lia | by apply Hnext].
Qed.

(** When the last request of the loop was answered 200 with a body, that body
    is the result and, with a Redis client, it sits in the cache under the
    key, expiring [cache_ttl] after the write. *)
Lemma fetch_loop_last_ok svc net url p key attempt todo w d :
  (redis svc = true -> redis_up w = true) ->
  let r := fetch_loop svc net url p key attempt todo w in
  calls w < calls r.2 ->
  net url p (Nat.pred (calls r.2)) = Response 200 (Some d) ->
  r.1 = d /\
  (redis svc = true ->
   redis_db r.2 !! key = Some (json_dumps d, (now r.2 + cache_ttl svc)%Z)).
Proof.
  intros Hup.
  revert attempt w Hup. induction todo as [|todo IH]; intros attempt w Hup; simpl;
    [intros; lia|].
  assert (Hrec : forall a w', calls w' = S (calls w) -> redis_up w' = redis_up w ->
            (forall d', net url p (calls w) <> Response 200 (Some d')) ->
            let r := fetch_loop svc net url p key a todo w' in
            calls w < calls r.2 ->
            net url p (Nat.pred (calls r.2)) = Response 200 (Some d) ->
            r.1 = d /\
            (redis svc = true ->
             redis_db r.2 !! key = Some (json_dumps d, (now r.2 + cache_ttl svc)%Z))).
  { intros a w' Hw' Hup' Hne r Hlt Hlast. subst r.
    pose proof (fetch_loop_calls_ge svc net url p key a todo w') as Hge.
    rewrite Hw' in Hge.
    destruct (decide (calls (fetch_loop svc net url p key a todo w').2
                      = S (calls w))) as [E|E].
    - rewrite E in Hlast. simpl in Hlast. by apply Hne in Hlast.
    - apply IH; [by rewrite Hup' | lia | done]. }
  destruct (net url p (calls w)) as [status body| |] eqn:Hout.
  - destruct (status =? 200)%Z eqn:H200.
    + apply Z.eqb_eq in H200 as ->. destruct body as [data|]; simpl.
      * destruct (redis svc) eqn:Hr.
        -- simpl. rewrite (Hup eq_refl). simpl. intros _ Hlast.
           rewrite Hout in Hlast. injection Hlast as ->.
           split; [reflexivity|]. intros _. apply lookup_insert_eq.
        -- simpl. intros _ Hlast. rewrite Hout in Hlast. injection Hlast as ->.
           split; [reflexivity | discriminate].
      * intros _ Hlast. rewrite Hout in Hlast. discriminate.
    + destruct (status =? 429)%Z.
      * apply Hrec; [reflexivity..|]. intros d' E. injection E as -> _. done.
      * simpl. intros _ Hlast. rewrite Hout in Hlast. injection Hlast as -> _. done.
  - destruct (_ <? _)%Z; (apply Hrec; [reflexivity.. | discriminate]).
  - simpl. intros _ Hlast. rewrite Hout in Hlast. discriminate.
Qed.

(** *** [fetch] in terms of its cache lookup *)

Lemma fetch_unfold svc net url params w :
  fetch svc net url params w =
  match cache_lookup svc url params w with
  | Raise e => (Raise e, (bind_params svc params w).2)
  | Ok (Some cached) =>
      match json_loads cached with
      | Some v => (Ok v, (bind_params svc params w).2)
      | None => (Raise JSONDecodeError, (bind_params svc params w).2)
      end
  | Ok None =>
      let r := fetch_loop svc net url (request_params svc params w)
                 (fetch_cache_key svc url params w) 0 (max_retries svc)
                 (bind_params svc params w).2 in
      (Ok r.1, r.2)
  end.
Proof.
  unfold fetch, cache_lookup, fetch_cache_key, request_params.
  destruct (bind_params svc params w) as [l w0]. simpl.
  destruct (cache_check _ _ _) as [[c|]|e]; [reflexivity| |reflexivity].
  by destruct (fetch_loop _ _ _ _ _ _ _ _).
Qed.

(** A lookup that did not raise found Redis, if there is a client. *)
Lemma cache_lookup_ok_up svc url params w o :
  cache_lookup svc url params w = Ok o -> redis svc = true -> redis_up w = true.
Proof.
  unfold cache_lookup, cache_check. intros Hlook Hr. rewrite Hr in Hlook.
  rewrite bind_params_redis_up in Hlook. by destruct (redis_up w).
Qed.

(** A live entry under the key of the call is what the lookup finds. *)
Lemma cache_lookup_hit svc url params w v expiry :
  redis svc = true -> redis_up w = true ->
  redis_db w !! fetch_cache_key svc url params w = Some (v, expiry) ->
  (now w < expiry)%Z -> v <> "" ->
  cache_lookup svc url params w = Ok (Some v).
Proof.
  intros Hr Hup Hentry Hnow Hv. unfold cache_lookup, cache_check, redis_get.
  rewrite Hr, bind_params_redis_up, Hup, bind_params_redis, bind_params_now, Hentry.
  rewrite (proj2 (Z.ltb_lt _ _) Hnow). by rewrite bool_decide_eq_false_2.
Qed.

#[local] Arguments fetch_loop : simpl never.

(** C2: with [max_retries = 3] one call to [fetch] makes at most 3 requests;
    against an endpoint that always answers 429, or always times out, it makes
    3 and returns [None]; against one that always answers another non-2xx
    status it makes exactly 1 and returns [None]. *)
Theorem fetch_retry_bound svc net url params w :
  max_retries svc = 3 ->
  let out := fetch svc net url params w in
  calls out.2 <= calls w + 3 /\
  (cache_lookup svc url params w = Ok None ->
   (persistently net rate_limited ->
      out.1 = Ok JNull /\ calls out.2 = calls w + 3) /\
   (persistently net (eq TimeoutError) ->
      out.1 = Ok JNull /\ calls out.2 = calls w + 3) /\
   (persistently net hard_failure ->
      out.1 = Ok JNull /\ calls out.2 = calls w + 1)).
Proof.
  intros Hmax out. subst out. rewrite fetch_unfold, Hmax.
  set (w0 := (bind_params svc params w).2).
  set (p := request_params svc params w).
  set (key := fetch_cache_key svc url params w).
  split.
  - destruct (cache_lookup svc url params w) as [[c|]|e].
    + destruct (json_loads c); simpl; lia.
    + simpl. etrans; [apply fetch_loop_calls_le|]. simpl. lia.
    + simpl. lia.
  - intros ->. cbv zeta. cbn [fst snd].
    split; [|split].
    + intros Hlimited.
      destruct (fetch_loop_exhausted svc net url p key 0 3 w0) as [-> ->]; [|done].
      intros i _. right. apply Hlimited.
    + intros Htimeout.
      destruct (fetch_loop_exhausted svc net url p key 0 3 w0) as [-> ->]; [|done].
      intros i _. left. symmetry. apply Htimeout.
    + intros Hhard.
      destruct (fetch_loop_decided svc net url p key 0 3 w0 0) as [Hf _];
        [lia | intros; lia |].
      destruct Hf as [-> ->]; [|done].
      destruct (Hhard url p (calls w0 + 0)) as (s & b & -> & Hs & Hs').
      right; right. exists s, b. repeat split; [lia | done].
Qed.

(** C8: when the cache lookup does not raise, [fetch] returns a value
    whatever the network does, and that value is [None] in every failure case:
    the retry budget runs out on 429s and timeouts, or the first answer that
    is not retried is a status other than 200, an exception of the request or
    a body that does not decode. *)
Theorem fetch_failures_return_None svc net url params w :
  ~ lookup_raises svc url params w ->
  exists r, (fetch svc net url params w).1 = Ok r /\
    (cache_lookup svc url params w = Ok None ->
     let p := request_params svc params w in
     ((forall i, i < max_retries svc -> retryable (net url p (calls w + i))) ->
        r = JNull) /\
     (forall i, i < max_retries svc ->
        (forall j, j < i -> retryable (net url p (calls w + j))) ->
        failure (net url p (calls w + i)) -> r = JNull)).
Proof.
  intros Hload. rewrite fetch_unfold.
  destruct (cache_lookup svc url params w) as [[c|]|e] eqn:Hlook.
  - destruct (json_loads c) as [v|] eqn:Hc.
    + exists v. split; [reflexivity|]. discriminate.
    + destruct Hload. right. by exists c.
  - eexists. split; [reflexivity|]. intros _ p. cbn [fst snd]. split.
    + intros Hre. by apply fetch_loop_exhausted.
    + intros i Hi Hre Hfail.
      destruct (fetch_loop_decided svc net url p
                  (fetch_cache_key svc url params w) 0 (max_retries svc)
                  (bind_params svc params w).2 i Hi Hre) as [Hf _].
      by apply Hf.
  - destruct Hload. left. by exists e.
Qed.

(** C5: with a Redis client and the 24-hour TTL, a fetch whose request was
    answered 200 with payload [d] returns [d] and has written it to the cache,
    expiring 86400 seconds after the write, by the time it returns; a second
    fetch for the same class, url and parameters before that expiry makes no
    request and returns [d] again. *)
Theorem fetch_cache_hit_within_ttl svc net net2 url params params2 w w2 d :
  redis svc = true ->
  cache_ttl svc = 86400%Z ->
  json_loads (json_dumps d) = Some d ->
  json_dumps d <> "" ->
  let first := fetch svc net url params w in
  calls w < calls first.2 ->
  net url (request_params svc params w) (Nat.pred (calls first.2))
    = Response 200 (Some d) ->
  request_params svc params2 w2 = request_params svc params w ->
  redis_up w2 = true ->
  redis_db w2 !! fetch_cache_key svc url params w
    = redis_db first.2 !! fetch_cache_key svc url params w ->
  (now w2 < now first.2 + 86400)%Z ->
  let second := fetch svc net2 url params2 w2 in
  first.1 = Ok d /\
  redis_db first.2 !! fetch_cache_key svc url params w
    = Some (json_dumps d, (now first.2 + 86400)%Z) /\
  second.1 = Ok d /\
  calls second.2 = calls w2.
Proof.
  intros Hredis Httl Hrt Hne first Hcalls Hlast Hparams Hup2 Hdb Hnow second.
  assert (Hfirst : first.1 = Ok d /\
            redis_db first.2 !! fetch_cache_key svc url params w
              = Some (json_dumps d, (now first.2 + 86400)%Z)).
  { subst first. revert Hcalls Hlast. rewrite fetch_unfold.
    destruct (cache_lookup svc url params w) as [[c|]|e] eqn:Hlook.
    - destruct (json_loads c); simpl; lia.
    - cbv zeta. cbn [fst snd]. intros Hcalls Hlast.
      destruct (fetch_loop_last_ok svc net url (request_params svc params w)
                  (fetch_cache_key svc url params w) 0 (max_retries svc)
                  (bind_params svc params w).2 d) as [-> Hc]; [|done..|].
      { intros _. rewrite bind_params_redis_up.
        by apply (cache_lookup_ok_up svc url params w None). }
      split; [reflexivity|]. rewrite <- Httl. by apply Hc.
    - simpl. lia. }
  destruct Hfirst as [H1 Hentry].
  assert (Hsecond : second = (Ok d, (bind_params svc params2 w2).2)).
  { subst second. rewrite fetch_unfold.
    rewrite (cache_lookup_hit svc url params2 w2 (json_dumps d)
               (now first.2 + 86400)%Z); [by rewrite Hrt|done..| |done|done].
    unfold fetch_cache_key. rewrite Hparams.
    fold (fetch_cache_key svc url params w). by rewrite Hdb. }
  rewrite Hsecond. by repeat split.
Qed.

(** C9 (amended): a call to [fetch] with a caller's dictionary that is not
    empty stores [api_key] in that very dictionary and changes no other entry
    of it; an empty dictionary is left empty, the key going into a fresh one.
    Either way the cache key is built from the dictionary that holds the API
    key, and no other dictionary of the heap changes. *)
Theorem fetch_sets_api_key svc net url l d w :
  heap w !! l = Some d ->
  let w' := (fetch svc net url (Some l) w).2 in
  let d' := <["api_key" := JStr (api_key svc)]> d in
  (d <> ∅ -> heap w' !! l = Some d') /\
  (d = ∅ -> heap w' !! l = Some ∅) /\
  fetch_cache_key svc url (Some l) w = cache_key svc url d' /\
  (forall k, k <> "api_key" -> d' !! k = d !! k) /\
  (forall l', l' <> l -> is_Some (heap w !! l') -> heap w' !! l' = heap w !! l').
Proof.
  intros Hl w' d'.
  assert (Hheap : heap w' = heap (bind_params svc (Some l) w).2).
  { subst w'. rewrite fetch_unfold.
    destruct (cache_lookup _ _ _ _) as [[c|]|e];
      [by destruct (json_loads c)| |reflexivity].
    apply fetch_loop_heap. }
  assert (Hfresh : forall l', is_Some (heap w !! l') -> fresh (dom (heap w)) <> l').
  { intros l' [x Hx] E. pose proof (fresh_loc_unused (heap w)) as Hf.
    rewrite E in Hf. congruence. }
  rewrite Hheap. unfold fetch_cache_key, request_params.
  destruct (decide (d = ∅)) as [->|Hd].
  - rewrite (bind_params_empty svc l w Hl). simpl. repeat split.
    + done.
    + intros _. rewrite lookup_insert_ne; [done|]. by apply Hfresh.
    + by rewrite lookup_insert_eq.
    + intros k Hk. subst d'. by rewrite lookup_insert_ne.
    + intros l' Hl' Hsome. rewrite lookup_insert_ne; [done|]. by apply Hfresh.
  - rewrite (bind_params_nonempty svc l d w Hl Hd). simpl. repeat split.
    + intros _. by rewrite lookup_insert_eq.
    + done.
    + by rewrite lookup_insert_eq.
    + intros k Hk. subst d'. by rewrite lookup_insert_ne.
    + intros l' Hl' _. by rewrite lookup_insert_ne.
Qed.

End WithRuntime.
End FetchFacts.

Module TaskFacts.
Import Store Celery Ingestion IngestionMore StoreFacts.

(** [self.retry] always raises: [Retry] while retries remain, the exception
    itself afterwards. *)
Lemma self_retry_cases retries e c :
  self_retry 3 retries e c =
    if bool_decide (retries < 3) then RaisedRetry e c else RaisedError e.
Proof.
  unfold self_retry. case_bool_decide.
  - rewrite (proj2 (Nat.ltb_ge _ _)); [done|lia].
  - rewrite (proj2 (Nat.ltb_lt _ _)); [done|lia].
Qed.

Lemma self_retry_not_returned retries e c v :
  self_retry 3 retries e c <> Returned v.
Proof. rewrite self_retry_cases. by case_bool_decide. Qed.

Section WithRuntime.
Context `{PyRuntime}.

(** *** Loops that meet an exception *)

(** A body that appends to the pending rows raises as soon as one element
    does, whatever is pending. *)
Lemma for_each_raises {A S : Type} (body : A -> S -> result S) (l : list A) (x : A) :
  x ∈ l ->
  (forall s, exists e, body x s = Raise e) ->
  forall s, exists e, Py.for_each body l s = Raise e.
Proof.
  intros Hx Hraise. induction l as [|y l IH]; intros s; [by apply elem_of_nil in Hx|].
  simpl. apply elem_of_cons in Hx as [<- | Hx].
  - destruct (Hraise s) as [e ->]. by exists e.
  - destruct (body y s) as [s'|e]; simpl; [by apply IH | by exists e].
Qed.

(** *** What the tasks do with a dictionary *)

Lemma truthy_dict kv k v :
  Py.dict_lookup k kv = Some v -> Py.truthy (JDict kv) = true.
Proof. by destruct kv. Qed.

Lemma has_key_dict kv k v :
  Py.dict_lookup k kv = Some v -> has_key k (JDict kv) = Ok true.
Proof.
  intros Hk. unfold has_key. rewrite (truthy_dict kv k v Hk). simpl.
  rewrite Hk. by rewrite bool_decide_eq_true_2.
Qed.

(** A value that is stored cannot enter a unique column again. *)
Lemma unique_ok_stored v column :
  v <> JNull -> existsb (Py.json_eqb v) column = true -> unique_ok v column = false.
Proof. intros Hv Hex. destruct v; [done|..]; unfold unique_ok; by rewrite Hex. Qed.

(** *** The store after a task *)

(** A task body leaves the database it found, or the one a commit made. *)
Lemma save_then_keys_unique (save : result Database) k db :
  keys_unique db ->
  (forall db', save = Ok db' -> keys_unique db') ->
  keys_unique (save_then save k db).2.
Proof. intros Hu Hsave. unfold save_then. destruct save; simpl; auto. Qed.

Lemma save_apod_keys_unique now data db db' :
  keys_unique db -> save_apod now data db = Ok db' -> keys_unique db'.
Proof.
  unfold save_apod. intros Hu. destruct (Py.for_each _ _ _) as [pending|e]; [|done].
  by apply commit_keys_unique.
Qed.

Lemma save_apod_range_keys_unique now data db db' :
  keys_unique db -> save_apod_range now data db = Ok db' -> keys_unique db'.
Proof.
  unfold save_apod_range. intros Hu.
  destruct (Py.for_each _ _ _) as [pending|e]; [|done].
  by apply commit_keys_unique.
Qed.

Lemma save_asteroids_keys_unique now data db db' :
  keys_unique db -> save_asteroids now data db = Ok db' -> keys_unique db'.
Proof.
  unfold save_asteroids. intros Hu.
  destruct (Py.getitem _ _) as [neos|e]; [simpl|done].
  destruct (Py.values _) as [groups|e]; [simpl|done].
  destruct (Py.for_each _ _ _) as [pending|e]; [|done].
  by apply commit_keys_unique.
Qed.

Lemma save_cneos_keys_unique now data db db' :
  keys_unique db -> save_cneos now data db = Ok db' -> keys_unique db'.
Proof.
  unfold save_cneos. intros Hu.
  destruct (Py.getitem _ _) as [rows|e]; [simpl|done].
  destruct (Py.slice_to _ _) as [limited|e]; [simpl|done].
  destruct (Py.iter _) as [approaches|e]; [simpl|done].
  destruct (Py.for_each _ _ _) as [pending|e]; [|done].
  by apply commit_keys_unique.
Qed.

Lemma save_tle_keys_unique now tle_of db db' :
  keys_unique db -> save_tle now tle_of db = Ok db' -> keys_unique db'.
Proof.
  unfold save_tle. intros Hu. destruct (Py.for_each _ _ _) as [pending|e]; [|done].
  by apply commit_keys_unique.
Qed.

(** X16: the invariant of the store.  From a database with at most one row
    per natural key, every task leaves such a database, whatever was fetched
    and however the task ends. *)
Lemma tasks_keep_keys_unique retries now fetched tle_of db :
  keys_unique db ->
  keys_unique (ingest_apod retries now fetched db).2 /\
  keys_unique (ingest_apod_range retries now fetched db).2 /\
  keys_unique (ingest_asteroids_today retries now fetched db).2 /\
  keys_unique (ingest_cneos_data retries now fetched db).2 /\
  keys_unique (ingest_tle_data retries now tle_of db).2.
Proof.
  intros Hu.
  unfold ingest_apod, ingest_apod_range, ingest_asteroids_today, ingest_cneos_data,
    ingest_tle_data, ingest_apod_body, shared_task, with_data, run_async.
  cbn [snd]. split; [|split; [|split; [|split]]].
  - destruct fetched as [data|e]; [|done]. destruct (Py.truthy data); [|done].
    apply save_then_keys_unique; [done|]. intros db'. by apply save_apod_keys_unique.
  - destruct fetched as [data|e]; [|done]. destruct (Py.truthy data); [|done].
    apply save_then_keys_unique; [done|]. intros db'.
    by apply save_apod_range_keys_unique.
  - destruct fetched as [data|e]; [|done]. destruct (has_key _ _) as [[]|]; [|done..].
    apply save_then_keys_unique; [done|]. intros db'.
    by apply save_asteroids_keys_unique.
  - destruct fetched as [data|e]; [|done]. destruct (has_key _ _) as [[]|]; [|done..].
    apply save_then_keys_unique; [done|]. intros db'. by apply save_cneos_keys_unique.
  - apply save_then_keys_unique; [done|]. intros db'. by apply save_tle_keys_unique.
Qed.

(** X17: [ingest_tle_data] never gets to its inserts.  [save_tle] calls
    [run_async] on the loop that is running it, so the first satellite raises
    [RuntimeError] and the task ends in [self.retry], whatever the service
    would answer and whatever the database holds. *)
Lemma ingest_tle_data_raises retries now tle_of db :
  ingest_tle_data retries now tle_of db
    = (self_retry 3 retries RuntimeError 60, db).
Proof. reflexivity. Qed.

(** *** The loop and the commit of [save_apod] and [save_cneos] *)

(** A value that no row holds can enter a unique column. *)
Lemma unique_ok_fresh v column : v ∉ column -> unique_ok v column = true.
Proof.
  intros Hv. destruct (existsb (Py.json_eqb v) column) eqn:Hex.
  - by apply existsb_json_eqb in Hex.
  - destruct v; unfold unique_ok; by rewrite ?Hex.
Qed.

(** The loop of [save_apod] adds the record of every item, in order. *)
Lemma save_apod_loop now l records p :
  Forall2 (fun item r => apod_of now item = Ok r) l records ->
  Py.for_each (fun item (pending : list row) =>
      apod <- apod_of now item ;;
      Ok (pending ++ [RowAPOD apod])) l p
  = Ok (p ++ (RowAPOD <$> records)).
Proof.
  intros HF. revert p. induction HF as [|item r l records Hr _ IH]; intros p; simpl.
  - by rewrite app_nil_r.
  - rewrite Hr. simpl. rewrite IH. by rewrite <- app_assoc.
Qed.

Lemma save_apod_loop_inv now l p pending :
  Py.for_each (fun item (pending : list row) =>
      apod <- apod_of now item ;;
      Ok (pending ++ [RowAPOD apod])) l p = Ok pending ->
  exists records,
    Forall2 (fun item r => apod_of now item = Ok r) l records /\
    pending = p ++ (RowAPOD <$> records).
Proof.
  revert p. induction l as [|item l IH]; intros p; simpl.
  - intros [= <-]. exists []. split; [constructor | by rewrite app_nil_r].
  - destruct (apod_of now item) as [r|e] eqn:Hr; simpl; [|discriminate].
    intros Hrest. apply IH in Hrest as (records & HF & ->).
    exists (r :: records). split; [by constructor|]. by rewrite <- app_assoc.
Qed.

Lemma save_apod_records now data db records :
  Forall2 (fun item r => apod_of now item = Ok r) (items_of data) records ->
  save_apod now data db = commit (RowAPOD <$> records) db.
Proof.
  intros HF. unfold save_apod. by rewrite (save_apod_loop now _ records [] HF).
Qed.

(** The INSERTs of a session of pictures append them, in order, and touch no
    other table. *)
Lemma insert_apods_ok records db db' :
  Py.for_each insert (RowAPOD <$> records) db = Ok db' ->
  available db' = available db /\ apod db' = apod db ++ records /\
  asteroids_neows db' = asteroids_neows db /\ cneos db' = cneos db /\
  tle db' = tle db.
Proof.
  revert db. induction records as [|r records IH]; intros db; simpl.
  - intros [= <-]. by rewrite app_nil_r.
  - destruct (unique_ok _ _ && unique_ok _ _); simpl; [|discriminate].
    intros Hrest. apply IH in Hrest as (Hav & Hapod & Hneo & Hcneos & Htle).
    simpl in *. by rewrite Hav, Hapod, Hneo, Hcneos, Htle, <- app_assoc.
Qed.

Lemma commit_apods_ok records db db' :
  commit (RowAPOD <$> records) db = Ok db' ->
  available db' = available db /\ apod db' = apod db ++ records /\
  asteroids_neows db' = asteroids_neows db /\ cneos db' = cneos db /\
  tle db' = tle db.
Proof.
  unfold commit. destruct records as [|r records].
  - intros [= <-]. by rewrite app_nil_r.
  - rewrite fmap_cons. intros Hc. apply (insert_apods_ok (r :: records)).
    rewrite fmap_cons. by destruct (available db).
Qed.

(** Pictures with dates and urls that differ from one another and from the
    stored ones are all inserted. *)
Lemma insert_apods_fresh records db :
  NoDup (apod_date <$> records) -> NoDup (apod_url <$> records) ->
  (forall r, r ∈ records ->
     (apod_date r ∉ apod_date <$> apod db) /\
        (apod_url r ∉ apod_url <$> apod db)) ->
  exists db', Py.for_each insert (RowAPOD <$> records) db = Ok db'.
Proof.
  revert db. induction records as [|a records IH]; intros db Hd Hu Hnew.
  - by exists db.
  - rewrite fmap_cons in Hd, Hu.
    apply NoDup_cons in Hd as [Hd1 Hd2]. apply NoDup_cons in Hu as [Hu1 Hu2].
    destruct (Hnew a) as [Ha1 Ha2]; [apply list_elem_of_here|].
    simpl. rewrite (unique_ok_fresh _ _ Ha2), (unique_ok_fresh _ _ Ha1). simpl.
    apply IH; [done..|].
    intros r Hr. simpl. rewrite !fmap_app. simpl.
    destruct (Hnew r) as [Hr1 Hr2]; [by apply list_elem_of_further|].
    split; intros [Hin | Hin%list_elem_of_singleton]%elem_of_app; try done.
    + apply Hd1. rewrite <- Hin. apply list_elem_of_fmap. by exists r.
    + apply Hu1. rewrite <- Hin. apply list_elem_of_fmap. by exists r.
Qed.

(** A record can be built from every dictionary. *)
Lemma apod_of_dicts now l :
  Forall (fun item => exists kv, item = JDict kv) l ->
  exists records, Forall2 (fun item r => apod_of now item = Ok r) l records.
Proof.
  induction 1 as [|item l [kv ->] _ [records HF]]; [by exists []|].
  eexists (_ :: records). constructor; [reflexivity | exact HF].
Qed.

(** [save_cneos], with its loop named. *)
Lemma save_cneos_unfold now data db :
  save_cneos now data db =
  (approaches <- approaches_of data ;;
   pending <- Py.for_each (cneos_step now db) approaches [] ;;
   commit pending db).
Proof.
  unfold save_cneos, approaches_of.
  destruct (Py.getitem data "data") as [rows|e]; [simpl|done].
  destruct (Py.slice_to 100 rows) as [limited|e]; [simpl|done].
  by destruct (Py.iter limited).
Qed.

(** The loop of [save_cneos] adds the records it builds, in order. *)
Lemma save_cneos_loop now db approaches built p :
  Forall2 (fun approach o => cneos_record now db approach = Ok o) approaches built ->
  Py.for_each (cneos_step now db) approaches p
  = Ok (p ++ (RowCNEOS <$> omap id built)).
Proof.
  intros HF. revert p.
  induction HF as [|approach o approaches built Ho _ IH]; intros p; simpl.
  - by rewrite app_nil_r.
  - unfold cneos_step at 1. rewrite Ho. cbn [bind]. rewrite IH.
    destruct o; csimpl; by rewrite <- app_assoc.
Qed.

(** C10: when the APOD fetch result is a list, [ingest_apod] never returns
    a success value.  An empty list gives the error value.  For a list that
    is not empty, when [save_apod] goes through, the record of every item of
    the list is committed, in order, and then the [return] that reads [items]
    raises [NameError], which the handler passes to [self.retry]; when
    [save_apod] raises, its exception goes to [self.retry].  The [NameError]
    is reached: it is for every list of dictionaries whose dates and urls
    differ from one another and from the stored ones, on a database that
    can be reached. *)
Theorem ingest_apod_list_never_succeeds retries now l db :
  let out := ingest_apod retries now (Ok (JList l)) db in
  (l = [] ->
     out = (Returned (JDict [("status", JStr "error");
                             ("message", JStr "No data returned")]), db)) /\
  (l <> [] -> forall db', save_apod now (JList l) db = Ok db' ->
     out = (self_retry 3 retries NameError 60, db') /\
     exists records,
       Forall2 (fun item r => apod_of now item = Ok r) l records /\
       apod db' = apod db ++ records) /\
  (l <> [] -> forall e, save_apod now (JList l) db = Raise e ->
     out = (self_retry 3 retries e 60, db)) /\
  (forall v, out.1 = Returned v -> Py.get v "status" JNull = Ok (JStr "error")) /\
  (Forall (fun item => exists kv, item = JDict kv) l ->
     exists records, Forall2 (fun item r => apod_of now item = Ok r) l records) /\
  (l <> [] -> available db = true ->
   forall records,
     Forall2 (fun item r => apod_of now item = Ok r) l records ->
     NoDup (apod_date <$> records) -> NoDup (apod_url <$> records) ->
     (forall r, r ∈ records ->
        (apod_date r ∉ apod_date <$> apod db) /\
        (apod_url r ∉ apod_url <$> apod db)) ->
     exists db',
       out = (self_retry 3 retries NameError 60, db') /\
       apod db' = apod db ++ records).
Proof.
  intros out.
  assert (Hok : l <> [] -> forall db', save_apod now (JList l) db = Ok db' ->
            out = (self_retry 3 retries NameError 60, db')).
  { intros Hl db' Hsave. subst out.
    unfold ingest_apod, with_data, ingest_apod_body, shared_task, save_then,
      run_async.
    destruct l as [|x l]; [done|]. cbn [Py.truthy bool_decide decide_rel].
    by rewrite Hsave. }
  split; [|split; [|split; [|split; [|split]]]].
  - intros ->. reflexivity.
  - intros Hl db' Hsave. split; [by apply Hok|].
    unfold save_apod in Hsave. cbn [items_of] in Hsave.
    destruct (Py.for_each _ l []) as [pending|e] eqn:Hloop; [|discriminate].
    apply save_apod_loop_inv in Hloop as (records & HF & ->).
    cbn [bind app] in Hsave. apply commit_apods_ok in Hsave as (_ & Hapod & _).
    by exists records.
  - intros Hl e Hsave. subst out.
    unfold ingest_apod, with_data, ingest_apod_body, shared_task, save_then,
      run_async.
    destruct l as [|x l]; [done|]. cbn [Py.truthy bool_decide decide_rel].
    by rewrite Hsave.
  - subst out.
    unfold ingest_apod, with_data, ingest_apod_body, shared_task, save_then,
      run_async.
    destruct l as [|x l]; [by intros v [= <-]|].
    cbn [Py.truthy bool_decide decide_rel].
    destruct (save_apod now (JList (x :: l)) db); cbn [fst];
      intros v Hv; by apply self_retry_not_returned in Hv.
  - apply apod_of_dicts.
  - intros Hl Hav records HF Hd Hu Hnew.
    destruct (insert_apods_fresh records db Hd Hu Hnew) as [db' Hins].
    assert (Hsave : save_apod now (JList l) db = Ok db').
    { rewrite (save_apod_records now (JList l) db records HF). unfold commit.
      destruct records as [|r records]; [|by rewrite fmap_cons, Hav].
      apply Forall2_nil_inv_r in HF. done. }
    exists db'. split; [by apply Hok|].
    rewrite (save_apod_records now (JList l) db records HF) in Hsave.
    by apply commit_apods_ok in Hsave as (_ & Hapod & _).
Qed.

(** C3 (the code at the failing input): when the date of the fetched
    picture is stored already, [ingest_apod] does not pass the item over; the
    insert violates the unique constraint and the task ends in [self.retry]
    with [IntegrityError]. *)
Theorem ingest_apod_stored_date_raises retries now kv date db :
  available db = true ->
  Py.dict_lookup "date" kv = Some date ->
  date <> JNull ->
  existsb (Py.json_eqb date) (apod_date <$> apod db) = true ->
  ingest_apod retries now (Ok (JDict kv)) db
    = (self_retry 3 retries IntegrityError 60, db).
Proof.
  intros Hav Hdate Hnull Hstored.
  unfold ingest_apod, with_data, ingest_apod_body, shared_task.
  rewrite (truthy_dict kv _ _ Hdate).
  unfold save_then, run_async, save_apod, commit. simpl. rewrite Hav, Hdate. simpl.
  rewrite (unique_ok_stored date _ Hnull Hstored), andb_false_r. reflexivity.
Qed.

(** C1 (the code at the failing input): the first run of [ingest_apod] on
    one picture stores it and reports success; the second run on the same
    picture does not skip it but raises [IntegrityError] into [self.retry],
    where [ingest_apod_range] on the same input skips it and succeeds. *)
Theorem ingest_apod_rerun_not_skipped :
  let run1 := ingest_apod 0 1704067200 (Ok Samples.apod_item) empty_db in
  let run2 := ingest_apod 0 1704070800 (Ok Samples.apod_item) run1.2 in
  run1.1 = Returned (JDict [("status", JStr "success"); ("count", JNum 1 0)]) /\
  length (apod run1.2) = 1 /\
  run2 = (RaisedRetry IntegrityError 60, run1.2) /\
  ingest_apod_range 0 1704070800 (Ok Samples.apod_item) run1.2
    = (Returned status_success, run1.2).
Proof. cbv zeta. repeat apply conj; reflexivity. Qed.

(** C4 (amended): in [ingest_asteroids_today] an asteroid whose record
    cannot be built is not isolated: its exception leaves the loops before
    the commit, so the database is left as it was, the well-formed asteroids
    of the feed are not stored either, and the task raises through
    [self.retry] instead of returning an outcome. *)
Theorem asteroid_error_aborts_job retries now kv days asteroids asteroid e0 db :
  Py.dict_lookup "near_earth_objects" kv = Some (JDict days) ->
  JList asteroids ∈ days.*2 ->
  asteroid ∈ asteroids ->
  asteroid_record now db asteroid = Raise e0 ->
  exists e,
    ingest_asteroids_today retries now (Ok (JDict kv)) db
      = (self_retry 3 retries e 60, db).
Proof.
  intros Hneo Hday Hin Hbad.
  assert (Hsave : exists e, save_asteroids now (JDict kv) db = Raise e).
  { unfold save_asteroids. simpl. rewrite Hneo. simpl.
    destruct (for_each_raises
                (fun asteroids_list (pending : list row) =>
                   asteroids <- Py.iter asteroids_list ;;
                   add_asteroids now db asteroids pending)
                days.*2 (JList asteroids) Hday) with (s := @nil row) as [e He].
    - intros pending. simpl. unfold add_asteroids.
      apply (for_each_raises _ asteroids asteroid Hin).
      intros s. exists e0. by rewrite Hbad.
    - exists e. by rewrite He. }
  destruct Hsave as [e He]. exists e.
  unfold ingest_asteroids_today, with_data, shared_task, save_then, run_async.
  by rewrite (has_key_dict kv _ _ Hneo), He.
Qed.

(** C6 (amended): a service call that returns [None] makes [ingest_apod]
    and [ingest_cneos_data] return an error value and leave the database
    alone.  Every other failure is caught at the task boundary and raised
    again through [self.retry]: every run either returns a value or ends
    there, and it ends there with the exception of the service call, with
    the exception raised while any item is read (a parse error), with the
    exception of the commit (a store error), and with whatever else
    [save_apod], the test of the payload or [save_cneos] raise.  [self.retry]
    raises [Retry] while fewer than three retries were made and the
    exception itself afterwards; it returns no value. *)
Theorem task_failures_are_raised retries now fetched db :
  let apod_run := ingest_apod retries now fetched db in
  let cneos_run := ingest_cneos_data retries now fetched db in
  (fetched = Ok JNull ->
     apod_run = (Returned (JDict [("status", JStr "error");
                                  ("message", JStr "No data returned")]), db) /\
     cneos_run = (Returned status_error, db)) /\
  ((exists v, apod_run.1 = Returned v) \/
   (exists e, apod_run.1 = self_retry 3 retries e 60)) /\
  ((exists v, cneos_run.1 = Returned v) \/
   (exists e, cneos_run = (self_retry 3 retries e 60, db))) /\
  (forall e, fetched = Raise e ->
     apod_run = (self_retry 3 retries e 60, db) /\
     cneos_run = (self_retry 3 retries e 60, db)) /\
  (forall data e, fetched = Ok data -> Py.truthy data = true ->
     save_apod now data db = Raise e ->
     apod_run = (self_retry 3 retries e 60, db)) /\
  (forall data item e0, fetched = Ok data -> Py.truthy data = true ->
     item ∈ items_of data -> apod_of now item = Raise e0 ->
     exists e, apod_run = (self_retry 3 retries e 60, db)) /\
  (forall data records e, fetched = Ok data -> Py.truthy data = true ->
     Forall2 (fun item r => apod_of now item = Ok r) (items_of data) records ->
     commit (RowAPOD <$> records) db = Raise e ->
     apod_run = (self_retry 3 retries e 60, db)) /\
  (forall data e, fetched = Ok data -> has_key "data" data = Raise e ->
     cneos_run = (self_retry 3 retries e 60, db)) /\
  (forall data e, fetched = Ok data -> has_key "data" data = Ok true ->
     save_cneos now data db = Raise e ->
     cneos_run = (self_retry 3 retries e 60, db)) /\
  (forall data e, fetched = Ok data -> has_key "data" data = Ok true ->
     approaches_of data = Raise e ->
     cneos_run = (self_retry 3 retries e 60, db)) /\
  (forall data approaches approach e0, fetched = Ok data ->
     has_key "data" data = Ok true -> approaches_of data = Ok approaches ->
     approach ∈ approaches -> cneos_record now db approach = Raise e0 ->
     exists e, cneos_run = (self_retry 3 retries e 60, db)) /\
  (forall data approaches built e, fetched = Ok data ->
     has_key "data" data = Ok true -> approaches_of data = Ok approaches ->
     Forall2 (fun approach o => cneos_record now db approach = Ok o)
       approaches built ->
     commit (RowCNEOS <$> omap id built) db = Raise e ->
     cneos_run = (self_retry 3 retries e 60, db)) /\
  (forall kv, fetched = Ok (JDict kv) -> kv <> [] -> available db = false ->
     apod_run = (self_retry 3 retries OperationalError 60, db)) /\
  (forall kv x rows, fetched = Ok (JDict kv) ->
     Py.dict_lookup "data" kv = Some (JList (x :: rows)) ->
     (forall fields, x <> JDict fields) ->
     cneos_run = (self_retry 3 retries AttributeError 60, db)) /\
  (forall e c v,
     self_retry 3 retries e c
       = (if bool_decide (retries < 3) then RaisedRetry e c else RaisedError e) /\
     self_retry 3 retries e c <> Returned v).
Proof.
  intros apod_run cneos_run.
  assert (Hsave_apod : forall data e, fetched = Ok data -> Py.truthy data = true ->
            save_apod now data db = Raise e ->
            apod_run = (self_retry 3 retries e 60, db)).
  { intros data e -> Htruthy Hsave. subst apod_run.
    unfold ingest_apod, with_data, ingest_apod_body, shared_task, save_then,
      run_async. by rewrite Htruthy, Hsave. }
  assert (Hsave_cneos : forall data e, fetched = Ok data ->
            has_key "data" data = Ok true -> save_cneos now data db = Raise e ->
            cneos_run = (self_retry 3 retries e 60, db)).
  { intros data e -> Hkey Hsave. subst cneos_run.
    unfold ingest_cneos_data, with_data, shared_task, save_then, run_async.
    by rewrite Hkey, Hsave. }
  repeat apply conj.
  - intros ->. split; reflexivity.
  - subst apod_run. unfold ingest_apod, shared_task. cbn [fst].
    destruct (with_data _ _ _).1 as [v|e]; [left; by exists v | right; by exists e].
  - subst cneos_run.
    unfold ingest_cneos_data, with_data, shared_task, save_then, run_async.
    destruct fetched as [data|e]; [|right; by exists e].
    destruct (has_key "data" data) as [[]|e]; [|left; by eexists|right; by exists e].
    destruct (save_cneos now data db) as [db'|e]; [left; by eexists|right; by exists e].
  - intros e ->. split; reflexivity.
  - exact Hsave_apod.
  - intros data item e0 Hf Htruthy Hin Hitem.
    destruct (for_each_raises (fun item (pending : list row) =>
                 apod <- apod_of now item ;;
                 Ok (pending ++ [RowAPOD apod])) (items_of data) item Hin)
      with (s := @nil row) as [e He].
    { intros s. exists e0. by rewrite Hitem. }
    exists e. apply (Hsave_apod data e Hf Htruthy). unfold save_apod. by rewrite He.
  - intros data records e Hf Htruthy HF Hc.
    apply (Hsave_apod data e Hf Htruthy).
    by rewrite (save_apod_records now data db records HF).
  - intros data e -> Hkey. subst cneos_run.
    unfold ingest_cneos_data, with_data, shared_task. by rewrite Hkey.
  - exact Hsave_cneos.
  - intros data e Hf Hkey Hrows. apply (Hsave_cneos data e Hf Hkey).
    rewrite save_cneos_unfold. by rewrite Hrows.
  - intros data approaches approach e0 Hf Hkey Hrows Hin Hrec.
    destruct (for_each_raises (cneos_step now db) approaches approach Hin)
      with (s := @nil row) as [e He].
    { intros s. exists e0. unfold cneos_step. by rewrite Hrec. }
    exists e. apply (Hsave_cneos data e Hf Hkey).
    rewrite save_cneos_unfold, Hrows. cbn [bind]. by rewrite He.
  - intros data approaches built e Hf Hkey Hrows HF Hc.
    apply (Hsave_cneos data e Hf Hkey).
    rewrite save_cneos_unfold, Hrows. cbn [bind].
    rewrite (save_cneos_loop now db approaches built [] HF). cbn [bind app].
    exact Hc.
  - intros kv -> Hkv Hav. subst apod_run.
    unfold ingest_apod, with_data, ingest_apod_body, shared_task, save_then,
      run_async, save_apod, commit.
    destruct kv; [done|]. simpl. by rewrite Hav.
  - intros kv x rows -> Hdata Hx. subst cneos_run.
    unfold ingest_cneos_data, with_data, shared_task, save_then, run_async.
    rewrite (has_key_dict kv _ _ Hdata).
    unfold save_cneos. simpl. rewrite Hdata. simpl.
    assert (cneos_record now db x = Raise AttributeError) as ->; [|done].
    unfold cneos_record. destruct x; try done. by destruct (Hx kv0).
  - intros e c v. split; [apply self_retry_cases | apply self_retry_not_returned].
Qed.

End WithRuntime.
End TaskFacts.

Module PipelineFacts.
Import Fetch FetchFacts Store Celery.

Section WithRuntime.
Context `{PyRuntime}.

(** An endpoint that times out, seen from the two kinds of service:
    [APODService.get_apod] goes through [fetch], which gives [None] after
    its retries, and [ingest_apod] returns its error value;
    [CNEOSService.query_close_approaches] catches nothing, so the timeout
    reaches [ingest_cneos_data], which raises it again through [self.retry]. *)
Lemma timeout_through_the_tasks key retries w db :
  (Pipeline.ingest_apod_task key (always TimeoutError) retries w db).1
    = (Returned (JDict [("status", JStr "error");
                        ("message", JStr "No data returned")]), db) /\
  (Pipeline.ingest_cneos_data_task (always TimeoutError) retries w db).1
    = (self_retry 3 retries AsyncioTimeoutError 60, db).
Proof.
  split; reflexivity.
Qed.

End WithRuntime.
End PipelineFacts.

Module OrchestratorFacts.
Import Orchestrator.

(** Every call handed to [delay] is queued under the next id, in order. *)
Lemma delay_all_spec ts b :
  id <$> (delay_all ts b).1 = seq (next_id b) (length ts) /\
  queue (delay_all ts b).2 = queue b ++ zip (seq (next_id b) (length ts)) ts /\
  next_id (delay_all ts b).2 = next_id b + length ts.
Proof.
  revert b. induction ts as [|t ts IH]; intros b.
  - simpl. by rewrite app_nil_r, Nat.add_0_r.
  - specialize (IH {| queue := queue b ++ [(next_id b, t)]; next_id := S (next_id b) |}).
    cbn [delay_all delay]. destruct (delay_all ts _) as [rs b2].
    cbn [fst snd queue next_id] in *. destruct IH as (IH1 & IH2 & IH3).
    rewrite fmap_cons, IH1, IH2, IH3, <- app_assoc. cbn. repeat split. lia.
Qed.

(** C7 (amended): [ingest_all_nasa_data] puts thirteen jobs on the queue,
    one per task of its list, and runs none of them; the handle it returns
    counts thirteen and lists the thirteen new, distinct ids in launch order.
    The jobs cover twelve of the sixteen entity kinds: DONKI has two, and
    GIBS, OpenScience, SatelliteSituationCenter and TrekWMS have none. *)
Theorem ingest_all_launches_thirteen b :
  let out := ingest_all_nasa_data b in
  status out.1 = "queued" /\
  task_count out.1 = 13 /\
  task_ids out.1 = seq (next_id b) 13 /\
  NoDup (task_ids out.1) /\
  queue out.2 = queue b ++ zip (task_ids out.1) launched /\
  filter (fun k => k ∉ entity_of <$> launched) all_kinds
    = [GIBS; OpenScience; SatelliteSituationCenter; TrekWMS] /\
  length (filter (fun t => entity_of t = DONKI) launched) = 2.
Proof.
  intros out. subst out. unfold ingest_all_nasa_data.
  destruct (delay_all_spec launched b) as (Hids & Hq & _).
  destruct (delay_all launched b) as [tasks b'].
  cbn [fst snd status task_count task_ids] in *.
  change (length launched) with 13 in *.
  assert (Hlen : length tasks = 13).
  { rewrite <- (length_fmap id), Hids. apply length_seq. }
  rewrite Hids, Hq, Hlen. repeat split. apply NoDup_seq.
Qed.

(** C7 (counterexample): on an empty queue the batch counts thirteen jobs,
    not sixteen, and no job writes the GIBS table. *)
Lemma ingest_all_not_one_job_per_kind :
  ~ one_job_per_kind (ingest_all_nasa_data empty_broker).
Proof. intros [Hcount _]. vm_compute in Hcount. discriminate. Qed.

End OrchestratorFacts.

(** * The properties at concrete inputs *)

Module Cases.
Import Fetch FetchFacts Store Celery Ingestion TaskFacts.

(** C2 at a rate-limited endpoint: three requests, then [None]. *)
Lemma fetch_retry_bound_witness :
  let svc := Samples.apod_service false in
  let out := fetch (H := stub_runtime JNull) svc (always (Response 429 None))
               Samples.apod_url None empty_world in
  max_retries svc = 3 /\ out.1 = Ok JNull /\ calls out.2 = 3.
Proof.
  split; [reflexivity|].
  destruct (fetch_retry_bound (H := stub_runtime JNull) (Samples.apod_service false)
              (always (Response 429 None)) Samples.apod_url None empty_world
              eq_refl) as [_ Hmiss].
  destruct (Hmiss eq_refl) as [Hlimited _].
  apply Hlimited. intros url p n. by exists None.
Defined.

(** C8 at an endpoint that times out: the lookup cannot raise without a
    Redis client, and the result is [None]. *)
Lemma fetch_failures_return_None_witness :
  let svc := Samples.apod_service false in
  (fetch (H := stub_runtime JNull) svc (always TimeoutError)
     Samples.apod_url None empty_world).1 = Ok JNull.
Proof.
  cbv zeta.
  destruct (fetch_failures_return_None (H := stub_runtime JNull)
              (Samples.apod_service false) (always TimeoutError)
              Samples.apod_url None empty_world) as (r & Hr & Hnone).
  - intros [[e He] | (c & Hc & _)]; discriminate.
  - destruct (Hnone eq_refl) as [Hexhausted _].
    rewrite Hr, Hexhausted; [reflexivity|]. intros i _. by left.
Defined.

(** C5 on one picture: fetched at time 0, read from the cache an hour later
    without a request. *)
Lemma fetch_cache_hit_within_ttl_witness :
  let rt := stub_runtime Samples.apod_item in
  let svc := Samples.apod_service true in
  let net := always (Response 200 (Some Samples.apod_item)) in
  let first := fetch (H := rt) svc net Samples.apod_url None empty_world in
  let second := fetch (H := rt) svc (always ClientError) Samples.apod_url None
                  (sleep 3600 first.2) in
  first.1 = Ok Samples.apod_item /\ calls first.2 = 1 /\
  second.1 = Ok Samples.apod_item /\ calls second.2 = 1.
Proof.
  intros rt svc net first second.
  destruct (fetch_cache_hit_within_ttl (H := rt) svc net (always ClientError)
              Samples.apod_url None None empty_world (sleep 3600 first.2)
              Samples.apod_item) as (H1 & _ & H2 & H3).
  - reflexivity.
  - reflexivity.
  - reflexivity.
  - discriminate.
  - vm_compute. lia.
  - reflexivity.
  - reflexivity.
  - reflexivity.
  - reflexivity.
  - vm_compute. reflexivity.
  - split; [exact H1|]. split; [reflexivity|]. split; [exact H2 | exact H3].
Defined.

(** C9 (counterexample): a caller's empty dictionary is still empty after
    the call. *)
Lemma fetch_leaves_empty_dict_alone :
  ~ mutates_callers_dict (H := stub_runtime JNull) (Samples.apod_service false)
      (always ClientError) Samples.apod_url 1%positive (Samples.world_with ∅).
Proof.
  intros Hclaim. specialize (Hclaim ∅ eq_refl).
  apply (f_equal (fun o => o ≫= (.!! "api_key"))) in Hclaim.
  vm_compute in Hclaim. discriminate Hclaim.
Qed.

(** C9 (amended) on a dictionary with one entry. *)
Lemma fetch_sets_api_key_witness :
  let d : gmap string json := {["count" := JNum 1 0]} in
  let svc := Samples.apod_service false in
  heap (fetch (H := stub_runtime JNull) svc (always ClientError)
          Samples.apod_url (Some 1%positive) (Samples.world_with d)).2 !! 1%positive
    = Some (<["api_key" := JStr "DEMO_KEY"]> d).
Proof.
  intros d svc.
  destruct (fetch_sets_api_key (H := stub_runtime JNull) svc (always ClientError)
              Samples.apod_url 1%positive d (Samples.world_with d) eq_refl)
    as (Hmut & _).
  apply Hmut. intros E. apply (f_equal (.!! "count")) in E. discriminate E.
Defined.

(** C3 at a database that holds the picture already. *)
Lemma ingest_apod_stored_date_witness :
  let db := (ingest_apod 0 1704067200 (Ok Samples.apod_item) empty_db).2 in
  ingest_apod 1 1704070800 (Ok Samples.apod_item) db
    = (RaisedRetry IntegrityError 60, db).
Proof.
  intros db.
  exact (ingest_apod_stored_date_raises 1 1704070800 Samples.apod_fields
           (JStr "2024-01-01") db eq_refl eq_refl ltac:(discriminate) eq_refl).
Defined.

(** C4 (counterexample): a feed of three asteroids, the second without its
    diameter: the task raises [KeyError] into [self.retry] and stores none. *)
Lemma ingest_asteroids_today_not_isolated :
  ingest_asteroids_today (H := stub_runtime JNull) 0 1704067200
    (Ok Samples.neo_feed) empty_db
  = (RaisedRetry KeyError 60, empty_db).
Proof. reflexivity. Qed.

(** C4 (amended) on the same feed. *)
Lemma asteroid_error_aborts_job_witness :
  exists e,
    ingest_asteroids_today (H := stub_runtime JNull) 3 1704067200
      (Ok Samples.neo_feed) empty_db
    = (self_retry 3 3 e 60, empty_db).
Proof.
  eapply (asteroid_error_aborts_job (H := stub_runtime JNull) 3 1704067200 _ _ _
            (Samples.asteroid_without_diameter "3726710" "(2015 RC)") KeyError).
  - reflexivity.
  - apply list_elem_of_here.
  - apply list_elem_of_further, list_elem_of_here.
  - reflexivity.
Defined.

(** C10 on a list of two pictures and an empty table: both are stored, and
    the task raises [NameError] into [self.retry]. *)
Lemma ingest_apod_list_never_succeeds_witness :
  let l := [Samples.apod_item; MoreSamples.apod_item_2] in
  let out := ingest_apod 0 1704067200 (Ok (JList l)) empty_db in
  out.1 = RaisedRetry NameError 60 /\
  apod_date <$> apod out.2 = [JStr "2024-01-01"; JStr "2024-01-02"].
Proof.
  intros l out.
  destruct (ingest_apod_list_never_succeeds 0 1704067200 l empty_db)
    as (_ & _ & _ & _ & Hdicts & Hreached).
  destruct Hdicts as [records HF].
  { repeat constructor; by eexists. }
  assert (Hrecords : apod_date <$> records = [JStr "2024-01-01"; JStr "2024-01-02"]
                     /\ apod_url <$> records
                        = [JStr "https://apod.nasa.gov/apod/image/2401/ngc.jpg";
                           JStr "https://apod.nasa.gov/apod/image/2401/moonrise.jpg"]).
  { apply Forall2_cons_inv_l in HF as (r1 & rest & H1 & HF & ->).
    apply Forall2_cons_inv_l in HF as (r2 & rest' & H2 & HF & ->).
    apply Forall2_nil_inv_l in HF as ->.
    injection H1 as <-. injection H2 as <-. split; reflexivity. }
  destruct Hrecords as [Hdates Hurls].
  destruct (Hreached ltac:(discriminate) eq_refl records HF) as (db' & Hout & Hapod).
  - rewrite Hdates. apply NoDup_cons.
    split; [by intros ?%list_elem_of_singleton | apply NoDup_singleton].
  - rewrite Hurls. apply NoDup_cons.
    split; [by intros ?%list_elem_of_singleton | apply NoDup_singleton].
  - intros r _. simpl. split; apply not_elem_of_nil.
  - fold out in Hout. rewrite Hout. split; [reflexivity|].
    cbn [snd]. rewrite Hapod. exact Hdates.
Defined.

(** C10 on a list of one picture: the picture is stored, and the task
    raises [NameError] into [self.retry]. *)
Example ingest_apod_list_of_one :
  let out := ingest_apod 0 1704067200 (Ok (JList [Samples.apod_item])) empty_db in
  out.1 = RaisedRetry NameError 60 /\
  apod_date <$> apod out.2 = [JStr "2024-01-01"].
Proof. split; reflexivity. Qed.

(** C6 (counterexample): the rows of a CNEOS answer are lists, so the task
    raises [AttributeError]; with its three retries made the exception leaves
    the task and no outcome is returned. *)
Lemma ingest_cneos_data_raises :
  ingest_cneos_data (H := stub_runtime JNull) 3 1704067200
    (Ok Samples.cneos_answer) empty_db
  = (RaisedError AttributeError, empty_db).
Proof. reflexivity. Qed.

End Cases.

(* ################################################################# *)
(** * Further properties of the fetch client *)

Module FetchExtras.
Import Fetch FetchFacts FetchMore.

(** In a name without a colon the first colon of [name:rest] is the
    separator. *)
Lemma colon_split a b r1 r2 :
  colon_free a = true -> colon_free b = true ->
  a +:+ ":" +:+ r1 = b +:+ ":" +:+ r2 -> a = b /\ r1 = r2.
Proof.
  assert (Hcons : forall c x y, String c x +:+ y = String c (x +:+ y))
    by reflexivity.
  assert (Hnil : forall y, "" +:+ y = y) by reflexivity.
  revert b. induction a as [|c a IH]; intros [|c' b];
    rewrite ?Hcons, ?Hnil; simpl.
  - intros _ _ [= ->]. done.
  - intros _ Hb [= <- _]. by rewrite Ascii.eqb_refl in Hb.
  - intros Ha _ [= -> _]. by rewrite Ascii.eqb_refl in Ha.
  - intros [_ Ha]%andb_true_iff [_ Hb]%andb_true_iff [= -> E].
    destruct (IH b Ha Hb E) as [-> ->]. done.
Qed.

Section WithRuntime.
Context `{PyRuntime}.

Ltac step svc net url p w :=
  simpl;
  destruct (net url p (calls w)) as [status body| |];
  [ destruct (status =? 200)%Z eqn:?;
    [ destruct body as [data|];
      [ destruct (redis svc) eqn:?; [destruct (redis_up w) eqn:?|] |]
    | destruct (status =? 429)%Z eqn:? ]
  | destruct (_ <? _)%Z
  | ].

(** *** What the loop leaves alone *)

Lemma fetch_loop_redis_up svc net url p key attempt todo w :
  redis_up (fetch_loop svc net url p key attempt todo w).2 = redis_up w.
Proof.
  revert attempt w. induction todo as [|todo IH]; intros attempt w; [reflexivity|].
  step svc net url p w; simpl; rewrite ?IH; simpl; congruence.
Qed.

(** Without a client the loop never writes to Redis. *)
Lemma fetch_loop_no_client svc net url p key attempt todo w :
  redis svc = false ->
  redis_db (fetch_loop svc net url p key attempt todo w).2 = redis_db w.
Proof.
  intros Hr. revert attempt w.
  induction todo as [|todo IH]; intros attempt w; [reflexivity|].
  step svc net url p w; simpl; rewrite ?IH; simpl; congruence.
Qed.

(** Only a decoded 200 is written to Redis. *)
Lemma fetch_loop_failure_not_cached svc net url p key attempt todo w :
  (forall i d, i < todo -> net url p (calls w + i) <> Response 200 (Some d)) ->
  redis_db (fetch_loop svc net url p key attempt todo w).2 = redis_db w.
Proof.
  revert attempt w. induction todo as [|todo IH]; intros attempt w Hno; [reflexivity|].
  assert (Hnext : forall w', calls w' = S (calls w) ->
            forall i d, i < todo -> net url p (calls w' + i) <> Response 200 (Some d)).
  { intros w' Hw' i d Hi. rewrite Hw'.
    replace (S (calls w) + i) with (calls w + S i) by lia. apply Hno. lia. }
  pose proof (Hno 0) as H0. rewrite Nat.add_0_r in H0.
  simpl. destruct (net url p (calls w)) as [status body| |]; [| |reflexivity].
  - destruct (status =? 200)%Z eqn:E200.
    + apply Z.eqb_eq in E200 as ->. destruct body as [data|]; [|reflexivity].
      by destruct (H0 data ltac:(lia)).
    + destruct (status =? 429)%Z; [|reflexivity]. by rewrite IH; [|apply Hnext].
  - destruct (_ <? _)%Z; (rewrite IH; [reflexivity | by apply Hnext]).
Qed.

(** The loop looks at the network only for its url and parameters. *)
Lemma fetch_loop_agree svc net net' url p key attempt todo w :
  agree_at net net' url p ->
  fetch_loop svc net url p key attempt todo w
    = fetch_loop svc net' url p key attempt todo w.
Proof.
  intros Hag. revert attempt w.
  induction todo as [|todo IH]; intros attempt w; [reflexivity|].
  simpl. rewrite <- (Hag (calls w)).
  destruct (net url p (calls w)) as [status body| |]; [| |reflexivity].
  - destruct (status =? 200)%Z; [reflexivity|].
    destruct (status =? 429)%Z; [apply IH | reflexivity].
  - destruct (_ <? _)%Z; apply IH.
Qed.

(** *** The clock *)

(** Every 429 is followed by a sleep, the one of the last attempt too. *)
Lemma fetch_loop_now_rate_limited svc net url p key attempt todo w :
  (forall i, i < todo -> rate_limited (net url p (calls w + i))) ->
  now (fetch_loop svc net url p key attempt todo w).2
    = (now w + Z.of_nat todo * retry_delay svc)%Z.
Proof.
  revert attempt w. induction todo as [|todo IH]; intros attempt w Hre.
  { simpl. lia. }
  destruct (Hre 0 ltac:(lia)) as [b H0]. rewrite Nat.add_0_r in H0.
  assert (Hnext : forall w', calls w' = S (calls w) ->
            forall i, i < todo -> rate_limited (net url p (calls w' + i))).
  { intros w' Hw' i Hi. rewrite Hw'.
    replace (S (calls w) + i) with (calls w + S i) by lia. apply Hre. lia. }
  simpl. rewrite H0. simpl. rewrite IH; [simpl; lia | by apply Hnext].
Qed.

(** A timeout is followed by a sleep except at the last attempt. *)
Lemma fetch_loop_now_timeout svc net url p key attempt todo w :
  attempt + todo = max_retries svc ->
  (forall i, i < todo -> net url p (calls w + i) = TimeoutError) ->
  now (fetch_loop svc net url p key attempt todo w).2
    = (now w + Z.of_nat (Nat.pred todo) * retry_delay svc)%Z.
Proof.
  revert attempt w. induction todo as [|todo IH]; intros attempt w Hsum Hto.
  { simpl. lia. }
  pose proof (Hto 0 ltac:(lia)) as H0. rewrite Nat.add_0_r in H0.
  assert (Hnext : forall w', calls w' = S (calls w) ->
            forall i, i < todo -> net url p (calls w' + i) = TimeoutError).
  { intros w' Hw' i Hi. rewrite Hw'.
    replace (S (calls w) + i) with (calls w + S i) by lia. apply Hto. lia. }
  simpl. rewrite H0.
  destruct (Z.of_nat attempt <? Z.of_nat (max_retries svc) - 1)%Z eqn:E.
  - apply Z.ltb_lt in E. rewrite IH; [|lia|by apply Hnext].
    simpl. destruct todo; [lia|]. simpl Nat.pred. lia.
  - apply Z.ltb_ge in E. rewrite IH; [|lia|by apply Hnext].
    simpl. assert (todo = 0) as -> by lia. simpl. lia.
Qed.

(** *** [fetch] *)

(** X1: transient failures are ridden out.  On a cache miss, when the first
    [i] requests (with [i] below [max_retries]) are answered by 429s or
    timeouts and the next one by a 200 with payload [d], [fetch] returns [d]
    after exactly [i + 1] requests and, with a Redis client, has cached it. *)
Theorem fetch_recovers svc net url params w i d :
  cache_lookup svc url params w = Ok None ->
  i < max_retries svc ->
  (forall j, j < i ->
     retryable (net url (request_params svc params w) (calls w + j))) ->
  net url (request_params svc params w) (calls w + i) = Response 200 (Some d) ->
  let out := fetch svc net url params w in
  out.1 = Ok d /\
  calls out.2 = calls w + S i /\
  (redis svc = true ->
   redis_db out.2 !! fetch_cache_key svc url params w
     = Some (json_dumps d, (now out.2 + cache_ttl svc)%Z)).
Proof.
  intros Hmiss Hi Hre Hok out. subst out. rewrite fetch_unfold, Hmiss.
  cbv zeta. cbn [fst snd].
  set (w0 := (bind_params svc params w).2).
  set (p := request_params svc params w) in *.
  set (key := fetch_cache_key svc url params w).
  assert (Hup : redis svc = true -> redis_up w0 = true).
  { intros Hr. apply (cache_lookup_ok_up svc url params w None Hmiss Hr). }
  destruct (fetch_loop_decided svc net url p key 0 (max_retries svc) w0 i Hi Hre)
    as [_ Hgood].
  destruct (Hgood d Hok Hup) as [Hd Hcalls].
  split; [by rewrite Hd|]. split; [exact Hcalls|].
  apply (fetch_loop_last_ok svc net url p key 0 (max_retries svc) w0 d Hup).
  - rewrite Hcalls. lia.
  - rewrite Hcalls. replace (Nat.pred (calls w0 + S i)) with (calls w0 + i) by lia.
    exact Hok.
Qed.

(** X2: the time a failing [fetch] spends asleep.  On a cache miss, an
    endpoint that always answers 429 costs [max_retries] delays, the last
    of them after the last attempt; an endpoint that always times out costs
    one delay fewer. *)
Theorem fetch_backoff_time svc net url params w :
  cache_lookup svc url params w = Ok None ->
  let out := fetch svc net url params w in
  (persistently net rate_limited ->
     now out.2 = (now w + Z.of_nat (max_retries svc) * retry_delay svc)%Z) /\
  (persistently net (eq TimeoutError) ->
     now out.2
       = (now w + Z.of_nat (Nat.pred (max_retries svc)) * retry_delay svc)%Z).
Proof.
  intros Hmiss out. subst out. rewrite fetch_unfold, Hmiss. cbv zeta. cbn [fst snd].
  split.
  - intros Hlim. rewrite fetch_loop_now_rate_limited; [reflexivity|].
    intros i _. apply Hlim.
  - intros Hto. rewrite fetch_loop_now_timeout; [reflexivity|lia|].
    intros i _. symmetry. apply Hto.
Qed.

(** X3: a failure is never cached.  When no request within the retry budget
    is answered by a decoded 200, the Redis contents after [fetch] are the
    ones before it. *)
Theorem fetch_failure_not_cached svc net url params w :
  (forall i d, i < max_retries svc ->
     net url (request_params svc params w) (calls w + i) <> Response 200 (Some d)) ->
  redis_db (fetch svc net url params w).2 = redis_db w.
Proof.
  intros Hno. rewrite fetch_unfold.
  destruct (cache_lookup svc url params w) as [[c|]|e].
  - by destruct (json_loads c).
  - cbv zeta. cbn [fst snd]. by rewrite fetch_loop_failure_not_cached.
  - reflexivity.
Qed.

(** X4: without a Redis client [fetch] never raises and never writes to
    Redis, whatever the network does. *)
Theorem fetch_without_client svc net url params w :
  redis svc = false ->
  (exists r, (fetch svc net url params w).1 = Ok r) /\
  redis_db (fetch svc net url params w).2 = redis_db w.
Proof.
  intros Hr. rewrite fetch_unfold.
  assert (cache_lookup svc url params w = Ok None) as ->.
  { unfold cache_lookup, cache_check. by rewrite Hr. }
  cbv zeta. cbn [fst snd]. split; [by eexists|].
  by rewrite fetch_loop_no_client.
Qed.

(** X5: the cache entries of two service classes never collide: when the
    class names hold no colon and differ, so do the cache keys, for any urls
    and parameters. *)
Theorem cache_key_separates_classes svc1 svc2 url1 url2 p1 p2 :
  colon_free (class_name svc1) = true ->
  colon_free (class_name svc2) = true ->
  class_name svc1 <> class_name svc2 ->
  cache_key svc1 url1 p1 <> cache_key svc2 url2 p2.
Proof.
  intros H1 H2 Hne E. unfold cache_key in E.
  by destruct (colon_split _ _ _ _ H1 H2 E).
Qed.

(** [fetch] depends on the network only through the answers for its url and
    the parameters it sends. *)
Lemma fetch_agree svc net net' url params w :
  agree_at net net' url (request_params svc params w) ->
  fetch svc net url params w = fetch svc net' url params w.
Proof.
  intros Hag. rewrite !fetch_unfold.
  destruct (cache_lookup svc url params w) as [[c|]|e]; try reflexivity.
  cbv zeta. by rewrite (fetch_loop_agree svc net net').
Qed.

(** What [get_apod] sends: the dictionary it built, with the API key. *)
Lemma get_apod_request_params svc date count w :
  let l := fresh (dom (heap w)) in
  request_params svc (Some l)
    (set_heap (<[l := apod_params date count]> (heap w)) w)
  = <["api_key" := JStr (api_key svc)]> (apod_params date count).
Proof.
  intros l. unfold request_params.
  rewrite (bind_params_nonempty svc l (apod_params date count)).
  - simpl. by rewrite lookup_insert_eq.
  - simpl. by rewrite lookup_insert_eq.
  - unfold apod_params. destruct date as [s|]; [case_bool_decide|];
      apply insert_non_empty.
Qed.

(** X6: [APODService.get_apod] asks the network about one request only: the
    APOD url with the API key and either the date, when one is given and not
    empty, or the count; never both, and nothing else. *)
Theorem get_apod_request svc net net' date count w :
  agree_at net net' "https://api.nasa.gov/planetary/apod"
    (<["api_key" := JStr (api_key svc)]> (apod_params date count)) ->
  get_apod svc net date count w = get_apod svc net' date count w /\
  (apod_params date count !! "date" = None \/
   apod_params date count !! "count" = None).
Proof.
  intros Hag. split.
  - unfold get_apod. apply fetch_agree.
    fold (apod_params date count). by rewrite get_apod_request_params.
  - unfold apod_params. destruct date as [s|]; [case_bool_decide|]; auto.
Qed.

(** X19: an expired entry is not served.  With a Redis client, once the
    entry under the key of a call has reached its expiry, [fetch] asks the
    network again: when the answer is a 200 with payload [d] it returns [d]
    after one request and replaces the entry, which now expires [cache_ttl]
    after this call. *)
Theorem fetch_refreshes_expired svc net url params w stale expiry d :
  redis svc = true -> redis_up w = true ->
  0 < max_retries svc ->
  redis_db w !! fetch_cache_key svc url params w = Some (stale, expiry) ->
  (expiry <= now w)%Z ->
  net url (request_params svc params w) (calls w) = Response 200 (Some d) ->
  let out := fetch svc net url params w in
  out.1 = Ok d /\
  calls out.2 = S (calls w) /\
  redis_db out.2 !! fetch_cache_key svc url params w
    = Some (json_dumps d, (now w + cache_ttl svc)%Z).
Proof.
  intros Hr Hup Hmax Hentry Hexp Hnet out. subst out. rewrite fetch_unfold.
  assert (cache_lookup svc url params w = Ok None) as ->.
  { unfold cache_lookup, cache_check, redis_get.
    rewrite Hr, bind_params_redis_up, Hup, bind_params_redis, bind_params_now, Hentry.
    by rewrite (proj2 (Z.ltb_ge _ _) Hexp). }
  cbv zeta. cbn [fst snd].
  destruct (max_retries svc) as [|todo]; [lia|].
  pose proof (bind_params_calls svc params w) as Hcalls.
  pose proof (bind_params_redis_up svc params w) as Hup'.
  pose proof (bind_params_now svc params w) as Hnow.
  destruct (bind_params svc params w) as [l w0] eqn:Hbind. cbn [snd] in *.
  simpl. rewrite Hcalls, Hnet, Hr. simpl. rewrite Hup', Hup. simpl.
  rewrite Hcalls, Hnow. split; [done|]. split; [done|]. apply lookup_insert_eq.
Qed.

End WithRuntime.
End FetchExtras.

(* ################################################################# *)
(** * Further properties of the store *)

Module StoreExtras.
Import Store StoreFacts StoreMore.

Lemma with_rows_nil db : with_rows db [] = db.
Proof. destruct db. unfold with_rows, apods_of, asteroids_of, cneos_of, tles_of.
  simpl. by rewrite !app_nil_r. Qed.

Lemma with_rows_cons db r rows : with_rows db (r :: rows) = with_rows (push db r) rows.
Proof.
  unfold with_rows, apods_of, asteroids_of, cneos_of, tles_of.
  destruct r; simpl; by rewrite <- ?app_assoc.
Qed.

(** An INSERT that goes through appends the row; the only exception it has
    is [IntegrityError]. *)
Lemma insert_ok r db db' : insert r db = Ok db' -> db' = push db r.
Proof.
  destruct r; unfold insert;
    [destruct (unique_ok _ _ && unique_ok _ _) | destruct (unique_ok _ _)..];
    intros Hi; by simplify_eq.
Qed.

Lemma insert_raises r db e : insert r db = Raise e -> e = IntegrityError.
Proof.
  destruct r; unfold insert;
    [destruct (unique_ok _ _ && unique_ok _ _) | destruct (unique_ok _ _)..];
    intros Hi; by simplify_eq.
Qed.

Lemma inserts_ok rows db db' :
  Py.for_each insert rows db = Ok db' -> db' = with_rows db rows.
Proof.
  revert db. induction rows as [|r rows IH]; intros db; simpl.
  - intros [= <-]. by rewrite with_rows_nil.
  - destruct (insert r db) as [db1|e] eqn:E; simpl; [|discriminate].
    intros Hrest. rewrite with_rows_cons, <- (insert_ok r db db1 E). by apply IH.
Qed.

Lemma inserts_raise rows db e :
  Py.for_each insert rows db = Raise e -> e = IntegrityError.
Proof.
  revert db. induction rows as [|r rows IH]; intros db; simpl; [discriminate|].
  destruct (insert r db) as [db1|e1] eqn:E; simpl.
  - apply IH.
  - intros [= <-]. by apply (insert_raises r db).
Qed.

Lemma inserts_cons r rows db :
  Py.for_each insert (r :: rows) db
    = (db1 <- insert r db ;; Py.for_each insert rows db1).
Proof. reflexivity. Qed.

Lemma inserts_app rows1 rows2 db :
  Py.for_each insert (rows1 ++ rows2) db
    = (db1 <- Py.for_each insert rows1 db ;; Py.for_each insert rows2 db1).
Proof.
  revert db. induction rows1 as [|r rows1 IH]; intros db; simpl; [reflexivity|].
  destruct (insert r db); simpl; [apply IH | reflexivity].
Qed.

(** A commit that goes through appends the pending rows to their tables. *)
Lemma commit_ok pending db db' :
  commit pending db = Ok db' -> db' = with_rows db pending.
Proof.
  unfold commit. destruct pending as [|r pending].
  - intros [= <-]. by rewrite with_rows_nil.
  - destruct (available db); [|discriminate]. apply inserts_ok.
Qed.

Lemma grows_refl db : grows db db.
Proof. by repeat split. Qed.

Lemma with_rows_grows db rows : grows db (with_rows db rows).
Proof. repeat split; simpl; by apply prefix_app_r. Qed.

Lemma commit_grows pending db db' : commit pending db = Ok db' -> grows db db'.
Proof. intros ->%commit_ok. apply with_rows_grows. Qed.

(** A session with two asteroid rows of one key cannot be committed. *)
Lemma commit_repeated_key pending db :
  repeats_key pending -> exists e, commit pending db = Raise e.
Proof.
  intros (p1 & r1 & p2 & r2 & p3 & -> & Hkey & Hnull).
  destruct (commit _ db) as [db'|e] eqn:Hc; [exfalso|by exists e].
  unfold commit in Hc. destruct (p1 ++ _) as [|x xs] eqn:Hp in Hc.
  { by destruct p1. }
  rewrite <- Hp in Hc. clear Hp x xs. destruct (available db); [|discriminate].
  rewrite inserts_app in Hc.
  destruct (Py.for_each insert p1 db) as [db1|] eqn:E1;
    cbn [bind] in Hc; [|discriminate].
  rewrite inserts_cons in Hc.
  destruct (insert (RowAsteroid r1) db1) as [db2|] eqn:E2;
    cbn [bind] in Hc; [|discriminate].
  apply insert_ok in E2. rewrite inserts_app in Hc.
  destruct (Py.for_each insert p2 db2) as [db3|] eqn:E3;
    cbn [bind] in Hc; [|discriminate].
  apply inserts_ok in E3. rewrite inserts_cons in Hc.
  assert (Hin : neo_id r2 ∈ neo_id <$> asteroids_neows db3).
  { rewrite <- Hkey, E3, E2. simpl. rewrite !fmap_app. simpl.
    apply elem_of_app. left. apply elem_of_app. right. by left. }
  apply existsb_json_eqb in Hin.
  assert (Hbad : insert (RowAsteroid r2) db3 = Raise IntegrityError).
  { unfold insert. rewrite <- Hkey in Hin |- *.
    destruct (neo_id r1); try done; unfold unique_ok; by rewrite Hin. }
  by rewrite Hbad in Hc.
Qed.

End StoreExtras.

(* ################################################################# *)
(** * Further properties of the tasks *)

Module TaskExtras.
Import Store Celery Ingestion StoreFacts StoreMore StoreExtras IngestionMore TaskFacts.

(** *** Loops over a session *)

Lemma bind_ok {A B : Type} (m : result A) (f : A -> result B) b :
  (x <- m ;; f x) = Ok b -> exists a, m = Ok a /\ f a = Ok b.
Proof. destruct m as [a|e]; simpl; [eauto | discriminate]. Qed.

Lemma for_each_cons {A S : Type} (f : A -> S -> result S) x l s :
  Py.for_each f (x :: l) s = (s' <- f x s ;; Py.for_each f l s').
Proof. reflexivity. Qed.

Lemma for_each_ext {A S : Type} (f g : A -> S -> result S) l s :
  (forall x s, f x s = g x s) -> Py.for_each f l s = Py.for_each g l s.
Proof.
  intros Hfg. revert s. induction l as [|x l IH]; intros s; simpl; [done|].
  rewrite Hfg. destruct (g x s); simpl; [apply IH | done].
Qed.

Lemma for_each_appends {A : Type} (f : A -> list row -> result (list row)) :
  appends f -> appends (Py.for_each f).
Proof.
  intros Hf l. induction l as [|x l IH]; intros p; simpl.
  - by rewrite app_nil_r.
  - rewrite (Hf x p). destruct (f x []) as [r1|e]; simpl; [|done].
    rewrite (IH (p ++ r1)), (IH r1).
    destruct (Py.for_each f l []) as [r2|e]; simpl; [|done].
    by rewrite app_assoc.
Qed.

Lemma for_each_settles {A : Type}
    (f f2 : Database -> A -> list row -> result (list row)) :
  (forall db, appends (f db)) -> (forall db, appends (f2 db)) ->
  settles f f2 ->
  settles (fun db => Py.for_each (f db)) (fun db => Py.for_each (f2 db)).
Proof.
  intros Hf Hf2 Hset db db' all l. induction l as [|x l IH]; intros rows; simpl.
  - done.
  - intros Hrun Hsub Hc.
    destruct (f db x []) as [r1|e] eqn:Hx; simpl in Hrun; [|done].
    rewrite (for_each_appends (f db) (Hf db) l r1) in Hrun.
    destruct (Py.for_each (f db) l []) as [r2|e] eqn:Hl; simpl in Hrun; [|done].
    injection Hrun as <-.
    rewrite (Hset db db' all x r1 Hx); [simpl|set_solver|done].
    apply (IH r2); [done|set_solver|done].
Qed.

(** Rows only ever join the end of the session. *)
Lemma appends_extends {A : Type} (f : A -> list row -> result (list row)) x p p' :
  appends f -> f x p = Ok p' -> exists rows, p' = p ++ rows.
Proof.
  intros Hf. rewrite (Hf x p). destruct (f x []) as [rows|e]; simpl; [|done].
  intros [= <-]. by exists rows.
Qed.

Section WithRuntime.
Context `{PyRuntime}.

(** *** The loop bodies *)

Lemma apod_of_date now item a :
  apod_of now item = Ok a -> Py.get item "date" JNull = Ok (apod_date a).
Proof.
  unfold apod_of, Py.get. destruct item; try discriminate. simpl.
  by intros [= <-].
Qed.

Lemma apod_range_step_appends now db : appends (apod_range_step now db).
Proof.
  intros item p. unfold apod_range_step.
  destruct (Py.get item "date" JNull) as [date|e]; cbn [bind]; [|reflexivity].
  destruct (select_exists _ _ _ _) as [[]|e]; cbn [bind];
    [by rewrite app_nil_r| |reflexivity].
  destruct (apod_of now item); reflexivity.
Qed.

Lemma asteroid_step_appends now db : appends (asteroid_step now db).
Proof.
  intros a p. unfold asteroid_step. destruct (asteroid_record now db a); reflexivity.
Qed.

Lemma add_asteroids_appends now db : appends (add_asteroids now db).
Proof. exact (for_each_appends (asteroid_step now db) (asteroid_step_appends now db)). Qed.

Lemma asteroid_group_step_appends now db : appends (asteroid_group_step now db).
Proof.
  intros g p. unfold asteroid_group_step.
  destruct (Py.iter g) as [l|e]; cbn [bind]; [|reflexivity].
  apply add_asteroids_appends.
Qed.

Lemma cneos_step_appends now db : appends (cneos_step now db).
Proof.
  intros a p. unfold cneos_step. destruct (cneos_record now db a); reflexivity.
Qed.

(** *** Looking a key up after a commit *)

Lemma select_exists_ok {R : Type} (table : list R) col v db b :
  select_exists table col v db = Ok b ->
  available db = true /\ b = existsb (fun r => Py.json_eqb (col r) v) table.
Proof. unfold select_exists. destruct (available db); by intros [= <-]. Qed.

Lemma select_exists_found {R : Type} (table : list R) col (r : R) db :
  available db = true -> r ∈ table ->
  select_exists table col (col r) db = Ok true.
Proof.
  intros Hav Hr. unfold select_exists. rewrite Hav. f_equal.
  apply existsb_exists. exists r. split; [by apply list_elem_of_In|].
  by apply json_eqb_eq.
Qed.

Lemma existsb_elem {R : Type} (table : list R) col v :
  existsb (fun r => Py.json_eqb (col r) v) table = true ->
  exists r, r ∈ table /\ col r = v.
Proof.
  intros (r & Hr & Heq)%existsb_exists. exists r.
  split; [by apply list_elem_of_In | by apply json_eqb_eq].
Qed.

Lemma commit_available all db db' :
  commit all db = Ok db' -> available db' = available db.
Proof. by intros ->%commit_ok. Qed.

Lemma commit_keeps_apod all db db' a :
  commit all db = Ok db' -> a ∈ apod db \/ RowAPOD a ∈ all -> a ∈ apod db'.
Proof.
  intros ->%commit_ok Ha. simpl. apply elem_of_app.
  destruct Ha as [Ha|Ha]; [by left|right].
  apply list_elem_of_omap. by exists (RowAPOD a).
Qed.

Lemma commit_keeps_asteroid all db db' a :
  commit all db = Ok db' ->
  a ∈ asteroids_neows db \/ RowAsteroid a ∈ all -> a ∈ asteroids_neows db'.
Proof.
  intros ->%commit_ok Ha. simpl. apply elem_of_app.
  destruct Ha as [Ha|Ha]; [by left|right].
  apply list_elem_of_omap. by exists (RowAsteroid a).
Qed.

Lemma commit_keeps_cneos all db db' c :
  commit all db = Ok db' -> c ∈ cneos db \/ RowCNEOS c ∈ all -> c ∈ cneos db'.
Proof.
  intros ->%commit_ok Hc. simpl. apply elem_of_app.
  destruct Hc as [Hc|Hc]; [by left|right].
  apply list_elem_of_omap. by exists (RowCNEOS c).
Qed.

(** *** A second pass over the same element adds nothing *)

Lemma apod_range_step_settles now now2 :
  settles (apod_range_step now) (apod_range_step now2).
Proof.
  intros db db' all item rows Hrun Hsub Hc. unfold apod_range_step in *.
  destruct (Py.get item "date" JNull) as [date|e] eqn:Hd; cbn [bind] in *;
    [|discriminate].
  destruct (select_exists (apod db) apod_date date db) as [ex|e] eqn:Hs;
    cbn [bind] in Hrun; [|discriminate].
  apply select_exists_ok in Hs as [Hav ->].
  assert (Hfound : exists a, a ∈ apod db' /\ apod_date a = date).
  { destruct (existsb _ (apod db)) eqn:Hex.
    - apply existsb_elem in Hex as (a & Ha & Hdate). exists a. split; [|done].
      apply (commit_keeps_apod all db db' a Hc). by left.
    - destruct (apod_of now item) as [a|e] eqn:Ha; cbn [bind] in Hrun;
        [|discriminate].
      injection Hrun as <-. exists a. split.
      + apply (commit_keeps_apod all db db' a Hc). right. set_solver.
      + apply apod_of_date in Ha. congruence. }
  destruct Hfound as (a & Ha & <-).
  rewrite (select_exists_found (apod db') apod_date a db'); [reflexivity| |done].
  by rewrite (commit_available all db db' Hc).
Qed.

(** Peel the binds of a record that was built: each of them succeeded. *)
Ltac peel H :=
  repeat match type of H with
         | bind ?m _ = Ok _ =>
             let E := fresh "E" in
             destruct m eqn:E; cbn [bind] in H; [|discriminate H]
         end.

(** What [asteroid_record] did when it did not raise. *)
Lemma asteroid_record_ok now db asteroid o :
  asteroid_record now db asteroid = Ok o ->
  exists id,
    Py.get asteroid "id" JNull = Ok id /\ available db = true /\
    match o with
    | Some r => neo_id r = id
    | None =>
        existsb (fun r => Py.json_eqb (neo_id r) id) (asteroids_neows db) = true \/
        exists approaches,
          Py.get asteroid "close_approach_data" (JList []) = Ok approaches /\
          Py.truthy approaches = false
    end.
Proof.
  unfold asteroid_record. intros Hrun.
  destruct (Py.get asteroid "id" JNull) as [id|e] eqn:Hid; cbn [bind] in Hrun;
    [|discriminate].
  destruct (select_exists _ _ _ _) as [ex|e] eqn:Hs; cbn [bind] in Hrun;
    [|discriminate].
  apply select_exists_ok in Hs as [Hav ->].
  exists id. split; [done|]. split; [done|].
  destruct (existsb _ _) eqn:Hex.
  { injection Hrun as <-. by left. }
  destruct (Py.get asteroid "close_approach_data" (JList [])) as [ca|e] eqn:Hca;
    cbn [bind] in Hrun; [|discriminate].
  destruct (Py.truthy ca) eqn:Htruthy.
  - peel Hrun. by injection Hrun as <-.
  - injection Hrun as <-. right. by exists ca.
Qed.

(** An asteroid that is stored, or has no close approach, is passed over. *)
Lemma asteroid_record_skips now db asteroid id :
  Py.get asteroid "id" JNull = Ok id -> available db = true ->
  (exists r, r ∈ asteroids_neows db /\ neo_id r = id) \/
  (exists approaches,
     Py.get asteroid "close_approach_data" (JList []) = Ok approaches /\
     Py.truthy approaches = false) ->
  asteroid_record now db asteroid = Ok None.
Proof.
  intros Hid Hav Hwhy. unfold asteroid_record. rewrite Hid. cbn [bind].
  unfold select_exists. rewrite Hav. cbn [bind].
  destruct (existsb _ _) eqn:Hex; [reflexivity|].
  destruct Hwhy as [(r & Hr & <-) | (ca & -> & Hfalse)].
  - pose proof (select_exists_found (asteroids_neows db) neo_id r db Hav Hr) as Hf.
    unfold select_exists in Hf. rewrite Hav in Hf. congruence.
  - cbn [bind]. by rewrite Hfalse.
Qed.

Lemma asteroid_step_settles now now2 :
  settles (asteroid_step now) (asteroid_step now2).
Proof.
  intros db db' all a rows Hrun Hsub Hc. unfold asteroid_step in *.
  destruct (asteroid_record now db a) as [o|e] eqn:Hrec; cbn [bind] in Hrun;
    [|discriminate].
  injection Hrun as <-.
  apply asteroid_record_ok in Hrec as (id & Hid & Hav & Ho).
  rewrite (asteroid_record_skips now2 db' a id Hid); [reflexivity| |].
  - by rewrite (commit_available all db db' Hc).
  - destruct o as [r|].
    + left. exists r. split; [|done].
      apply (commit_keeps_asteroid all db db' r Hc). right. set_solver.
    + destruct Ho as [Hex | Hno]; [left|by right].
      apply existsb_elem in Hex as (r & Hr & Hkey). exists r. split; [|done].
      apply (commit_keeps_asteroid all db db' r Hc). by left.
Qed.

Lemma asteroid_group_step_settles now now2 :
  settles (asteroid_group_step now) (asteroid_group_step now2).
Proof.
  intros db db' all g rows Hrun Hsub Hc. unfold asteroid_group_step in *.
  destruct (Py.iter g) as [l|e]; cbn [bind] in *; [|discriminate].
  exact (for_each_settles (asteroid_step now) (asteroid_step now2)
           (asteroid_step_appends now) (asteroid_step_appends now2)
           (asteroid_step_settles now now2) db db' all l rows Hrun Hsub Hc).
Qed.

(** What [cneos_record] did when it did not raise. *)
Lemma cneos_record_ok now db approach o :
  cneos_record now db approach = Ok o ->
  exists des,
    Py.get approach "des" JNull = Ok des /\ available db = true /\
    match o with
    | Some r => designation r = des
    | None => existsb (fun r => Py.json_eqb (designation r) des) (cneos db) = true
    end.
Proof.
  unfold cneos_record. intros Hrun.
  destruct (Py.get approach "des" JNull) as [des|e] eqn:Hdes; cbn [bind] in Hrun;
    [|discriminate].
  destruct (select_exists _ _ _ _) as [ex|e] eqn:Hs; cbn [bind] in Hrun;
    [|discriminate].
  apply select_exists_ok in Hs as [Hav ->].
  exists des. split; [done|]. split; [done|].
  destruct (existsb _ _) eqn:Hex.
  { by injection Hrun as <-. }
  peel Hrun. by injection Hrun as <-.
Qed.

Lemma cneos_step_settles now now2 :
  settles (cneos_step now) (cneos_step now2).
Proof.
  intros db db' all a rows Hrun Hsub Hc. unfold cneos_step in *.
  destruct (cneos_record now db a) as [o|e] eqn:Hrec; cbn [bind] in Hrun;
    [|discriminate].
  injection Hrun as <-.
  apply cneos_record_ok in Hrec as (des & Hdes & Hav & Ho).
  assert (Hfound : exists r, r ∈ cneos db' /\ designation r = des).
  { destruct o as [r|].
    - exists r. split; [|done].
      apply (commit_keeps_cneos all db db' r Hc). right. set_solver.
    - apply existsb_elem in Ho as (r & Hr & Hkey). exists r. split; [|done].
      apply (commit_keeps_cneos all db db' r Hc). by left. }
  destruct Hfound as (r & Hr & <-).
  unfold cneos_record. rewrite Hdes. cbn [bind].
  rewrite (select_exists_found (cneos db') designation r db'); [reflexivity| |done].
  by rewrite (commit_available all db db' Hc).
Qed.

(** *** Running a task again *)

(** A loop that settles, run again after its commit, commits nothing. *)
Lemma second_pass {A : Type}
    (f f2 : Database -> A -> list row -> result (list row)) (l : list A) db db' :
  (forall db, appends (f db)) -> (forall db, appends (f2 db)) -> settles f f2 ->
  (pending <- Py.for_each (f db) l [] ;; commit pending db) = Ok db' ->
  (pending <- Py.for_each (f2 db') l [] ;; commit pending db') = Ok db'.
Proof.
  intros Hf Hf2 Hset (pending & Hloop & Hc)%bind_ok.
  by rewrite (for_each_settles f f2 Hf Hf2 Hset db db' pending l pending Hloop).
Qed.

Lemma save_apod_range_again now now2 data db db' :
  save_apod_range now data db = Ok db' -> save_apod_range now2 data db' = Ok db'.
Proof.
  exact (second_pass (apod_range_step now) (apod_range_step now2) (items_of data)
           db db' (apod_range_step_appends now) (apod_range_step_appends now2)
           (apod_range_step_settles now now2)).
Qed.

Lemma save_asteroids_again now now2 data db db' :
  save_asteroids now data db = Ok db' -> save_asteroids now2 data db' = Ok db'.
Proof.
  unfold save_asteroids.
  destruct (Py.getitem data "near_earth_objects") as [neos|e]; cbn [bind];
    [|discriminate].
  destruct (Py.values neos) as [groups|e]; cbn [bind]; [|discriminate].
  exact (second_pass (asteroid_group_step now) (asteroid_group_step now2) groups
           db db' (asteroid_group_step_appends now)
           (asteroid_group_step_appends now2)
           (asteroid_group_step_settles now now2)).
Qed.

Lemma save_cneos_again now now2 data db db' :
  save_cneos now data db = Ok db' -> save_cneos now2 data db' = Ok db'.
Proof.
  unfold save_cneos.
  destruct (Py.getitem data "data") as [rows|e]; cbn [bind]; [|discriminate].
  destruct (Py.slice_to 100 rows) as [limited|e]; cbn [bind]; [|discriminate].
  destruct (Py.iter limited) as [approaches|e]; cbn [bind]; [|discriminate].
  exact (second_pass (cneos_step now) (cneos_step now2) approaches
           db db' (cneos_step_appends now) (cneos_step_appends now2)
           (cneos_step_settles now now2)).
Qed.

(** The outcome of a task body that saves and then returns [v]. *)
Lemma saved_task_returned retries (save : result Database) v0 db v db' :
  shared_task retries (save_then save (Ok v0) db) = (Returned v, db') ->
  v = v0 /\ save = Ok db'.
Proof.
  unfold shared_task, save_then. destruct save as [dbx|e]; simpl.
  - by intros [= <- <-].
  - intros [= Hbad _]. by apply self_retry_not_returned in Hbad.
Qed.

(** X7: [ingest_apod_range] can be run again.  When a run returns, a later
    run over the same fetched data returns the same value and leaves the
    database as the first run left it: every date is found and skipped. *)
Theorem ingest_apod_range_again retries retries2 now now2 data db v db' :
  ingest_apod_range retries now (Ok data) db = (Returned v, db') ->
  ingest_apod_range retries2 now2 (Ok data) db' = (Returned v, db').
Proof.
  unfold ingest_apod_range, with_data, run_async.
  destruct (Py.truthy data).
  - intros [-> Hsave]%saved_task_returned.
    by rewrite (save_apod_range_again now now2 data db db' Hsave).
  - by intros [= <- <-].
Qed.

(** X8: [ingest_asteroids_today] can be run again: after a run that
    returned, a later run over the same feed returns the same value and
    changes nothing. *)
Theorem ingest_asteroids_today_again retries retries2 now now2 data db v db' :
  ingest_asteroids_today retries now (Ok data) db = (Returned v, db') ->
  ingest_asteroids_today retries2 now2 (Ok data) db' = (Returned v, db').
Proof.
  unfold ingest_asteroids_today, with_data, run_async.
  destruct (has_key "near_earth_objects" data) as [[]|e].
  - intros [-> Hsave]%saved_task_returned.
    by rewrite (save_asteroids_again now now2 data db db' Hsave).
  - by intros [= <- <-].
  - unfold shared_task. simpl. intros [= Hbad _].
    by apply self_retry_not_returned in Hbad.
Qed.

(** X9: [ingest_cneos_data] can be run again, in the same way. *)
Theorem ingest_cneos_data_again retries retries2 now now2 data db v db' :
  ingest_cneos_data retries now (Ok data) db = (Returned v, db') ->
  ingest_cneos_data retries2 now2 (Ok data) db' = (Returned v, db').
Proof.
  unfold ingest_cneos_data, with_data, run_async.
  destruct (has_key "data" data) as [[]|e].
  - intros [-> Hsave]%saved_task_returned.
    by rewrite (save_cneos_again now now2 data db db' Hsave).
  - by intros [= <- <-].
  - unfold shared_task. simpl. intros [= Hbad _].
    by apply self_retry_not_returned in Hbad.
Qed.

(** *** Tasks only append *)

Lemma save_then_grows (save : result Database) k db :
  (forall db', save = Ok db' -> grows db db') ->
  grows db (save_then save k db).2.
Proof.
  intros Hsave. unfold save_then.
  destruct save; simpl; [by apply Hsave | apply grows_refl].
Qed.

Lemma loop_then_commit_grows (loop : result (list row)) db db' :
  (pending <- loop ;; commit pending db) = Ok db' -> grows db db'.
Proof. intros (pending & _ & Hc)%bind_ok. by apply (commit_grows pending). Qed.

Lemma save_asteroids_grows now data db db' :
  save_asteroids now data db = Ok db' -> grows db db'.
Proof.
  unfold save_asteroids.
  destruct (Py.getitem _ _) as [neos|e]; cbn [bind]; [|discriminate].
  destruct (Py.values _) as [groups|e]; cbn [bind]; [|discriminate].
  apply loop_then_commit_grows.
Qed.

Lemma save_asteroids_range_grows now data db db' :
  save_asteroids_range now data db = Ok db' -> grows db db'.
Proof.
  unfold save_asteroids_range.
  destruct (Py.getitem _ _) as [neos|e]; cbn [bind]; [|discriminate].
  destruct (Py.values _) as [groups|e]; cbn [bind]; [|discriminate].
  apply loop_then_commit_grows.
Qed.

Lemma save_cneos_grows now data db db' :
  save_cneos now data db = Ok db' -> grows db db'.
Proof.
  unfold save_cneos.
  destruct (Py.getitem _ _) as [rows|e]; cbn [bind]; [|discriminate].
  destruct (Py.slice_to _ _) as [limited|e]; cbn [bind]; [|discriminate].
  destruct (Py.iter _) as [approaches|e]; cbn [bind]; [|discriminate].
  apply loop_then_commit_grows.
Qed.

(** X10: the tasks only ever append.  Whatever was fetched and however the
    task ends, every row that was stored is still there, in its place and
    unchanged: no task overwrites or deletes. *)
Theorem tasks_only_append retries now fetched tle_of db :
  grows db (ingest_apod retries now fetched db).2 /\
  grows db (ingest_apod_range retries now fetched db).2 /\
  grows db (ingest_asteroids_today retries now fetched db).2 /\
  grows db (ingest_asteroids_by_date retries now fetched db).2 /\
  grows db (ingest_cneos_data retries now fetched db).2 /\
  grows db (ingest_tle_data retries now tle_of db).2.
Proof.
  unfold ingest_apod, ingest_apod_range, ingest_asteroids_today,
    ingest_asteroids_by_date, ingest_cneos_data, ingest_tle_data,
    ingest_apod_body, shared_task, with_data, run_async.
  cbn [snd]. split; [|split; [|split; [|split; [|split]]]].
  - destruct fetched as [data|e]; [|apply grows_refl].
    destruct (Py.truthy data); [|apply grows_refl].
    apply save_then_grows. intros db'. apply loop_then_commit_grows.
  - destruct fetched as [data|e]; [|apply grows_refl].
    destruct (Py.truthy data); [|apply grows_refl].
    apply save_then_grows. intros db'. apply loop_then_commit_grows.
  - destruct fetched as [data|e]; [|apply grows_refl].
    destruct (has_key _ _) as [[]|]; [|apply grows_refl..].
    apply save_then_grows. intros db'. apply save_asteroids_grows.
  - destruct fetched as [data|e]; [|apply grows_refl].
    destruct (has_key _ _) as [[]|]; [|apply grows_refl..].
    apply save_then_grows. intros db'. apply save_asteroids_range_grows.
  - destruct fetched as [data|e]; [|apply grows_refl].
    destruct (has_key _ _) as [[]|]; [|apply grows_refl..].
    apply save_then_grows. intros db'. apply save_cneos_grows.
  - apply save_then_grows. intros db'. apply loop_then_commit_grows.
Qed.

(** *** A key twice in one session *)

Lemma repeats_key_app pending more :
  repeats_key pending -> repeats_key (pending ++ more).
Proof.
  intros (p1 & r1 & p2 & r2 & p3 & -> & Hkey & Hnull).
  exists p1, r1, p2, r2, (p3 ++ more). split; [|done].
  by rewrite <- !app_assoc, <- !app_comm_cons, <- !app_assoc, <- !app_comm_cons.
Qed.

(** When one element of a loop leaves a repeated key in the session, the
    session still has it at the end of the loop. *)
Lemma for_each_repeats {A : Type} (f : A -> list row -> result (list row)) l x p p' :
  appends f -> x ∈ l ->
  (forall q q', f x q = Ok q' -> repeats_key q') ->
  Py.for_each f l p = Ok p' -> repeats_key p'.
Proof.
  intros Hf Hx Hrep. revert p.
  assert (Hkeep : forall l p p', repeats_key p -> Py.for_each f l p = Ok p' ->
            repeats_key p').
  { clear -Hf. induction l as [|y l IH]; intros p p' Hp; simpl.
    - by intros [= <-].
    - intros (q & Hy & Hrest)%bind_ok.
      destruct (appends_extends f y p q Hf Hy) as [rows ->].
      apply (IH _ _ (repeats_key_app p rows Hp) Hrest). }
  induction l as [|y l IH]; intros p; [by apply elem_of_nil in Hx|].
  simpl. intros (q & Hy & Hrest)%bind_ok.
  apply elem_of_cons in Hx as [<- | Hx].
  - apply (Hkeep l q p'); [|done]. by apply (Hrep p).
  - by apply (IH Hx q).
Qed.

Lemma approach_record_id now asteroid id approach r :
  approach_record now asteroid id approach = Ok r -> neo_id r = id.
Proof. unfold approach_record. intros Hr. peel Hr. by injection Hr as <-. Qed.

Lemma approach_step_appends now asteroid id :
  appends (approach_step now asteroid id).
Proof.
  intros a p. unfold approach_step.
  destruct (approach_record now asteroid id a); reflexivity.
Qed.

Lemma asteroid_range_step_appends now db : appends (asteroid_range_step now db).
Proof.
  intros a p. unfold asteroid_range_step.
  destruct (Py.get a "id" JNull) as [id|e]; cbn [bind]; [|reflexivity].
  destruct (select_exists _ _ _ _) as [[]|e]; cbn [bind];
    [by rewrite app_nil_r| |reflexivity].
  destruct (Py.get a "close_approach_data" (JList [])) as [ca|e]; cbn [bind];
    [|reflexivity].
  destruct (Py.truthy ca); cbn [bind]; [|by rewrite app_nil_r].
  destruct (Py.iter ca) as [l|e]; cbn [bind]; [|reflexivity].
  exact (for_each_appends (approach_step now a id)
           (approach_step_appends now a id) l p).
Qed.

(** A new asteroid with two close approaches leaves its id twice in the
    session. *)
Lemma asteroid_range_step_repeats now db asteroid id ap1 ap2 more q q' :
  Py.get asteroid "id" JNull = Ok id -> id <> JNull ->
  existsb (fun r => Py.json_eqb (neo_id r) id) (asteroids_neows db) = false ->
  Py.get asteroid "close_approach_data" (JList [])
    = Ok (JList (ap1 :: ap2 :: more)) ->
  asteroid_range_step now db asteroid q = Ok q' -> repeats_key q'.
Proof.
  intros Hid Hnull Hnew Hca. unfold asteroid_range_step.
  rewrite Hid. cbn [bind]. unfold select_exists.
  destruct (available db); cbn [bind]; [|discriminate].
  rewrite Hnew, Hca. cbn [bind].
  change (Py.truthy (JList (ap1 :: ap2 :: more))) with true.
  change (Py.iter (JList (ap1 :: ap2 :: more))) with (Ok (ap1 :: ap2 :: more)).
  cbn [bind]. rewrite !for_each_cons.
  intros (q1 & H1 & (q2 & H2 & Hrest)%bind_ok)%bind_ok.
  unfold approach_step in H1, H2.
  apply bind_ok in H1 as (r1 & Hr1 & [= <-]).
  apply bind_ok in H2 as (r2 & Hr2 & [= <-]).
  apply approach_record_id in Hr1, Hr2.
  destruct (appends_extends (Py.for_each (approach_step now asteroid id)) more _ q'
              (for_each_appends _ (approach_step_appends now asteroid id)) Hrest)
    as [rows ->].
  apply repeats_key_app. exists q, r1, [], r2, [].
  split; [by rewrite <- app_assoc|]. split; congruence.
Qed.

(** X11: [ingest_asteroids_by_date] cannot store an asteroid that has two
    close approaches.  It adds one record per approach, all under the id of
    the asteroid, so for a feed that lists such an asteroid, new to the store
    and with an id, the commit cannot go through: the task ends in
    [self.retry] and nothing of the feed is stored. *)
Theorem two_approaches_abort_by_date
    retries now kv days asteroids asteroid id ap1 ap2 more db :
  Py.dict_lookup "near_earth_objects" kv = Some (JDict days) ->
  JList asteroids ∈ days.*2 ->
  asteroid ∈ asteroids ->
  Py.get asteroid "id" JNull = Ok id -> id <> JNull ->
  existsb (fun r => Py.json_eqb (neo_id r) id) (asteroids_neows db) = false ->
  Py.get asteroid "close_approach_data" (JList [])
    = Ok (JList (ap1 :: ap2 :: more)) ->
  exists e,
    ingest_asteroids_by_date retries now (Ok (JDict kv)) db
      = (self_retry 3 retries e 60, db).
Proof.
  intros Hneo Hday Hin Hid Hnull Hnew Hca.
  assert (Hsave : exists e, save_asteroids_range now (JDict kv) db = Raise e).
  { unfold save_asteroids_range. simpl Py.getitem. rewrite Hneo. cbn [bind Py.values].
    set (outer := fun asteroids_list (pending : list row) =>
           asteroids <- Py.iter asteroids_list ;;
           Py.for_each (asteroid_range_step now db) asteroids pending).
    assert (Houter : appends outer).
    { intros g p. unfold outer. destruct (Py.iter g) as [l|e]; cbn [bind];
        [|reflexivity].
      exact (for_each_appends _ (asteroid_range_step_appends now db) l p). }
    destruct (Py.for_each outer days.*2 []) as [pending|e] eqn:Hloop; cbn [bind];
      [|by exists e].
    apply commit_repeated_key.
    apply (for_each_repeats outer days.*2 (JList asteroids) [] pending Houter Hday);
      [|done].
    intros q q'. unfold outer. cbn [Py.iter bind].
    apply (for_each_repeats _ asteroids asteroid q q'
             (asteroid_range_step_appends now db) Hin).
    intros q0 q0'.
    apply (asteroid_range_step_repeats now db asteroid id ap1 ap2 more q0 q0'
             Hid Hnull Hnew Hca). }
  destruct Hsave as [e He]. exists e.
  unfold ingest_asteroids_by_date, with_data, shared_task, save_then, run_async.
  by rewrite (has_key_dict kv _ _ Hneo), He.
Qed.

(** *** The limit of [ingest_cneos_data] *)

Lemma for_each_length {A : Type} (f : A -> list row -> result (list row)) l p p' :
  (forall x q q', f x q = Ok q' -> length q' <= length q + 1) ->
  Py.for_each f l p = Ok p' -> length p' <= length p + length l.
Proof.
  intros Hf. revert p. induction l as [|x l IH]; intros p; simpl.
  - intros [= <-]. lia.
  - intros (q & Hx & Hrest)%bind_ok. apply Hf in Hx. apply IH in Hrest. lia.
Qed.

Lemma chars_substring_length n s :
  length (Py.chars (String.substring 0 n s)) <= n.
Proof.
  revert s. induction n as [|n IH]; intros [|c s]; simpl; try lia.
  specialize (IH s). lia.
Qed.

Lemma cneos_of_length rows : length (cneos_of rows) <= length rows.
Proof.
  unfold cneos_of. induction rows as [|[] rows IH]; csimpl; lia.
Qed.

(** X12: one run of [ingest_cneos_data] stores at most 100 rows, however
    many close approaches were fetched. *)
Theorem ingest_cneos_data_limit retries now fetched db :
  length (cneos (ingest_cneos_data retries now fetched db).2)
    <= length (cneos db) + 100.
Proof.
  unfold ingest_cneos_data, with_data, shared_task, run_async. cbn [snd].
  destruct fetched as [data|e]; [|simpl; lia].
  destruct (has_key "data" data) as [[]|e]; [|simpl; lia..].
  unfold save_then. destruct (save_cneos now data db) as [db'|e] eqn:Hsave;
    [|simpl; lia].
  cbn [snd]. revert Hsave. unfold save_cneos.
  destruct (Py.getitem data "data") as [rows|e]; cbn [bind]; [|discriminate].
  destruct (Py.slice_to 100 rows) as [limited|e] eqn:Hslice; cbn [bind];
    [|discriminate].
  destruct (Py.iter limited) as [approaches|e] eqn:Hiter; cbn [bind];
    [|discriminate].
  intros (pending & Hloop & ->%commit_ok)%bind_ok. simpl.
  rewrite length_app. pose proof (cneos_of_length pending) as Hrows.
  assert (Hpending : length pending <= length approaches).
  { apply (for_each_length (cneos_step now db) approaches [] pending); [|done].
    intros x q q'. unfold cneos_step.
    intros (o & _ & [= <-])%bind_ok. rewrite length_app, length_fmap.
    destruct o; simpl; lia. }
  assert (Hfew : length approaches <= 100).
  { destruct rows; try discriminate; injection Hslice as <-; simpl in Hiter;
      injection Hiter as <-.
    - apply chars_substring_length.
    - rewrite length_take. lia. }
  lia.
Qed.

End WithRuntime.
End TaskExtras.

(* ################################################################# *)
(** * An outage, from the request to the outcome of the task *)

Module PipelineExtras.
Import Fetch FetchFacts FetchMore Store Celery Ingestion Pipeline.

Section WithRuntime.
Context `{PyRuntime}.

(** Without a decoded 200 the loop of [fetch] ends with [None]. *)
Lemma fetch_loop_outage svc net url p key attempt todo w :
  outage net -> (fetch_loop svc net url p key attempt todo w).1 = JNull.
Proof.
  intros Hout. revert attempt w.
  induction todo as [|todo IH]; intros attempt w; [reflexivity|].
  simpl. destruct (net url p (calls w)) as [status body| |] eqn:Hnet;
    [| |reflexivity].
  - destruct (status =? 200)%Z eqn:E200.
    + apply Z.eqb_eq in E200 as ->. destruct body as [data|]; [|reflexivity].
      by destruct (Hout url p (calls w) data).
    + destruct (status =? 429)%Z; [apply IH | reflexivity].
  - destruct (_ <? _)%Z; apply IH.
Qed.

Lemma fetch_outage svc net url params w :
  redis svc = false -> outage net -> (fetch svc net url params w).1 = Ok JNull.
Proof.
  intros Hr Hout. rewrite fetch_unfold.
  assert (cache_lookup svc url params w = Ok None) as ->.
  { unfold cache_lookup, cache_check. by rewrite Hr. }
  cbv zeta. cbn [fst]. by rewrite fetch_loop_outage.
Qed.

(** X13: an outage seen from the tasks.  When no request is answered by a
    200 that decodes, the tasks whose service goes through [fetch]
    ([ingest_apod], [ingest_asteroids_today]) return their error value, so
    that Celery does not retry them.  [ingest_cneos_data], whose service
    catches nothing, makes one request: it returns the error value for a
    status other than 200 and ends in [self.retry] for a timeout, another
    exception of the request or a 200 that does not decode.  None of them
    changes the database. *)
Theorem outage_through_the_tasks key net retries w db :
  outage net ->
  (ingest_apod_task key net retries w db).1
    = (Returned (JDict [("status", JStr "error");
                        ("message", JStr "No data returned")]), db) /\
  (ingest_asteroids_today_task key net retries w db).1
    = (Returned status_error, db) /\
  (ingest_cneos_data_task net retries w db).1
    = (match net "https://api.nasa.gov/ssd/api/cad.api"
               (<["date-min" := JStr (strftime_days (now w) (-365))]>
                 (<["date-max" := JStr (strftime_days (now w) 365)]>
                   (<["limit" := JNum 1000 0]> {["sort" := JStr "date"]})))
               (calls w) with
       | Response status _ =>
           if (status =? 200)%Z then self_retry 3 retries JSONDecodeError 60
           else Returned status_error
       | TimeoutError => self_retry 3 retries AsyncioTimeoutError 60
       | ClientError => self_retry 3 retries AiohttpClientError 60
       end, db) /\
  calls (ingest_cneos_data_task net retries w db).2 = S (calls w).
Proof.
  intros Hout. split; [|split; [|split]].
  - unfold ingest_apod_task.
    pose proof (fetch_outage (NASAAPIBase_init "APODService" key false) net
      "https://api.nasa.gov/planetary/apod"
      (Some (fresh (dom (heap w))))
      (set_heap (<[fresh (dom (heap w)) := FetchMore.apod_params None 1]> (heap w)) w)
      eq_refl Hout) as Hf.
    unfold get_apod. unfold FetchMore.apod_params in Hf.
    destruct (fetch _ _ _ _ _) as [fetched w']. cbn [fst] in Hf. by subst fetched.
  - unfold ingest_asteroids_today_task, get_asteroids_today.
    pose proof (fetch_outage (NASAAPIBase_init "AsteroidsNeoWSService" key false)
      net "https://api.nasa.gov/neo/rest/v1/feed/today" None w eq_refl Hout) as Hf.
    destruct (fetch _ _ _ _ _) as [fetched w']. cbn [fst] in Hf. by subst fetched.
  - unfold ingest_cneos_data_task, query_close_approaches, get_json. cbn [fst].
    destruct (net _ _ _) as [status body| |] eqn:Hnet; [|reflexivity..].
    destruct (status =? 200)%Z eqn:E200; [|reflexivity].
    apply Z.eqb_eq in E200 as ->. destruct body as [data|]; [|reflexivity].
    by destruct (Hout _ _ _ _ Hnet).
  - reflexivity.
Qed.

End WithRuntime.
End PipelineExtras.

(* ################################################################# *)
(** * The DONKI and image tasks *)

Module TablesExtras.
Import Store Celery Ingestion Tables IngestionTables StoreFacts TaskFacts TaskExtras.

(** The INSERTs of a session of DONKI records append them. *)
Lemma add_events_ok rs t t' :
  Py.for_each add (RowDONKI <$> rs) t = Ok t' ->
  core t' = core t /\ donki t' = donki t ++ rs /\
  nasa_image_library t' = nasa_image_library t.
Proof.
  revert t. induction rs as [|r rs IH]; intros t; simpl.
  - intros [= <-]. by rewrite app_nil_r.
  - destruct (unique_ok _ _); simpl; [|discriminate].
    intros (Hc & Hd & Hi)%IH. simpl in *. by rewrite Hc, Hd, Hi, <- app_assoc.
Qed.

Lemma commit_events_ok rs t t' :
  commit_objects (RowDONKI <$> rs) t = Ok t' ->
  core t' = core t /\ donki t' = donki t ++ rs /\
  nasa_image_library t' = nasa_image_library t.
Proof.
  unfold commit_objects. destruct rs as [|r rs].
  - intros [= <-]. by rewrite app_nil_r.
  - rewrite fmap_cons. destruct (available (core t)); [|discriminate].
    apply (add_events_ok (r :: rs)).
Qed.

Section WithRuntime.
Context `{PyRuntime}.

Lemma flare_record_reads_id now : reads_id (flare_record now).
Proof.
  intros t event o. unfold flare_record.
  intros (id & Hid & (existing & [Hav ->]%select_exists_ok & Hrest)%bind_ok)%bind_ok.
  exists id. split; [done|]. split; [done|].
  destruct (existsb _ _) eqn:Hex; [by injection Hrest as <-|].
  repeat (apply bind_ok in Hrest as (? & _ & Hrest)). by injection Hrest as <-.
Qed.

Lemma cme_record_reads_id now : reads_id (cme_record now).
Proof.
  intros t event o. unfold cme_record.
  intros (id & Hid & (existing & [Hav ->]%select_exists_ok & Hrest)%bind_ok)%bind_ok.
  exists id. split; [done|]. split; [done|].
  destruct (existsb _ _) eqn:Hex; [by injection Hrest as <-|].
  repeat (apply bind_ok in Hrest as (? & _ & Hrest)). by injection Hrest as <-.
Qed.

Lemma flare_record_skips_stored now : skips_stored (flare_record now).
Proof.
  intros t event id Hid Hav Hex. unfold flare_record, select_exists.
  rewrite Hid, Hav. cbn [bind]. by rewrite Hex.
Qed.

Lemma cme_record_skips_stored now : skips_stored (cme_record now).
Proof.
  intros t event id Hid Hav Hex. unfold cme_record, select_exists.
  rewrite Hid, Hav. cbn [bind]. by rewrite Hex.
Qed.

(** A loop that did not raise added records only, and every event of it is
    stored already or has its id on one of them. *)
Lemma event_loop_ok record t events p p' :
  reads_id record ->
  event_loop record t events p = Ok p' ->
  exists rs, p' = p ++ (RowDONKI <$> rs) /\
    forall event, event ∈ events ->
      available (core t) = true /\
      exists id, Py.get event "eventID" JNull = Ok id /\
        existsb (fun r => Py.json_eqb (event_id r) id) (donki t ++ rs) = true.
Proof.
  intros Hrec. revert p. induction events as [|event events IH]; intros p.
  - intros [= <-]. exists []. split; [by rewrite app_nil_r|].
    intros event Hin. by apply elem_of_nil in Hin.
  - unfold event_loop. rewrite for_each_cons.
    intros (q & (o & Ho & [= <-])%bind_ok & Hrest)%bind_ok.
    apply IH in Hrest as (rs & -> & Hall).
    destruct (Hrec t event o Ho) as (id & Hid & Hav & Hshape).
    exists (option_list o ++ rs). split; [by rewrite fmap_app, app_assoc|].
    intros event' [-> | Hin]%elem_of_cons.
    + split; [done|]. exists id. split; [done|].
      rewrite !existsb_app. apply orb_true_iff. destruct o as [r|]; simpl.
      * right. subst id. by rewrite (proj2 (json_eqb_eq _ _) eq_refl).
      * by left.
    + destruct (Hall event' Hin) as (Hav' & id' & Hid' & Hex). split; [done|].
      exists id'. split; [done|]. rewrite !existsb_app in *.
      apply orb_true_iff in Hex as [Hex|Hex]; rewrite Hex; [done|].
      by rewrite !orb_true_r.
Qed.

(** When every event is stored, the loop adds nothing. *)
Lemma event_loop_stored record t events p :
  skips_stored record ->
  (forall event, event ∈ events ->
     available (core t) = true /\
     exists id, Py.get event "eventID" JNull = Ok id /\
       existsb (fun r => Py.json_eqb (event_id r) id) (donki t) = true) ->
  event_loop record t events p = Ok p.
Proof.
  intros Hskip. induction events as [|event events IH]; intros Hall; [done|].
  unfold event_loop. rewrite for_each_cons.
  destruct (Hall event) as (Hav & id & Hid & Hex); [apply list_elem_of_here|].
  rewrite (Hskip t event id Hid Hav Hex). cbn [bind option_list fmap list_fmap].
  rewrite app_nil_r. apply IH. intros event' Hin. apply Hall.
  by apply list_elem_of_further.
Qed.

Lemma save_events_again record record2 data t t' :
  reads_id record -> skips_stored record2 ->
  save_events record data t = Ok t' -> save_events record2 data t' = Ok t'.
Proof.
  intros Hrec Hskip. unfold save_events.
  destruct (Py.iter data) as [events|e]; cbn [bind]; [|discriminate].
  intros (pending & Hloop & Hc)%bind_ok.
  apply (event_loop_ok record t events [] pending Hrec) in Hloop as (rs & -> & Hall).
  rewrite app_nil_l in Hc. apply commit_events_ok in Hc as (Hcore & Hdonki & _).
  rewrite (event_loop_stored record2 t' events [] Hskip); [done|].
  intros event Hin. rewrite Hcore, Hdonki. by apply Hall.
Qed.

Lemma ingest_events_again record record2 retries retries2 data t v t' :
  reads_id record -> skips_stored record2 ->
  ingest_events record retries (Ok data) t = (Returned v, t') ->
  ingest_events record2 retries2 (Ok data) t' = (Returned v, t') /\
  (Py.truthy data = true -> success_count data = Ok v).
Proof.
  intros Hrec Hskip. unfold ingest_events, shared_task_on, with_data_on, run_async.
  destruct (Py.truthy data).
  - unfold save_then_on.
    destruct (save_events record data t) as [t1|e] eqn:Hsave; cbn [fst snd].
    + rewrite pair_equal_spec. intros [Hv <-].
      rewrite (save_events_again record record2 data t t1 Hrec Hskip Hsave).
      cbn [fst snd]. destruct (success_count data) as [c|e].
      * injection Hv as <-. done.
      * exfalso. revert Hv. unfold self_retry. by destruct (_ <? _)%nat.
    + rewrite pair_equal_spec. intros [Hv _]. exfalso. revert Hv.
      unfold self_retry. by destruct (_ <? _)%nat.
  - cbn [fst snd]. rewrite pair_equal_spec. intros [Hv <-]. split; [|done].
    by rewrite <- Hv.
Qed.

(** X14: the DONKI tasks can be run again, and their count is the number of
    events fetched.  After [ingest_donki_flares] or [ingest_donki_cme] has
    returned for a payload, either task run on the same payload stores
    nothing and returns the same value; for a payload that is not empty
    that value is the success value with [len(data)] as its count, whether
    its events were stored or passed over. *)
Theorem donki_tasks_again retries retries2 now now2 data t v t' :
  ingest_donki_flares retries now (Ok data) t = (Returned v, t') \/
  ingest_donki_cme retries now (Ok data) t = (Returned v, t') ->
  ingest_donki_flares retries2 now2 (Ok data) t' = (Returned v, t') /\
  ingest_donki_cme retries2 now2 (Ok data) t' = (Returned v, t') /\
  (Py.truthy data = true -> success_count data = Ok v).
Proof.
  unfold ingest_donki_flares, ingest_donki_cme. intros [Hrun|Hrun].
  - destruct (ingest_events_again _ (flare_record now2) retries retries2 data t v t'
                (flare_record_reads_id now) (flare_record_skips_stored now2) Hrun)
      as [H1 H3].
    destruct (ingest_events_again _ (cme_record now2) retries retries2 data t v t'
                (flare_record_reads_id now) (cme_record_skips_stored now2) Hrun)
      as [H2 _].
    done.
  - destruct (ingest_events_again _ (flare_record now2) retries retries2 data t v t'
                (cme_record_reads_id now) (flare_record_skips_stored now2) Hrun)
      as [H1 H3].
    destruct (ingest_events_again _ (cme_record now2) retries retries2 data t v t'
                (cme_record_reads_id now) (cme_record_skips_stored now2) Hrun)
      as [H2 _].
    done.
Qed.

(** *** [ingest_nasa_images] *)

(** The payloads [save_images] can loop over pass the test of the task. *)
Lemma has_items_of_items_in data items :
  items_in data = Ok items -> has_items data = Ok true.
Proof.
  unfold items_in, has_items.
  intros (collection & Hc & (its & Hi & _)%bind_ok)%bind_ok.
  destruct data as [| | | | |kv]; try discriminate.
  simpl in Hc. destruct (Py.dict_lookup "collection" kv) as [c|] eqn:Hlook;
    [|discriminate].
  injection Hc as ->. rewrite (truthy_dict kv _ _ Hlook). simpl.
  rewrite Hlook. rewrite bool_decide_eq_true_2 by eauto. cbn [bind].
  destruct collection as [| | | | |kv']; try discriminate.
  simpl in Hi. simpl. destruct (Py.dict_lookup "items" kv'); [|discriminate].
  by rewrite bool_decide_eq_true_2 by eauto.
Qed.

(** No record is built from an item whose [secondary_creator] is not an ISO
    date. *)
Lemma image_record_undated now t items item r :
  no_dated_creator items -> item ∈ items ->
  image_record now t item <> Ok (Some r).
Proof.
  intros Hno Hin Hrec. unfold image_record in Hrec.
  apply bind_ok in Hrec as (d0 & _ & Hrec).
  apply bind_ok in Hrec as (id & _ & Hrec).
  apply bind_ok in Hrec as (existing & _ & Hrec).
  destruct existing; [discriminate|].
  repeat (apply bind_ok in Hrec as (? & ? & Hrec)).
  match goal with
  | Hd : data0 item = Ok ?d,
    Hc : Py.get ?d "secondary_creator" _ = Ok ?c,
    Hf : fromisoformat_of ?c = Ok _ |- _ =>
      destruct c as [| | |s| |]; try discriminate Hf;
      simpl in Hf; rewrite (Hno item d s Hin Hd Hc) in Hf; discriminate Hf
  end.
Qed.

(** A new item gets past the lookup, so its pass ends in a record or in an
    exception. *)
Lemma image_record_new now t item d id :
  data0 item = Ok d -> Py.get d "nasa_id" JNull = Ok id ->
  existsb (fun r => Py.json_eqb (nasa_id r) id) (nasa_image_library t) = false ->
  image_record now t item <> Ok None.
Proof.
  intros Hd Hid Hnew Hrec. unfold image_record in Hrec.
  apply bind_ok in Hrec as (d0 & Hd0 & Hrec).
  rewrite Hd in Hd0. injection Hd0 as <-.
  apply bind_ok in Hrec as (id0 & Hid0 & Hrec).
  rewrite Hid in Hid0. injection Hid0 as <-.
  apply bind_ok in Hrec as (existing & [_ ->]%select_exists_ok & Hrec).
  rewrite Hnew in Hrec.
  repeat (apply bind_ok in Hrec as (? & ? & Hrec)). discriminate.
Qed.

Lemma image_loop_undated now t items l p p' :
  no_dated_creator items -> l ⊆ items ->
  Py.for_each (fun item (pending : list object) =>
      r <- image_record now t item ;;
      Ok (pending ++ (RowImage <$> option_list r))) l p = Ok p' ->
  p' = p.
Proof.
  intros Hno. revert p. induction l as [|item l IH]; intros p Hsub.
  - by intros [= <-].
  - rewrite for_each_cons.
    intros (q & (o & Ho & [= <-])%bind_ok & Hrest)%bind_ok.
    destruct o as [r|].
    + destruct (image_record_undated now t items item r Hno); [|done].
      apply Hsub, list_elem_of_here.
    + apply IH in Hrest; [|intros x Hx; by apply Hsub, list_elem_of_further].
      rewrite Hrest. simpl. by rewrite app_nil_r.
Qed.

(** X15: [ingest_nasa_images] stores no image without a date in
    [secondary_creator].  The task reads the last update of an image from
    that field, with no test and no default but the empty string.  For a
    payload where the field of no item holds an ISO date (where it is
    missing, say), the task never changes the database, and as soon as the
    payload has one item that is not stored yet the task ends in
    [self.retry]. *)
Theorem images_need_dated_creator retries now data items t :
  items_in data = Ok items ->
  no_dated_creator items ->
  (ingest_nasa_images retries now (Ok data) t).2 = t /\
  (forall item d id,
     item ∈ items -> data0 item = Ok d -> Py.get d "nasa_id" JNull = Ok id ->
     existsb (fun r => Py.json_eqb (nasa_id r) id) (nasa_image_library t) = false ->
     exists e, (ingest_nasa_images retries now (Ok data) t).1
               = self_retry 3 retries e 60).
Proof.
  intros Hitems Hno.
  unfold ingest_nasa_images, shared_task_on, with_data_on, run_async.
  rewrite (has_items_of_items_in data items Hitems). cbn [fst snd].
  assert (Hsave : save_images now data t =
            (pending <- Py.for_each (fun item (pending : list object) =>
                 r <- image_record now t item ;;
                 Ok (pending ++ (RowImage <$> option_list r))) items [] ;;
             commit_objects pending t)).
  { unfold save_images. unfold items_in in Hitems.
    apply bind_ok in Hitems as (c & -> & (its & Hits & Hiter)%bind_ok).
    cbn [bind]. rewrite Hits. cbn [bind]. by rewrite Hiter. }
  rewrite Hsave. clear Hsave. split.
  - destruct (Py.for_each _ items []) as [pending|e] eqn:Hloop; [|reflexivity].
    by rewrite (image_loop_undated now t items items [] pending Hno).
  - intros item d id Hin Hd Hid Hnew.
    assert (Hraise : exists e, image_record now t item = Raise e).
    { destruct (image_record now t item) as [[r|]|e] eqn:Hrec.
      - by destruct (image_record_undated now t items item r Hno Hin).
      - by destruct (image_record_new now t item d id Hd Hid Hnew).
      - by exists e. }
    destruct (for_each_raises (fun item (pending : list object) =>
                 r <- image_record now t item ;;
                 Ok (pending ++ (RowImage <$> option_list r))) items item Hin)
      with (s := @nil object) as [e He].
    { intros s0. destruct Hraise as [e ->]. by exists e. }
    rewrite He. by exists e.
Qed.

End WithRuntime.
End TablesExtras.

(* ################################################################# *)
(** * The session and the lookups *)

Module SessionExtras.
Import Store StoreMore StoreExtras TaskExtras.

(** X18: what a session commits, the lookups of the tasks find.  After a
    commit that went through, the query a task makes before it adds a
    record ([select ... where key == value], then [scalar()]) finds the row
    for the key of every record of the session, in each of the four
    tables. *)
Theorem committed_rows_are_found pending db db' :
  commit pending db = Ok db' ->
  (forall a, RowAPOD a ∈ pending ->
     select_exists (apod db') apod_date (apod_date a) db' = Ok true) /\
  (forall a, RowAsteroid a ∈ pending ->
     select_exists (asteroids_neows db') neo_id (neo_id a) db' = Ok true) /\
  (forall c, RowCNEOS c ∈ pending ->
     select_exists (cneos db') designation (designation c) db' = Ok true) /\
  (forall s, RowTLE s ∈ pending ->
     select_exists (tle db') satellite_number (satellite_number s) db' = Ok true).
Proof.
  intros Hc.
  assert (Hav : pending <> [] -> available db' = true).
  { intros Hne. rewrite (commit_available pending db db' Hc).
    unfold commit in Hc. destruct pending; [done|]. by destruct (available db). }
  assert (Hne : forall r : row, r ∈ pending -> pending <> []).
  { intros r Hr ->. by apply elem_of_nil in Hr. }
  apply commit_ok in Hc as Hrows.
  split; [|split; [|split]]; intros r Hr; apply select_exists_found;
    try (by apply Hav, (Hne _ Hr)); rewrite Hrows; simpl; apply elem_of_app; right;
    apply list_elem_of_omap; eexists; (split; [exact Hr | reflexivity]).
Qed.

End SessionExtras.

(* ################################################################# *)
(** * The further properties on sample inputs *)

Module ExtraCases.
Import Fetch FetchFacts FetchMore Store StoreMore Celery Ingestion IngestionMore
  Tables IngestionTables Pipeline.
Import FetchExtras TaskFacts TaskExtras PipelineExtras TablesExtras SessionExtras.

(** Two 429s, then the picture: three requests. *)
Lemma fetch_recovers_witness :
  let svc := Samples.apod_service false in
  let net := after 2 (Response 429 None) (Response 200 (Some Samples.apod_item)) in
  let out := fetch (H := stub_runtime JNull) svc net Samples.apod_url None
               empty_world in
  out.1 = Ok Samples.apod_item /\ calls out.2 = 3.
Proof.
  intros svc net out.
  destruct (fetch_recovers (H := stub_runtime JNull) svc net Samples.apod_url None
              empty_world 2 Samples.apod_item) as (H1 & H2 & _).
  - reflexivity.
  - vm_compute. lia.
  - intros j Hj. right. exists None. unfold net, after. simpl.
    destruct (Nat.ltb_spec j 2); [reflexivity | lia].
  - reflexivity.
  - split; [exact H1 | exact H2].
Defined.

(** Three 429s cost three delays of two seconds. *)
Lemma fetch_backoff_time_witness :
  now (fetch (H := stub_runtime JNull) (Samples.apod_service false)
         (always (Response 429 None)) Samples.apod_url None empty_world).2 = 6%Z.
Proof.
  destruct (fetch_backoff_time (H := stub_runtime JNull) (Samples.apod_service false)
              (always (Response 429 None)) Samples.apod_url None empty_world eq_refl)
    as [Hlimited _].
  apply Hlimited. intros url p n. by exists None.
Defined.

(** An entry that expired at time 10, read at time 20. *)
Lemma fetch_refreshes_expired_witness :
  let rt := stub_runtime Samples.apod_item in
  let svc := Samples.apod_service true in
  let w := {| heap := ∅;
              redis_db := {["APODService:https://api.nasa.gov/planetary/apod:{}"
                              := ("cached", 10%Z)]};
              redis_up := true; now := 20; calls := 0 |} in
  let out := fetch (H := rt) svc (always (Response 200 (Some Samples.apod_item)))
               Samples.apod_url None w in
  out.1 = Ok Samples.apod_item /\ calls out.2 = 1.
Proof.
  intros rt svc w out.
  destruct (fetch_refreshes_expired (H := rt) svc
              (always (Response 200 (Some Samples.apod_item))) Samples.apod_url
              None w "cached" 10%Z Samples.apod_item) as (H1 & H2 & _).
  - reflexivity.
  - reflexivity.
  - vm_compute. lia.
  - vm_compute. reflexivity.
  - vm_compute. discriminate.
  - reflexivity.
  - split; [exact H1 | exact H2].
Defined.

(** With a Redis client and a failing endpoint the cache stays empty. *)
Lemma fetch_failure_not_cached_witness :
  redis_db (fetch (H := stub_runtime JNull) (Samples.apod_service true)
              (always ClientError) Samples.apod_url None empty_world).2 = ∅.
Proof.
  apply (fetch_failure_not_cached (H := stub_runtime JNull) (Samples.apod_service true)
           (always ClientError) Samples.apod_url None empty_world).
  intros i d _. discriminate.
Defined.

Lemma fetch_without_client_witness :
  (exists r, (fetch (H := stub_runtime JNull) (Samples.apod_service false)
                (always (Response 200 (Some Samples.apod_item))) Samples.apod_url
                None empty_world).1 = Ok r) /\
  redis_db (fetch (H := stub_runtime JNull) (Samples.apod_service false)
              (always (Response 200 (Some Samples.apod_item))) Samples.apod_url
              None empty_world).2 = ∅.
Proof.
  exact (fetch_without_client (H := stub_runtime JNull) (Samples.apod_service false)
           (always (Response 200 (Some Samples.apod_item))) Samples.apod_url None
           empty_world eq_refl).
Defined.

(** The same url and parameters under two classes. *)
Lemma cache_key_separates_classes_witness :
  cache_key (H := stub_runtime JNull) (Samples.apod_service true)
    Samples.apod_url ∅
  <> cache_key (H := stub_runtime JNull)
       (NASAAPIBase_init "AsteroidsNeoWSService" "DEMO_KEY" true)
       Samples.apod_url ∅.
Proof.
  apply (cache_key_separates_classes (H := stub_runtime JNull)
           (Samples.apod_service true)
           (NASAAPIBase_init "AsteroidsNeoWSService" "DEMO_KEY" true)).
  - reflexivity.
  - reflexivity.
  - discriminate.
Defined.

(** Two networks that differ away from the APOD url. *)
Lemma get_apod_request_witness :
  let net' : network := fun url _ _ =>
    if String.eqb url Samples.apod_url then TimeoutError else ClientError in
  get_apod (H := stub_runtime JNull) (Samples.apod_service false)
    (always TimeoutError) None 1 empty_world
  = get_apod (H := stub_runtime JNull) (Samples.apod_service false) net' None 1
      empty_world.
Proof.
  intros net'.
  destruct (get_apod_request (H := stub_runtime JNull) (Samples.apod_service false)
              (always TimeoutError) net' None 1 empty_world) as [Hsame _].
  - intros n. reflexivity.
  - exact Hsame.
Defined.

(** The picture of the day, ingested twice by [ingest_apod_range]. *)
Lemma ingest_apod_range_again_witness :
  let run1 := ingest_apod_range 0 1704067200 (Ok Samples.apod_item) empty_db in
  length (apod run1.2) = 1 /\
  ingest_apod_range 1 1704070800 (Ok Samples.apod_item) run1.2
    = (Returned status_success, run1.2).
Proof.
  intros run1. split; [reflexivity|].
  exact (ingest_apod_range_again 0 1 1704067200 1704070800 Samples.apod_item
           empty_db status_success run1.2 eq_refl).
Defined.

(** A feed of two asteroids, ingested twice. *)
Lemma ingest_asteroids_today_again_witness :
  let run1 := ingest_asteroids_today (H := stub_runtime JNull) 0 1704067200
                (Ok MoreSamples.neo_feed_of_two) empty_db in
  length (asteroids_neows run1.2) = 2 /\
  ingest_asteroids_today (H := stub_runtime JNull) 1 1704070800
    (Ok MoreSamples.neo_feed_of_two) run1.2
    = (Returned status_success, run1.2).
Proof.
  intros run1. split; [reflexivity|].
  exact (ingest_asteroids_today_again (H := stub_runtime JNull) 0 1 1704067200
           1704070800 MoreSamples.neo_feed_of_two empty_db status_success run1.2
           eq_refl).
Defined.

(** Two close approaches, ingested twice. *)
Lemma ingest_cneos_data_again_witness :
  let run1 := ingest_cneos_data (H := stub_runtime JNull) 0 1704067200
                (Ok MoreSamples.cneos_rows) empty_db in
  length (cneos run1.2) = 2 /\
  ingest_cneos_data (H := stub_runtime JNull) 1 1704070800
    (Ok MoreSamples.cneos_rows) run1.2
    = (Returned status_success, run1.2).
Proof.
  intros run1. split; [reflexivity|].
  exact (ingest_cneos_data_again (H := stub_runtime JNull) 0 1 1704067200
           1704070800 MoreSamples.cneos_rows empty_db status_success run1.2
           eq_refl).
Defined.

(** An asteroid with two close approaches in the range. *)
Lemma two_approaches_abort_by_date_witness :
  exists e,
    ingest_asteroids_by_date (H := stub_runtime JNull) 0 1704067200
      (Ok (JDict MoreSamples.neo_feed_fields)) empty_db
    = (self_retry 3 0 e 60, empty_db).
Proof.
  apply (two_approaches_abort_by_date (H := stub_runtime JNull) 0 1704067200
           MoreSamples.neo_feed_fields MoreSamples.neo_days
           [MoreSamples.asteroid_seen_twice] MoreSamples.asteroid_seen_twice
           (JStr "3542519") (MoreSamples.close_approach "Earth")
           (MoreSamples.close_approach "Venus") []).
  - reflexivity.
  - apply list_elem_of_here.
  - apply list_elem_of_here.
  - reflexivity.
  - discriminate.
  - reflexivity.
  - reflexivity.
Defined.

(** Every request times out. *)
Lemma outage_through_the_tasks_witness :
  (ingest_asteroids_today_task (H := stub_runtime JNull) "DEMO_KEY"
     (always TimeoutError) 0 empty_world empty_db).1
  = (Returned status_error, empty_db).
Proof.
  destruct (outage_through_the_tasks (H := stub_runtime JNull) "DEMO_KEY"
              (always TimeoutError) 0 empty_world empty_db) as (_ & Htoday & _).
  - intros url p i d. discriminate.
  - exact Htoday.
Defined.

(** Two flares: the second run of the task, as queued twice by the route
    [refresh_donki], stores nothing and counts two again. *)
Lemma donki_tasks_again_witness :
  let run1 := ingest_donki_flares (H := stub_runtime JNull) 0 1704067200
                (Ok MoreSamples.flares) MoreSamples.empty_tables in
  length (donki run1.2) = 2 /\
  ingest_donki_flares (H := stub_runtime JNull) 0 1704070800
    (Ok MoreSamples.flares) run1.2
    = (Returned (JDict [("status", JStr "success"); ("count", JNum 2 0)]), run1.2).
Proof.
  intros run1. split; [reflexivity|].
  destruct (donki_tasks_again (H := stub_runtime JNull) 0 0 1704067200 1704070800
              MoreSamples.flares MoreSamples.empty_tables
              (JDict [("status", JStr "success"); ("count", JNum 2 0)]) run1.2)
    as (Hflares & _ & _).
  - left. reflexivity.
  - exact Hflares.
Defined.

(** A search with one image, which has no [secondary_creator]. *)
Lemma images_need_dated_creator_witness :
  let out := ingest_nasa_images (H := stub_runtime JNull) 0 1704067200
               (Ok MoreSamples.image_search) MoreSamples.empty_tables in
  out.2 = MoreSamples.empty_tables /\ exists e, out.1 = self_retry 3 0 e 60.
Proof.
  intros out.
  destruct (images_need_dated_creator (H := stub_runtime JNull) 0 1704067200
              MoreSamples.image_search [MoreSamples.image_item]
              MoreSamples.empty_tables) as [Hsame Hraise].
  - reflexivity.
  - intros item d s _ _ _. reflexivity.
  - split; [exact Hsame|].
    apply (Hraise MoreSamples.image_item MoreSamples.image_data (JStr "PIA12235")).
    + apply list_elem_of_here.
    + reflexivity.
    + reflexivity.
    + reflexivity.
Defined.

(** The invariant at the empty database, for a list of one picture. *)
Lemma tasks_keep_keys_unique_witness :
  keys_unique (ingest_apod 0 1704067200 (Ok (JList [Samples.apod_item]))
                 empty_db).2.
Proof.
  destruct (tasks_keep_keys_unique (H := stub_runtime JNull) 0 1704067200
              (Ok (JList [Samples.apod_item])) (fun _ => JNull) empty_db)
    as (Hapod & _).
  - repeat split; apply NoDup_nil_2.
  - exact Hapod.
Defined.

(** A session of one picture. *)
Lemma committed_rows_are_found_witness :
  let a := {| apod_title := JStr "NGC 891"; apod_explanation := JNull;
              apod_url := JStr "https://apod.nasa.gov/apod/image/2401/ngc.jpg";
              apod_hdurl := JNull; apod_media_type := JStr "image";
              apod_copyright := JNull; apod_date := JStr "2024-01-01";
              apod_service_version := JStr "v1";
              apod_fetched_at := 1704067200 |} in
  select_exists (apod (with_rows empty_db [RowAPOD a])) apod_date
    (JStr "2024-01-01") (with_rows empty_db [RowAPOD a]) = Ok true.
Proof.
  intros a.
  destruct (committed_rows_are_found [RowAPOD a] empty_db
              (with_rows empty_db [RowAPOD a]) eq_refl) as (Hapod & _).
  apply (Hapod a). apply list_elem_of_here.
Defined.

End ExtraCases.
